(** * Verification of [src/hosp/regression.py] (flu-contest)

    A shallow embedding of the cross-validated regression pipeline:
    [train_model], [validate], [nowcast_report], [plot_results],
    [run_nowcast_experiment] and [predict].

    - Python floats and numpy float64 cells are binary64 floats ([PrimFloat]).
    - Calls into the collaborators (data access layer, estimators, reporting
      sink) are recorded in a write-only trace; their outcomes are supplied by
      interfaces ([Preparation], [MlUtils], [Metrics], [Numpy], [Sink],
      [HospUtils]) because their code lives in other modules.
    - A Python exception is an [Err] result that stops the computation.
    - The numpy matrices that [run_nowcast_experiment] mutates in place live
      in an explicit store addressed by references. *)

From Stdlib Require Import ZArith Uint63 Floats Lia.
From stdpp Require Import base option list gmap strings pretty.

Local Open Scope string_scope.
Local Open Scope Z_scope.
Local Open Scope list_scope.

(** ** Values *)

Definition epiweek := Z.
Definition location := string.
Definition group := Z.
(** A time period is the pair of its first and last epiweek. *)
Definition period := (epiweek * epiweek)%type.
(** The key of the data store: [(epiweek, group, location)]. *)
Definition key := (epiweek * group * location)%type.

Abbreviation ndarray := (list float).
Abbreviation matrix := (list (list float)).

(** Python passes lists of arrays and arrays alike to [sklearn.metrics]. *)
Inductive arraylike :=
| Vec (v : ndarray)
| Seq (xs : list ndarray).

(** The estimator classes of [ml_utils]. *)
Inductive family :=
| QuantLinear | QuantRidge | RegLinear | RegRidge | RegGBDT | QuantGBDT.

(** The three estimators of a model triple. *)
Inductive role := Upper | Mid | Lower.

(** ** Exceptions and results *)

Inductive exn :=
| UnboundLocalError (name : string)
| IndexError
| KeyError
| ValueError
| TypeError
| Raised (msg : string).

Inductive res (A : Type) :=
| Ok (a : A)
| Err (e : exn).
Arguments Ok {A} a.
Arguments Err {A} e.

Definition is_ok {A} (r : res A) : bool :=
  match r with Ok _ => true | Err _ => false end.

(** ** The trace of collaborator calls *)

Inductive event :=
| EvPrepare (locations : list location) (groups : list group)
            (periods : list period) (lag left_window right_window backfill_window : Z)
| EvFetch (l : location) (g : group) (e : epiweek)
          (lag left_window right_window backfill_window : Z)
| EvNew (f : family) (quantile : float)
| EvFit (r : role) (X : matrix) (Y : ndarray)
| EvCoFit (f : family) (X : matrix) (Y : ndarray)
| EvPredict (r : role) (x : ndarray)
| EvPlot (file : string) (inds : nat) (week_ticks : list string)
         (series : list (list ndarray))
| EvImshow (colormap : string) (results : matrix)
| EvAxes (title : string) (length width : nat)
| EvText (j i : nat) (v : float)
| EvSavefig (file : string)
| EvMakedirs (path : string)
| EvWriteData (file : string) (results : gmap (period * group) float).

(** ** The monad: a trace of calls and a result or an exception *)

Record W (A : Type) := MkW { trace : list event; outcome : res A }.
Arguments MkW {A} trace outcome.
Arguments trace {A} w.
Arguments outcome {A} w.

Definition W_ret {A} (a : A) : W A := MkW [] (Ok a).

Definition W_bind {A B} (f : A -> W B) (m : W A) : W B :=
  match outcome m with
  | Ok a => let r := f a in MkW (trace m ++ trace r) (outcome r)
  | Err e => MkW (trace m) (Err e)
  end.

#[global] Instance W_mret : MRet W := @W_ret.
#[global] Instance W_mbind : MBind W := @W_bind.
#[global] Instance W_fmap : FMap W :=
  fun A B (f : A -> B) (m : W A) => W_bind (fun a => W_ret (f a)) m.

Definition raise {A} (e : exn) : W A := MkW [] (Err e).

(** A call into a collaborator: the call is logged, its outcome returned. *)
Definition call {A} (ev : event) (r : res A) : W A := MkW [ev] r.

(** A library function that logs nothing and may raise. *)
Definition pure_call {A} (r : res A) : W A := MkW [] r.

(** [for x in xs: s = body x s] *)
Fixpoint foreach {A S} (xs : list A) (body : A -> S -> W S) (s : S) : W S :=
  match xs with
  | [] => mret s
  | x :: xs' => s' ← body x s; foreach xs' body s'
  end.

(** [range(lo, hi)] over Python integers. *)
Definition range (lo hi : Z) : list Z :=
  (fun i => lo + Z.of_nat i) <$> seq 0 (Z.to_nat (hi - lo)).

(** [for i in range(len(xs)): x = xs[i]]: the indices with their elements. *)
Definition enumerate {A} (xs : list A) : list (nat * A) :=
  zip (seq 0 (length xs)) xs.

(** ** Collaborators

    [constants.py], [hosp_utils.py], [preparation.py], [ml_utils.py],
    [sklearn.metrics], [numpy] and the plotting and file sink are other
    modules: they are interfaces here. *)

Class Constants := {
  FIRST_YEAR : Z;
  YEAR_WINDOW : Z;
  UPPER_QUANT : float;
  MID_QUANT : float;
  LOWER_QUANT : float;
  PENALTY : float;
  STATE_LIST : list string;
  GROUP_DESCRIPTIONS : gmap group string
}.

Class HospUtils := {
  get_start_year : epiweek -> Z;
  unravel : period -> list epiweek;
  get_period : Z -> Z -> Z -> period;
  get_max_window : epiweek -> Z
}.

(** The data access layer over a store of observations of type [obs].
    [fetch] gives the features of one sample as the row that an estimator
    predicts from (the source passes the transpose [x_val.T] of a column). *)
Class Preparation (obs : Type) := {
  prepare : gmap key obs -> list location -> list group -> list period ->
            Z -> Z -> Z -> Z -> res (matrix * ndarray);
  fetch : gmap key obs -> location -> group -> epiweek ->
          Z -> Z -> Z -> Z -> res (ndarray * ndarray * ndarray)
}.

(** Estimators of type [E]. [fit] mutates its estimator in Python; here it
    returns the fitted estimator. [est_cofit] is the joint fit of a
    quantile-coupled family. *)
Class MlUtils (E : Type) := {
  est_new : family -> float -> res E;
  est_fit : E -> matrix -> ndarray -> res E;
  est_cofit : family -> E -> E -> E -> matrix -> ndarray -> res (E * E * E);
  est_predict : E -> ndarray -> res ndarray
}.

Class Metrics := {
  r2_score : arraylike -> arraylike -> res float;
  mean_squared_error : arraylike -> arraylike -> res float
}.

(** [np.vstack(cells).squeeze()] *)
Class Numpy := {
  vstack_squeeze : list (list ndarray) -> res ndarray
}.

(** The reporting sink answers each call with success or an exception. *)
Class Sink := {
  sink : event -> res unit
}.

Definition emit `{Sink} (ev : event) : W unit := call ev (sink ev).

(** ** Helpers of [tools.py] *)

(** Modelled from the spec: [tools.create_double_list] is not part of the
    sources at hand. It builds a [length] by [width] grid whose cells are
    copies of [element], independent of each other. For immutable Python
    values (a list used as a value, [None]) a copy is the value itself. *)
Definition create_double_list {A} (element : A) (length width : nat) : list (list A) :=
  replicate length (replicate width element).

(** Modelled from the spec: [tools.flatten_double_list] is not part of the
    sources at hand. It lists the cells of a grid row by row. *)
Definition flatten_double_list {A} (grid : list (list A)) : list A :=
  concat grid.

(** [grid[l][g] = v]; Python raises [IndexError] out of range. *)
Definition grid_set {A} (grid : list (list A)) (l g : nat) (v : A) : res (list (list A)) :=
  match grid !! l with
  | None => Err IndexError
  | Some row =>
      match row !! g with
      | None => Err IndexError
      | Some _ => Ok (<[l := <[g := v]> row]> grid)
      end
  end.

(** [grid[l][g]] *)
Definition grid_get {A} (grid : list (list A)) (l g : nat) : res A :=
  match grid !! l with
  | None => Err IndexError
  | Some row =>
      match row !! g with
      | None => Err IndexError
      | Some c => Ok c
      end
  end.

(** [grid[l][g].append(v)] *)
Definition grid_append {A} (grid : list (list (list A))) (l g : nat) (v : A)
  : res (list (list (list A))) :=
  match grid_get grid l g with
  | Err e => Err e
  | Ok cell => grid_set grid l g (cell ++ [v])
  end.

(** ** The pipeline of [regression.py] *)

(** The result collectors of [validate], in the order it returns them. *)
Record collectors := MkCollectors {
  valid_weeks : list epiweek;
  predictions : list (list (list ndarray));
  predictions_lower : list (list (list ndarray));
  predictions_upper : list (list (list ndarray));
  cur_truth : list (list (list ndarray));
  ground_truth : list (list (list ndarray))
}.

Section Pipeline.
Context {obs E : Type}.
Context `{Constants, HospUtils, Preparation obs, MlUtils E, Metrics, Numpy, Sink}.

Abbreviation data_store := (gmap key obs).
Abbreviation triple := (E * E * E)%type.

(** Three estimators of one family, at the upper, middle and lower quantile. *)
Definition new_triple (f : family) : W triple :=
  model_upper ← call (EvNew f UPPER_QUANT) (est_new f UPPER_QUANT);
  model ← call (EvNew f MID_QUANT) (est_new f MID_QUANT);
  model_lower ← call (EvNew f LOWER_QUANT) (est_new f LOWER_QUANT);
  mret (model_upper, model, model_lower).

(** A local variable that no branch assigned is [None]; reading it raises
    [UnboundLocalError]. *)
Definition read_local {A} (name : string) (v : option A) : W A :=
  match v with
  | Some a => mret a
  | None => raise (UnboundLocalError name)
  end.

(** [d[k]] on a dict raises [KeyError] when [k] is missing. *)
Definition dict_get {A} (v : option A) : W A :=
  match v with
  | Some a => mret a
  | None => raise KeyError
  end.

Definition train_model (X : matrix) (Y : ndarray) (model_type : string) : W triple :=
  let cotrain := String.eqb model_type "quant_lin" || String.eqb model_type "quant_ridge" in
  if cotrain then
    models ←
      (if String.eqb model_type "quant_lin" then
         '(model_upper, model, model_lower) ← new_triple QuantLinear;
         fitted ← call (EvCoFit QuantLinear X Y)
                       (est_cofit QuantLinear model_upper model model_lower X Y);
         mret (Some fitted)
       else if String.eqb model_type "quant_ridge" then
         '(model_upper, model, model_lower) ← new_triple QuantRidge;
         fitted ← call (EvCoFit QuantRidge X Y)
                       (est_cofit QuantRidge model_upper model model_lower X Y);
         mret (Some fitted)
       else mret (None : option triple));
    read_local "model_upper" models
  else
    models ←
      (if String.eqb model_type "lin" then Some <$> new_triple RegLinear
       else if String.eqb model_type "ridge" then Some <$> new_triple RegRidge
       else if String.eqb model_type "gbdt" then Some <$> new_triple RegGBDT
       else if String.eqb model_type "quant_gbdt" then Some <$> new_triple QuantGBDT
       else mret (None : option triple));
    '(model_upper, model, model_lower) ← read_local "model_upper" models;
    model_upper ← call (EvFit Upper X Y) (est_fit model_upper X Y);
    model ← call (EvFit Mid X Y) (est_fit model X Y);
    model_lower ← call (EvFit Lower X Y) (est_fit model_lower X Y);
    mret (model_upper, model, model_lower).

(** The training seasons of [validate]. *)
Definition model_periods (mode : string) (start_year : Z) : list period :=
  if String.eqb mode "all" then
    (fun year => get_period year 40 17) <$> range FIRST_YEAR start_year
  else if String.eqb mode "prev" then
    (fun year => get_period year 40 17)
      <$> range (Z.max FIRST_YEAR (start_year - YEAR_WINDOW)) start_year
  else [].

(** The body of the innermost loop of [validate]. *)
Definition validate_cell (data : data_store) (models : triple)
    (lag left_window right_window backfill_window : Z) (epiweek : epiweek)
    (l_idx : nat) (location : location) (g_idx : nat) (group : group)
    (c : collectors) : W collectors :=
  let '(model_upper, model, model_lower) := models in
  match data !! (epiweek, group, location) with
  | None => mret c
  | Some _ =>
      '(x_val, cur_y_val, y_val) ←
        call (EvFetch location group epiweek lag left_window right_window backfill_window)
             (fetch data location group epiweek lag left_window right_window backfill_window);
      pred ← call (EvPredict Mid x_val) (est_predict model x_val);
      pred_u ← call (EvPredict Upper x_val) (est_predict model_upper x_val);
      pred_l ← call (EvPredict Lower x_val) (est_predict model_lower x_val);
      p ← pure_call (grid_append (predictions c) l_idx g_idx pred);
      pl ← pure_call (grid_append (predictions_lower c) l_idx g_idx pred_l);
      pu ← pure_call (grid_append (predictions_upper c) l_idx g_idx pred_u);
      ct ← pure_call (grid_append (cur_truth c) l_idx g_idx cur_y_val);
      gt ← pure_call (grid_append (ground_truth c) l_idx g_idx y_val);
      mret (MkCollectors (valid_weeks c) p pl pu ct gt)
  end.

(** One epiweek of the target period. *)
Definition validate_week (data : data_store) (locations : list location)
    (groups : list group) (models : triple)
    (lag left_window right_window backfill_window : Z)
    (epiweek : epiweek) (c : collectors) : W collectors :=
  let c := MkCollectors (valid_weeks c ++ [epiweek]) (predictions c)
             (predictions_lower c) (predictions_upper c) (cur_truth c) (ground_truth c) in
  foreach (enumerate locations) (fun '(l_idx, location) =>
    foreach (enumerate groups) (fun '(g_idx, group) =>
      validate_cell data models lag left_window right_window backfill_window
                    epiweek l_idx location g_idx group)) c.

Definition validate (data : data_store) (locations : list location) (groups : list group)
    (time_period : period) (lag left_window right_window backfill_window : Z)
    (mode model_type : string) : W collectors :=
  let start_year := get_start_year (fst time_period) in
  let period := unravel time_period in
  let model_periods := model_periods mode start_year in
  '(X, Y) ← call (EvPrepare locations groups model_periods
                            lag left_window right_window backfill_window)
                 (prepare data locations groups model_periods
                          lag left_window right_window backfill_window);
  models ← train_model X Y model_type;
  let empty := create_double_list [] (length locations) (length groups) in
  foreach period
    (validate_week data locations groups models lag left_window right_window backfill_window)
    (MkCollectors [] empty empty empty empty empty).

(** [str(n)] of a Python integer. *)
Definition str (n : Z) : string := pretty n.

(** [seq[i]] *)
Definition index {A} (xs : list A) (i : nat) : res A :=
  match xs !! i with
  | Some x => Ok x
  | None => Err IndexError
  end.

Definition nowcast_report_cell (path : string) (left_window backfill_window : Z)
    (c : collectors) (l_idx : nat) (location : location) (g_idx : nat) (group : group)
    (acc : list (list (option float)) * list (list (option float)))
  : W (list (list (option float)) * list (list (option float))) :=
  let '(rsq, mse) := acc in
  truth ← pure_call (grid_get (ground_truth c) l_idx g_idx);
  preds ← pure_call (grid_get (predictions c) l_idx g_idx);
  r ← pure_call (r2_score (Seq truth) (Seq preds));
  rsq ← pure_call (grid_set rsq l_idx g_idx (Some r));
  m ← pure_call (mean_squared_error (Seq truth) (Seq preds));
  mse ← pure_call (grid_set mse l_idx g_idx (Some m));
  let inds := length (valid_weeks c) in
  let week_ticks := (fun epiweek => str (epiweek `mod` 100)) <$> valid_weeks c in
  upper ← pure_call (grid_get (predictions_upper c) l_idx g_idx);
  lower ← pure_call (grid_get (predictions_lower c) l_idx g_idx);
  cur ← pure_call (grid_get (cur_truth c) l_idx g_idx);
  emit (EvPlot (path +:+ "/" +:+ location +:+ "/" +:+ str group +:+ "-" +:+
                str left_window +:+ "-" +:+ str backfill_window +:+ ".png")
               inds week_ticks [preds; upper; lower; cur; truth]);;
  mret (rsq, mse).

Definition nowcast_report (path : string) (data : data_store)
    (locations : list location) (groups : list group) (time_period : period)
    (left_window backfill_window : Z) (mode model_type : string)
  : W (list (list (option float)) * list (list (option float))) :=
  let rsq := create_double_list None (length locations) (length groups) in
  let mse := create_double_list None (length locations) (length groups) in
  c ← validate data locations groups time_period 0 left_window 0 backfill_window
               mode model_type;
  foreach (enumerate locations) (fun '(l_idx, location) =>
    foreach (enumerate groups) (fun '(g_idx, group) =>
      nowcast_report_cell path left_window backfill_window c l_idx location g_idx group))
    (rsq, mse).

(** [results[i][j]] on a numpy matrix. *)
Definition mat_get (results : matrix) (i j : nat) : res float :=
  match results !! i with
  | None => Err IndexError
  | Some row => index row j
  end.

(** [results.shape] *)
Definition shape (results : matrix) : nat * nat :=
  (length results, match results with [] => 0%nat | row :: _ => length row end).

Definition plot_results (path : string) (results : matrix) (name : string)
    (location : location) (group : group) (colormap : string) : W unit :=
  let '(length, width) := shape results in
  emit (EvImshow colormap results);;
  title ← dict_get (GROUP_DESCRIPTIONS !! group);
  emit (EvAxes title length width);;
  foreach (seq 0 length) (fun i _ =>
    foreach (seq 0 (S i)) (fun j _ =>
      v ← pure_call (mat_get results i j);
      emit (EvText j i v)) tt) tt;;
  emit (EvSavefig (path +:+ "/" +:+ location +:+ "/" +:+ name +:+ "_results_" +:+
                   str group +:+ ".png")).

(** An integer used in float arithmetic. *)
Definition float_of_int (n : Z) : float := PrimFloat.of_uint63 (Uint63.of_Z n).

(** The comparison of the sweep of [predict]:
    [if rsq > cur_rsq: opt_window = window; cur_rsq = rsq]. *)
Definition select_step (window : Z) (rsq : float) (sel : Z * float) : Z * float :=
  let '(opt_window, cur_rsq) := sel in
  if PrimFloat.ltb cur_rsq rsq then (window, rsq) else (opt_window, cur_rsq).

(** The sweep over a list of candidate windows with their penalized scores,
    from [opt_window = 0] and [cur_rsq = 0.0]. *)
Definition select_window (scored : list (Z * float)) : Z * float :=
  fold_left (fun sel '(window, rsq) => select_step window rsq sel) scored (0, 0%float).

(** The penalized score of one candidate window. *)
Definition penalized_rsq (data : data_store) (locations : list location)
    (groups : list group) (val_period : period) (mode model_type : string)
    (window : Z) : W float :=
  c ← validate data locations groups val_period 0 window 0 window mode model_type;
  predictions ← pure_call (vstack_squeeze (flatten_double_list (predictions c)));
  ground_truth ← pure_call (vstack_squeeze (flatten_double_list (ground_truth c)));
  r2 ← pure_call (r2_score (Vec ground_truth) (Vec predictions));
  mret (r2 - PENALTY * float_of_int window)%float.

(** The cross-validation loop of [predict]. *)
Definition sweep (data : data_store) (locations : list location) (groups : list group)
    (val_period : period) (mode model_type : string) (max_window : Z) : W (Z * float) :=
  foreach (range 0 (max_window + 1)) (fun window sel =>
    rsq ← penalized_rsq data locations groups val_period mode model_type window;
    mret (select_step window rsq sel)) (0, 0%float).

Definition predict_cell (data : data_store) (models : triple) (epiweek : epiweek)
    (opt_window : Z) (l_idx : nat) (location : location) (g_idx : nat) (group : group)
    (cur : list (list (list ndarray)) * list (list (list ndarray)) * list (list (list ndarray)))
  : W (list (list (list ndarray)) * list (list (list ndarray)) * list (list (list ndarray))) :=
  let '(model_upper, model, model_lower) := models in
  let '(cur_preds, cur_preds_upper, cur_preds_lower) := cur in
  '(X_pred, _, _) ← call (EvFetch location group epiweek 0 opt_window 0 opt_window)
                         (fetch data location group epiweek 0 opt_window 0 opt_window);
  pred_u ← call (EvPredict Upper X_pred) (est_predict model_upper X_pred);
  pred ← call (EvPredict Mid X_pred) (est_predict model X_pred);
  pred_l ← call (EvPredict Lower X_pred) (est_predict model_lower X_pred);
  cur_preds ← pure_call (grid_append cur_preds l_idx g_idx pred);
  cur_preds_upper ← pure_call (grid_append cur_preds_upper l_idx g_idx pred_u);
  cur_preds_lower ← pure_call (grid_append cur_preds_lower l_idx g_idx pred_l);
  mret (cur_preds, cur_preds_upper, cur_preds_lower).

(** [grid[l][g][0][0]] *)
Definition first_scalar (grid : list (list (list ndarray))) (l g : nat) : res float :=
  match grid_get grid l g with
  | Err e => Err e
  | Ok cell =>
      match index cell 0 with
      | Err e => Err e
      | Ok a => index a 0
      end
  end.

Abbreviation pred_map := (gmap (location * group) float).

Definition assign_cell
    (cur : list (list (list ndarray)) * list (list (list ndarray)) * list (list (list ndarray)))
    (l_idx : nat) (location : location) (g_idx : nat) (group : group)
    (out : pred_map * pred_map * pred_map) : W (pred_map * pred_map * pred_map) :=
  let '(cur_preds, cur_preds_upper, cur_preds_lower) := cur in
  let '(preds, preds_upper, preds_lower) := out in
  p ← pure_call (first_scalar cur_preds l_idx g_idx);
  let preds := <[(location, group) := p]> preds in
  pu ← pure_call (first_scalar cur_preds_upper l_idx g_idx);
  let preds_upper := <[(location, group) := pu]> preds_upper in
  pl ← pure_call (first_scalar cur_preds_lower l_idx g_idx);
  let preds_lower := <[(location, group) := pl]> preds_lower in
  mret (preds, preds_upper, preds_lower).

(** The prediction loop of [predict] at the target epiweek. *)
Definition predict_cells (data : data_store) (models : triple) (epiweek : epiweek)
    (opt_window : Z) (locations : list location) (groups : list group)
  : W (list (list (list ndarray)) * list (list (list ndarray)) * list (list (list ndarray))) :=
  let empty := create_double_list [] (length locations) (length groups) in
  foreach (enumerate locations) (fun '(l_idx, location) =>
    foreach (enumerate groups) (fun '(g_idx, group) =>
      predict_cell data models epiweek opt_window l_idx location g_idx group))
    (empty, empty, empty).

(** The last loop of [predict]: the scalars go into the three mappings. *)
Definition assign_cells
    (cur : list (list (list ndarray)) * list (list (list ndarray)) * list (list (list ndarray)))
    (locations : list location) (groups : list group)
    (out : pred_map * pred_map * pred_map) : W (pred_map * pred_map * pred_map) :=
  foreach (enumerate locations) (fun '(l_idx, location) =>
    foreach (enumerate groups) (fun '(g_idx, group) =>
      assign_cell cur l_idx location g_idx group)) out.

(** The body of the two outer loops of [predict], for one choice of
    [locations] and [groups]. *)
Definition predict_block (data : data_store) (epiweek : epiweek) (val_period : period)
    (max_window : Z) (mode model_type : string)
    (locations : list location) (groups : list group)
    (out : pred_map * pred_map * pred_map) : W (pred_map * pred_map * pred_map) :=
  '(opt_window, _) ← sweep data locations groups val_period mode model_type max_window;
  '(X, Y) ← call (EvPrepare locations groups [val_period] 0 opt_window 0 opt_window)
                 (prepare data locations groups [val_period] 0 opt_window 0 opt_window);
  models ← train_model X Y model_type;
  cur ← predict_cells data models epiweek opt_window locations groups;
  assign_cells cur locations groups out.

Definition predict (data : data_store) (epiweek : epiweek)
    (location_groups : list (list location)) (groupings : list (list group))
    (max_window : Z) (mode model_type : string) : W (pred_map * pred_map * pred_map) :=
  let start_year := get_start_year epiweek in
  let max_window := Z.min max_window (get_max_window epiweek) in
  let val_period := get_period (start_year - 1) 40 17 in
  foreach (enumerate location_groups) (fun '(lg_idx, locations) =>
    foreach (enumerate groupings) (fun '(gp_idx, groups) =>
      predict_block data epiweek val_period max_window mode model_type locations groups))
    (∅, ∅, ∅).

End Pipeline.

(** ** The store of numpy matrices

    [run_nowcast_experiment] writes cells of numpy matrices in place, so
    a matrix is an object of a store and a variable holds a reference. *)

Abbreviation ref := nat.
Abbreviation store := (list (list (list float))).

Record HR (A : Type) := MkHR {
  h_trace : list event;
  h_store : store;
  h_outcome : res A
}.
Arguments MkHR {A} h_trace h_store h_outcome.
Arguments h_trace {A} h.
Arguments h_store {A} h.
Arguments h_outcome {A} h.

(** A computation over the store; the store survives an exception. *)
Record H (A : Type) := MkH { run : store -> HR A }.
Arguments MkH {A} run.
Arguments run {A} h σ.

Definition H_ret {A} (a : A) : H A := MkH (fun σ => MkHR [] σ (Ok a)).

Definition H_bind {A B} (f : A -> H B) (m : H A) : H B :=
  MkH (fun σ =>
    let r := run m σ in
    match h_outcome r with
    | Ok a =>
        let r' := run (f a) (h_store r) in
        MkHR (h_trace r ++ h_trace r') (h_store r') (h_outcome r')
    | Err e => MkHR (h_trace r) (h_store r) (Err e)
    end).

#[global] Instance H_mret : MRet H := @H_ret.
#[global] Instance H_mbind : MBind H := @H_bind.

(** A computation that does not touch the store. *)
Definition lift {A} (m : W A) : H A := MkH (fun σ => MkHR (trace m) σ (outcome m)).

Fixpoint h_foreach {A S} (xs : list A) (body : A -> S -> H S) (s : S) : H S :=
  match xs with
  | [] => mret s
  | x :: xs' => s' ← body x s; h_foreach xs' body s'
  end.

Fixpoint h_replicate {A} (n : nat) (m : H A) : H (list A) :=
  match n with
  | O => mret []
  | S n' => x ← m; xs ← h_replicate n' m; mret (x :: xs)
  end.

(** A new object holding [m]; its reference is fresh. *)
Definition alloc (m : matrix) : H ref :=
  MkH (fun σ => MkHR [] (σ ++ [m]) (Ok (length σ))).

Definition deref (r : ref) : H matrix :=
  MkH (fun σ => MkHR [] σ (match σ !! r with
                          | Some m => Ok m
                          | None => Err (Raised "dangling reference")
                          end)).

(** A numpy index: a negative index counts from the end. *)
Definition np_index (i : Z) (len : nat) : res nat :=
  if (0 <=? i) && (i <? Z.of_nat len) then Ok (Z.to_nat i)
  else if (- Z.of_nat len <=? i) && (i <? 0) then Ok (Z.to_nat (Z.of_nat len + i))
  else Err IndexError.

(** [m[i][j] = v] on a matrix value. *)
Definition mat_set (m : matrix) (i j : Z) (v : float) : res matrix :=
  match np_index i (length m) with
  | Err e => Err e
  | Ok i' =>
      match m !! i' with
      | None => Err IndexError
      | Some row =>
          match np_index j (length row) with
          | Err e => Err e
          | Ok j' => Ok (<[i' := <[j' := v]> row]> m)
          end
      end
  end.

(** [r[i][j] = v]: the object behind [r] is updated in place. A cell of a
    float matrix does not take [None]. *)
Definition mat_write (r : ref) (i j : Z) (v : option float) : H unit :=
  MkH (fun σ =>
    match v with
    | None => MkHR [] σ (Err TypeError)
    | Some x =>
        match σ !! r with
        | None => MkHR [] σ (Err (Raised "dangling reference"))
        | Some m =>
            match mat_set m i j x with
            | Err e => MkHR [] σ (Err e)
            | Ok m' => MkHR [] (<[r := m']> σ) (Ok tt)
            end
        end
    end).

(** [np.full((n, n), v)] *)
Definition np_full (n : Z) (v : float) : H ref :=
  if n <? 0 then lift (raise ValueError)
  else alloc (replicate (Z.to_nat n) (replicate (Z.to_nat n) v)).

(** A copy of the object behind [r], as a new object. *)
Definition copy (r : ref) : H ref := m ← deref r; alloc m.

(** Modelled from the spec: [tools.create_double_list] is not part of the
    sources at hand. Applied to a matrix object it builds a [length] by
    [width] grid of copies of the template: every cell is a new object
    with the template's contents. *)
Definition create_double_list_ref (template : ref) (length width : nat)
  : H (list (list ref)) :=
  h_replicate length (h_replicate width (copy template)).

(** [np.maximum]: a NaN operand is returned. *)
Definition np_maximum (a b : float) : float :=
  if PrimFloat.is_nan a then a
  else if PrimFloat.is_nan b then b
  else if PrimFloat.ltb a b then b else a.

(** [np.amax(m)] over all cells; an empty matrix has no maximum. *)
Definition amax (m : matrix) : res float :=
  match concat m with
  | [] => Err ValueError
  | x :: xs => Ok (fold_left np_maximum xs x)
  end.

(** [str(period)] of a pair of integers. *)
Definition str_period (p : period) : string :=
  "(" +:+ str (fst p) +:+ ", " +:+ str (snd p) +:+ ")".

Section Experiment.
Context {obs E : Type}.
Context `{Constants, HospUtils, Preparation obs, MlUtils E, Metrics, Numpy, Sink}.

Abbreviation data_store := (gmap key obs).
Abbreviation summary := (gmap (period * group) float).

(** The two assignments of the innermost recording loop. *)
Definition record_cell (mse_results rsq_results : list (list ref)) (window backfill : Z)
    (rsq mse : list (list (option float))) (l_idx g_idx : nat) : H unit :=
  v ← lift (pure_call (grid_get mse l_idx g_idx));
  r ← lift (pure_call (grid_get mse_results l_idx g_idx));
  mat_write r window backfill v;;
  v ← lift (pure_call (grid_get rsq l_idx g_idx));
  r ← lift (pure_call (grid_get rsq_results l_idx g_idx));
  mat_write r window backfill v.

(** One report and the recording of its metrics. *)
Definition record_report (report_path : string) (data : data_store)
    (locations : list location) (groups : list group) (period : period)
    (mode model_type : string) (mse_results rsq_results : list (list ref))
    (window backfill : Z) : H unit :=
  '(rsq, mse) ← lift (nowcast_report report_path data locations groups period
                                     window backfill mode model_type);
  h_foreach (seq 0 (length locations)) (fun l_idx _ =>
    h_foreach (seq 0 (length groups)) (fun g_idx _ =>
      record_cell mse_results rsq_results window backfill rsq mse l_idx g_idx) tt) tt.

(** The loops over [window] and [backfill] ([tqdm] only shows progress). *)
Definition record_sweep (report_path : string) (data : data_store)
    (locations : list location) (groups : list group) (period : period)
    (max_window : Z) (mode model_type : string)
    (mse_results rsq_results : list (list ref)) : H unit :=
  h_foreach (range 0 (max_window + 1)) (fun window _ =>
    h_foreach (range 0 (window + 1)) (fun backfill _ =>
      record_report report_path data locations groups period mode model_type
                    mse_results rsq_results window backfill) tt) tt.

(** The heatmaps of one location and group, and its entry of the summary. *)
Definition summarize_cell (report_path : string) (period : period)
    (mse_results rsq_results : list (list ref))
    (l_idx : nat) (location : location) (g_idx : nat) (group : group)
    (results : summary) : H summary :=
  r ← lift (pure_call (grid_get mse_results l_idx g_idx));
  m ← deref r;
  lift (plot_results report_path m "mse" location group "Reds");;
  r ← lift (pure_call (grid_get rsq_results l_idx g_idx));
  m ← deref r;
  lift (plot_results report_path m "rsq" location group "Blues");;
  r ← lift (pure_call (grid_get rsq_results l_idx g_idx));
  m ← deref r;
  best ← lift (pure_call (amax m));
  mret (<[(period, group) := best]> results).

Definition summarize (report_path : string) (period : period)
    (locations : list location) (groups : list group)
    (mse_results rsq_results : list (list ref)) (results : summary) : H summary :=
  h_foreach (enumerate locations) (fun '(l_idx, location) =>
    h_foreach (enumerate groups) (fun '(g_idx, group) =>
      summarize_cell report_path period mse_results rsq_results
                     l_idx location g_idx group)) results.

(** The body of the loops over [location_groups] and [groupings]. *)
Definition experiment_block (report_path : string) (data : data_store) (period : period)
    (max_window : Z) (mode model_type : string) (mse_record_mat rsq_record_mat : ref)
    (locations : list location) (groups : list group) (results : summary) : H summary :=
  mse_results ← create_double_list_ref mse_record_mat (length locations) (length groups);
  rsq_results ← create_double_list_ref rsq_record_mat (length locations) (length groups);
  record_sweep report_path data locations groups period max_window mode model_type
               mse_results rsq_results;;
  summarize report_path period locations groups mse_results rsq_results results.

(** [if not os.path.exists(p): os.makedirs(p)], one call of the sink. *)
Definition ensure_dir (path : string) : H unit := lift (emit (EvMakedirs path)).

Definition experiment_period (data : data_store)
    (location_groups : list (list location)) (groupings : list (list group))
    (max_window : Z) (mode model_type : string) (mse_record_mat rsq_record_mat : ref)
    (period : period) (results : summary) : H summary :=
  let report_path := "./nowcast/" +:+ str_period period in
  ensure_dir report_path;;
  h_foreach STATE_LIST (fun state _ => ensure_dir (report_path +:+ "/" +:+ state)) tt;;
  h_foreach location_groups (fun locations =>
    h_foreach groupings (fun groups =>
      experiment_block report_path data period max_window mode model_type
                       mse_record_mat rsq_record_mat locations groups)) results.

Definition run_nowcast_experiment (data : data_store)
    (location_groups : list (list location)) (groupings : list (list group))
    (time_periods : list period) (max_window : Z) (mode model_type : string) : H unit :=
  mse_record_mat ← np_full (max_window + 1) neg_infinity;
  rsq_record_mat ← np_full (max_window + 1) neg_infinity;
  results ← h_foreach time_periods
              (experiment_period data location_groups groupings max_window mode model_type
                                 mse_record_mat rsq_record_mat) ∅;
  lift (emit (EvWriteData "./nowcast/results.txt" results)).

End Experiment.

(** ** A small concrete world

    Concrete collaborators on which the pipeline runs: observations are
    pairs of the current and the final value, the estimators predict the
    current value, the metrics are the textbook formulas and the plot
    sink checks that every series has one point per tick. *)

Module Toy.

Definition obs := (float * float)%type.

#[export] Instance toy_constants : Constants := {|
  FIRST_YEAR := 2017;
  YEAR_WINDOW := 3;
  UPPER_QUANT := 0.9%float;
  MID_QUANT := 0.5%float;
  LOWER_QUANT := 0.1%float;
  PENALTY := 0.04%float;
  STATE_LIST := ["A"; "B"];
  GROUP_DESCRIPTIONS := {[ 0 := "Overall" ]}
|}.

(** Epiweeks are [year * 100 + week]; a season starts in week 40. *)
Definition toy_unravel (p : period) : list epiweek :=
  let '(first, last) := p in
  if first / 100 =? last / 100 then range first (last + 1)
  else range first ((first / 100) * 100 + 53) ++ range ((last / 100) * 100 + 1) (last + 1).

#[export] Instance toy_hosp_utils : HospUtils := {|
  get_start_year e := if 40 <=? e `mod` 100 then e / 100 else e / 100 - 1;
  unravel := toy_unravel;
  get_period year first_week last_week := (year * 100 + first_week, (year + 1) * 100 + last_week);
  get_max_window e := if 40 <=? e `mod` 100 then e `mod` 100 - 40 else e `mod` 100 + 12
|}.

Definition toy_rows (data : gmap key obs) (locations : list location) (groups : list group)
    (periods : list period) : list (float * float) :=
  p ← periods; e ← toy_unravel p; l ← locations; g ← groups;
  match data !! (e, g, l) with
  | Some o => [o]
  | None => []
  end.

#[export] Instance toy_preparation : Preparation obs := {|
  prepare data locations groups periods _ _ _ _ :=
    let rows := toy_rows data locations groups periods in
    Ok ((fun o => [fst o]) <$> rows, snd <$> rows);
  fetch data location group e _ _ _ _ :=
    match data !! (e, group, location) with
    | Some (cur, final) => Ok ([cur], [cur], [final])
    | None => Err KeyError
    end
|}.

(** An estimator is its quantile; every estimator predicts the features. *)
#[export] Instance toy_ml_utils : MlUtils float := {|
  est_new _ q := Ok q;
  est_fit e _ _ := Ok e;
  est_cofit _ u m l _ _ := Ok (u, m, l);
  est_predict _ x := Ok x
|}.

Definition flat (a : arraylike) : ndarray :=
  match a with
  | Vec v => v
  | Seq xs => concat xs
  end.

Definition fsum (xs : list float) : float := fold_left PrimFloat.add xs 0%float.

Definition sq_diffs (xs ys : list float) : list float :=
  (fun '(x, y) => (x - y) * (x - y))%float <$> zip xs ys.

Definition toy_r2 (y_true y_pred : arraylike) : res float :=
  let t := flat y_true in
  let p := flat y_pred in
  if negb (length t =? length p)%nat || (length t =? 0)%nat then Err ValueError
  else
    let mean := (fsum t / float_of_int (Z.of_nat (length t)))%float in
    Ok (1 - fsum (sq_diffs t p) / fsum (sq_diffs t (replicate (length t) mean)))%float.

Definition toy_mse (y_true y_pred : arraylike) : res float :=
  let t := flat y_true in
  let p := flat y_pred in
  if negb (length t =? length p)%nat || (length t =? 0)%nat then Err ValueError
  else Ok (fsum (sq_diffs t p) / float_of_int (Z.of_nat (length t)))%float.

#[export] Instance toy_metrics : Metrics := {|
  r2_score := toy_r2;
  mean_squared_error := toy_mse
|}.

#[export] Instance toy_numpy : Numpy := {|
  vstack_squeeze cells :=
    match cells with
    | [] => Err ValueError
    | _ => Ok (concat (concat cells))
    end
|}.

#[export] Instance toy_sink : Sink := {|
  sink ev :=
    match ev with
    | EvPlot _ inds _ series =>
        if forallb (fun s => (length s =? inds)%nat) series then Ok tt else Err ValueError
    | _ => Ok tt
    end
|}.

(** Two weeks of season 2017, one age group. In location "A" the final value
    equals the current value; in location "B" it does not. *)
Definition weeks : period := (201740, 201741).

Definition data_ab : gmap key obs :=
  {[ (201740, 0, "A") := (1%float, 1%float);
     (201741, 0, "A") := (3%float, 3%float);
     (201740, 0, "B") := (2%float, 1%float);
     (201741, 0, "B") := (2%float, 3%float) ]}.

(** Location "C" has no observation at all. *)
Definition data_a : gmap key obs :=
  {[ (201740, 0, "A") := (1%float, 1%float);
     (201741, 0, "A") := (3%float, 3%float) ]}.

(** Two weeks of season 2016 and the week 201741 of location "A". *)
Definition data_season : gmap key obs :=
  {[ (201640, 0, "A") := (1%float, 1%float);
     (201641, 0, "A") := (3%float, 3%float);
     (201741, 0, "A") := (5%float, 5%float) ]}.

(** The matrix that [np.full] builds for [max_window = 0]. *)
Definition full1 : list (list float) := [[neg_infinity]].

(** What [validate] returns on [data_ab] for the locations "A" and "B". *)
Definition validated_ab : collectors := {|
  valid_weeks := [201740; 201741];
  predictions := [[[[1%float]; [3%float]]]; [[[2%float]; [2%float]]]];
  predictions_lower := [[[[1%float]; [3%float]]]; [[[2%float]; [2%float]]]];
  predictions_upper := [[[[1%float]; [3%float]]]; [[[2%float]; [2%float]]]];
  cur_truth := [[[[1%float]; [3%float]]]; [[[2%float]; [2%float]]]];
  ground_truth := [[[[1%float]; [3%float]]]; [[[1%float]; [3%float]]]]
|}.

(** What [validate] returns on [data_a] for the locations "C" and "A". *)
Definition validated_ca : collectors := {|
  valid_weeks := [201740; 201741];
  predictions := [[[]]; [[[1%float]; [3%float]]]];
  predictions_lower := [[[]]; [[[1%float]; [3%float]]]];
  predictions_upper := [[[]]; [[[1%float]; [3%float]]]];
  cur_truth := [[[]]; [[[1%float]; [3%float]]]];
  ground_truth := [[[]]; [[[1%float]; [3%float]]]]
|}.

(** What [predict] returns on [data_season] for the epiweek 201741. *)
Definition predicted : gmap (location * group) float * gmap (location * group) float
                       * gmap (location * group) float :=
  ({[ ("A", 0) := 5%float ]}, {[ ("A", 0) := 5%float ]}, {[ ("A", 0) := 5%float ]}).

End Toy.

(** ** Notions used in the statements *)

(** The cell [grid[l][g]], when it exists. *)
Definition cell_at {A} (grid : list (list A)) (l g : nat) : option A :=
  row ← grid !! l; row !! g.

(** The epiweeks of [weeks] for which the data store has an observation of
    [group] at [location], in order and with repetitions. *)
Definition present_weeks {obs} (data : gmap key obs) (location : location) (group : group)
    (weeks : list epiweek) : list epiweek :=
  filter (fun e => is_Some (data !! (e, group, location))) weeks.

(** 1 when the pair of indices [(l, g)] has an observation at epiweek [e]. *)
Definition hit {obs} (data : gmap key obs) (locations : list location)
    (groups : list group) (e : epiweek) (l g : nat) : nat :=
  match locations !! l, groups !! g with
  | Some location, Some group =>
      match data !! (e, group, location) with Some _ => 1%nat | None => 0%nat end
  | _, _ => 0%nat
  end.

(** Every cell of [g0] is a cell of [g1], longer by [k l g] entries. *)
Definition grew {A} (k : nat -> nat -> nat) (g0 g1 : list (list (list A))) : Prop :=
  forall l g cell, cell_at g0 l g = Some cell ->
    exists cell', cell_at g1 l g = Some cell' /\ length cell' = (length cell + k l g)%nat.

(** The number of epiweeks of [weeks] at which the pair [(l, g)] has an
    observation. *)
Definition hits {obs} (data : gmap key obs) (locations : list location)
    (groups : list group) (weeks : list epiweek) (l g : nat) : nat :=
  sum_list ((fun e => hit data locations groups e l g) <$> weeks).

Definition is_prepare (ev : event) : bool :=
  match ev with EvPrepare _ _ _ _ _ _ _ => true | _ => false end.

Definition is_fetch (ev : event) : bool :=
  match ev with EvFetch _ _ _ _ _ _ _ => true | _ => false end.

Definition is_plot (ev : event) : bool :=
  match ev with EvPlot _ _ _ _ => true | _ => false end.

(** The calls of a trace that satisfy [p], in order. *)
Definition calls (p : event -> bool) (t : list event) : list event := List.filter p t.

(** A computation that makes no call satisfying [p]. *)
Definition silent (p : event -> bool) {A} (m : W A) : Prop := calls p (trace m) = [].

(** The three mappings of [predict] all have the key [k]. *)
Definition covers (out : gmap (location * group) float * gmap (location * group) float
                         * gmap (location * group) float) (k : location * group) : Prop :=
  is_Some (out.1.1 !! k) /\ is_Some (out.1.2 !! k) /\ is_Some (out.2 !! k).

(** No key of the three mappings [a] is missing from [b]. *)
Definition keeps (a b : gmap (location * group) float * gmap (location * group) float
                        * gmap (location * group) float) : Prop :=
  forall k, covers a k -> covers b k.

(** A Hoare triple over the store: from a store satisfying [P], the
    computation ends in a store satisfying [Q a] when it returns [a] and
    [QE] when it raises. *)
Definition hoare {A} (P : store -> Prop) (m : H A) (Q : A -> store -> Prop)
    (QE : store -> Prop) : Prop :=
  forall σ, P σ ->
    match h_outcome (run m σ) with
    | Ok a => Q a (h_store (run m σ))
    | Err _ => QE (h_store (run m σ))
    end.

(** The cell [(i, j)] of the matrix behind [r]. *)
Definition cellv (σ : store) (r : ref) (i j : nat) : option float :=
  m ← σ !! r; row ← m !! i; row !! j.

(** An [n] by [n] matrix. *)
Definition square (n : nat) (m : matrix) : Prop :=
  length m = n /\ forall i row, m !! i = Some row -> length row = n.

(** Every cell [(i, j)] with [j > i] holds the sentinel. *)
Definition triangular (m : matrix) : Prop :=
  forall i j row v, m !! i = Some row -> row !! j = Some v -> (i < j)%nat ->
                    v = neg_infinity.

(** The objects allocated from reference [n0] on are [n] by [n] matrices
    whose cells above the diagonal hold the sentinel. *)
Definition metric_store (n0 n : nat) (σ : store) : Prop :=
  (n0 <= length σ)%nat /\
  forall r m, (n0 <= r)%nat -> σ !! r = Some m -> square n m /\ triangular m.

(** The type of the results summary of [run_nowcast_experiment]. *)
Abbreviation summary_map := (gmap (period * group) float).

(** The references of a grid of [length] by [width] objects allocated one
    after the other from reference [base] on. *)
Definition grid_refs (base length width : nat) : list (list ref) :=
  (fun l => (fun g => (base + l * width + g)%nat) <$> seq 0 width) <$> seq 0 length.

(** The store [σ] agrees with [σ1] on every object but those of [S]. *)
Definition same_outside (S : ref -> Prop) (σ1 σ : store) : Prop :=
  length σ = length σ1 /\ forall r, ~ S r -> σ !! r = σ1 !! r.

(** The store [σ] agrees with [σ1] on every cell of every matrix but the
    cells [(i0, j0)]. *)
Definition same_cells_but (i0 j0 : nat) (σ1 σ : store) : Prop :=
  forall r i j, (i, j) <> (i0, j0) -> cellv σ r i j = cellv σ1 r i j.

(** The R-squared that the report of [(window, backfill)] returns for the
    pair of indices [(l, g)]; the sentinel when there is none. *)
Definition reported_rsq {obs E : Type}
    `{Constants, HospUtils, Preparation obs, MlUtils E, Metrics, Numpy, Sink}
    (report_path : string) (data : gmap key obs) (locations : list location)
    (groups : list group) (time_period : period) (mode model_type : string)
    (l g : nat) (window backfill : nat) : float :=
  match outcome (nowcast_report report_path data locations groups time_period
                                (Z.of_nat window) (Z.of_nat backfill) mode model_type) with
  | Ok (rsq, _) =>
      match grid_get rsq l g with
      | Ok (Some v) => v
      | _ => neg_infinity
      end
  | Err _ => neg_infinity
  end.

(** The [n] by [n] matrix with [f window backfill] on and below the
    diagonal and the sentinel above it. *)
Definition triangle_matrix (n : nat) (f : nat -> nat -> float) : matrix :=
  (fun i => (fun j => if (j <=? i)%nat then f i j else neg_infinity) <$> seq 0 n) <$> seq 0 n.

(** The cells recorded so far when the sweep is at window [k], backfill
    [k'], location index [a] and group index [a']. *)
Definition visited (k k' a a' : nat) (i j l g : nat) : Prop :=
  (i < k /\ j <= i)%nat \/ (i = k /\ j < k')%nat \/
  (i = k /\ j = k' /\ (l < a \/ (l = a /\ g < a')))%nat.

(** The matrices behind the references [refs l g], of side [n], hold
    [f l g i j] in the cells selected by [V] and the sentinel elsewhere. *)
Definition content (refs : nat -> nat -> ref) (nl ng n : nat)
    (f : nat -> nat -> nat -> nat -> float) (V : nat -> nat -> nat -> nat -> Prop)
    (σ : store) : Prop :=
  forall l g i j, (l < nl)%nat -> (g < ng)%nat -> (i < n)%nat -> (j < n)%nat ->
    (V i j l g -> cellv σ (refs l g) i j = Some (f l g i j)) /\
    (~ V i j l g -> cellv σ (refs l g) i j = Some neg_infinity).

(** A [fetch] call for an observation that the data store holds, for a
    location, a group and an epiweek of the validation, with the
    validation's own lag and windows. Other calls are not constrained. *)
Definition fetch_of {obs} (data : gmap key obs) (locations : list location)
    (groups : list group) (weeks : list epiweek)
    (lag left_window right_window backfill_window : Z) (ev : event) : Prop :=
  match ev with
  | EvFetch l g e lag' lw' rw' bw' =>
      is_Some (data !! (e, g, l)) /\ l ∈ locations /\ g ∈ groups /\ e ∈ weeks /\
      (lag', lw', rw', bw') = (lag, left_window, right_window, backfill_window)
  | _ => True
  end.

(** What [validate] records for one observation. *)
Record sample := MkSample {
  s_pred : ndarray;
  s_lower : ndarray;
  s_upper : ndarray;
  s_cur : ndarray;
  s_truth : ndarray
}.

(** The sample of the observation of [group] at [location] in epiweek [e]:
    what [fetch] returns and what the three models predict from it. *)
Definition sample_of {obs E : Type} `{Preparation obs, MlUtils E}
    (data : gmap key obs) (models : E * E * E)
    (lag left_window right_window backfill_window : Z)
    (location : location) (group : group) (e : epiweek) : option sample :=
  let '(model_upper, model, model_lower) := models in
  match fetch data location group e lag left_window right_window backfill_window with
  | Err _ => None
  | Ok (x_val, cur_y_val, y_val) =>
      match est_predict model x_val, est_predict model_upper x_val,
            est_predict model_lower x_val with
      | Ok pred, Ok pred_u, Ok pred_l => Some (MkSample pred pred_l pred_u cur_y_val y_val)
      | _, _, _ => None
      end
  end.

(** From [c0] to [c], the cell of every pair [(l, g)] of the five grids
    grew by the samples of the epiweeks [P l g], in order. *)
Definition tracked {obs E : Type} `{Preparation obs, MlUtils E}
    (data : gmap key obs) (models : E * E * E)
    (lag left_window right_window backfill_window : Z)
    (locations : list location) (groups : list group)
    (P : nat -> nat -> list epiweek) (c0 c : collectors) : Prop :=
  forall l g location group,
    locations !! l = Some location -> groups !! g = Some group ->
    exists samples,
      Forall2 (fun e s => sample_of data models lag left_window right_window backfill_window
                                    location group e = Some s) (P l g) samples /\
      (forall cell, cell_at (predictions c0) l g = Some cell ->
                    cell_at (predictions c) l g = Some (cell ++ (s_pred <$> samples))) /\
      (forall cell, cell_at (predictions_lower c0) l g = Some cell ->
                    cell_at (predictions_lower c) l g = Some (cell ++ (s_lower <$> samples))) /\
      (forall cell, cell_at (predictions_upper c0) l g = Some cell ->
                    cell_at (predictions_upper c) l g = Some (cell ++ (s_upper <$> samples))) /\
      (forall cell, cell_at (cur_truth c0) l g = Some cell ->
                    cell_at (cur_truth c) l g = Some (cell ++ (s_cur <$> samples))) /\
      (forall cell, cell_at (ground_truth c0) l g = Some cell ->
                    cell_at (ground_truth c) l g = Some (cell ++ (s_truth <$> samples))).

(** The epiweek [e] when the pair of indices [(l, g)] has an observation
    in it. *)
Definition week_hit {obs} (data : gmap key obs) (locations : list location)
    (groups : list group) (e : epiweek) (l g : nat) : list epiweek :=
  match locations !! l, groups !! g with
  | Some location, Some group =>
      match data !! (e, group, location) with Some _ => [e] | None => [] end
  | _, _ => []
  end.

(** The metric grids [acc] hold, for the pair of indices [(l, g)], the
    R-squared and the mean squared error of the predictions of the pair
    against its final values. *)
Definition scored `{Metrics} (c : collectors)
    (acc : list (list (option float)) * list (list (option float))) (l g : nat) : Prop :=
  exists truth preds r m,
    grid_get (ground_truth c) l g = Ok truth /\ grid_get (predictions c) l g = Ok preds /\
    r2_score (Seq truth) (Seq preds) = Ok r /\
    mean_squared_error (Seq truth) (Seq preds) = Ok m /\
    grid_get acc.1 l g = Ok (Some r) /\ grid_get acc.2 l g = Ok (Some m).

(** The three grids of the prediction loop of [predict] and its three
    result mappings. *)
Abbreviation grids :=
  (list (list (list ndarray)) * list (list (list ndarray)) * list (list (list ndarray)))%type.
Abbreviation pred_maps :=
  (gmap (location * group) float * gmap (location * group) float
   * gmap (location * group) float)%type.

(** What the three models predict for [group] at [location] from the
    features fetched at [epiweek] with the window [opt_window]: the
    predictions of the middle, the upper and the lower model. *)
Definition forecast_of {obs E : Type} `{Preparation obs, MlUtils E}
    (data : gmap key obs) (models : E * E * E) (epiweek : epiweek) (opt_window : Z)
    (location : location) (group : group) : option (ndarray * ndarray * ndarray) :=
  let '(model_upper, model, model_lower) := models in
  match fetch data location group epiweek 0 opt_window 0 opt_window with
  | Err _ => None
  | Ok (X_pred, _, _) =>
      match est_predict model X_pred, est_predict model_upper X_pred,
            est_predict model_lower X_pred with
      | Ok pred, Ok pred_u, Ok pred_l => Some (pred, pred_u, pred_l)
      | _, _, _ => None
      end
  end.

(** The cells of the pair of indices [(l, g)] are still empty. *)
Definition blank (cur : grids) (l g : nat) : Prop :=
  cell_at cur.1.1 l g = Some [] /\ cell_at cur.1.2 l g = Some [] /\
  cell_at cur.2 l g = Some [].

(** The cells of the pair of indices [(l, g)] start with the forecast of
    the pair. *)
Definition filled {obs E : Type} `{Preparation obs, MlUtils E}
    (data : gmap key obs) (models : E * E * E) (epiweek : epiweek) (opt_window : Z)
    (locations : list location) (groups : list group) (cur : grids) (l g : nat) : Prop :=
  exists location group pred pred_u pred_l r r_u r_l,
    locations !! l = Some location /\ groups !! g = Some group /\
    forecast_of data models epiweek opt_window location group
    = Some (pred, pred_u, pred_l) /\
    cell_at cur.1.1 l g = Some (pred :: r) /\ cell_at cur.1.2 l g = Some (pred_u :: r_u) /\
    cell_at cur.2 l g = Some (pred_l :: r_l).

(** The three mappings hold at the key [k] the first entries of the
    forecast of [k]. *)
Definition assigned {obs E : Type} `{Preparation obs, MlUtils E}
    (data : gmap key obs) (models : E * E * E) (epiweek : epiweek) (opt_window : Z)
    (out : pred_maps) (k : location * group) : Prop :=
  exists pred pred_u pred_l p pu pl,
    forecast_of data models epiweek opt_window k.1 k.2 = Some (pred, pred_u, pred_l) /\
    pred !! 0%nat = Some p /\ pred_u !! 0%nat = Some pu /\ pred_l !! 0%nat = Some pl /\
    out.1.1 !! k = Some p /\ out.1.2 !! k = Some pu /\ out.2 !! k = Some pl.

(** The three mappings [b] agree with [a] at the key [k]. *)
Definition same_at (a b : pred_maps) (k : location * group) : Prop :=
  b.1.1 !! k = a.1.1 !! k /\ b.1.2 !! k = a.1.2 !! k /\ b.2 !! k = a.2 !! k.

Definition is_write (ev : event) : bool :=
  match ev with EvWriteData _ _ => true | _ => false end.

(** A computation over the store that makes no call satisfying [p],
    from whatever store it starts. *)
Definition h_silent (p : event -> bool) {A} (m : H A) : Prop :=
  forall σ, calls p (h_trace (run m σ)) = [].

(** The figure of one location and group in a report: the call that
    plots the five series of the pair against the epiweeks [weeks], into
    the file named after the location, the group and the two windows. *)
Definition figure (path : string) (left_window backfill_window : Z) (weeks : list epiweek)
    (c : collectors) (x : (nat * location) * (nat * group)) (ev : event) : Prop :=
  exists preds upper lower cur truth,
    grid_get (predictions c) x.1.1 x.2.1 = Ok preds /\
    grid_get (predictions_upper c) x.1.1 x.2.1 = Ok upper /\
    grid_get (predictions_lower c) x.1.1 x.2.1 = Ok lower /\
    grid_get (cur_truth c) x.1.1 x.2.1 = Ok cur /\
    grid_get (ground_truth c) x.1.1 x.2.1 = Ok truth /\
    ev = EvPlot (path +:+ "/" +:+ x.1.2 +:+ "/" +:+ str x.2.2 +:+ "-" +:+
                 str left_window +:+ "-" +:+ str backfill_window +:+ ".png")
                (length weeks) ((fun epiweek => str (epiweek `mod` 100)) <$> weeks)
                [preds; upper; lower; cur; truth].

(** * Properties *)

(** ** The monad [W] *)

Lemma outcome_bind {A B} (m : W A) (f : A -> W B) :
  outcome (m ≫= f) = match outcome m with Ok a => outcome (f a) | Err e => Err e end.
Proof. unfold mbind, W_mbind, W_bind. destruct (outcome m); reflexivity. Qed.

Lemma trace_bind {A B} (m : W A) (f : A -> W B) :
  trace (m ≫= f) = trace m ++ match outcome m with Ok a => trace (f a) | Err _ => [] end.
Proof.
  unfold mbind, W_mbind, W_bind. destruct (outcome m); simpl; [reflexivity|].
  symmetry. apply app_nil_r.
Qed.

Lemma trace_nil_bind {A B} (m : W A) (f : A -> W B) :
  trace m = [] -> (forall a, trace (f a) = []) -> trace (m ≫= f) = [].
Proof.
  intros Hm Hf. rewrite trace_bind, Hm. destruct (outcome m); [apply Hf|reflexivity].
Qed.

Lemma bind_ok_inv {A B} (m : W A) (f : A -> W B) (b : B) :
  outcome (m ≫= f) = Ok b -> exists a, outcome m = Ok a /\ outcome (f a) = Ok b.
Proof. rewrite outcome_bind. destruct (outcome m) as [a|e]; [eauto | discriminate]. Qed.

Lemma bind_ok {A B} (m : W A) (f : A -> W B) (a : A) :
  outcome m = Ok a -> m ≫= f = MkW (trace m ++ trace (f a)) (outcome (f a)).
Proof. intros Hm. unfold mbind, W_mbind, W_bind. rewrite Hm. reflexivity. Qed.

Lemma bind_err {A B} (m : W A) (f : A -> W B) (e : exn) :
  outcome m = Err e -> m ≫= f = MkW (trace m) (Err e).
Proof. intros Hm. unfold mbind, W_mbind, W_bind. rewrite Hm. reflexivity. Qed.

(** Successive successful steps of a loop. *)
Lemma foreach_ok_ind {A St} (P : nat -> St -> Prop) (xs : list A) (body : A -> St -> W St)
    (s s' : St) :
  P 0%nat s ->
  (forall i x s1 s2, xs !! i = Some x -> P i s1 -> outcome (body x s1) = Ok s2 -> P (S i) s2) ->
  outcome (foreach xs body s) = Ok s' ->
  P (length xs) s'.
Proof.
  revert P s. induction xs as [|x xs IH]; intros P s H0 Hstep Hrun; simpl in *.
  - injection Hrun as <-. exact H0.
  - apply bind_ok_inv in Hrun as (s1 & Hx & Hrest).
    apply (IH (fun i => P (S i)) s1); [| |exact Hrest].
    + apply (Hstep 0%nat x s s1); [reflexivity|exact H0|exact Hx].
    + intros i y t1 t2 Hy Ht1 Hbody. apply (Hstep (S i) y t1 t2); assumption.
Qed.

Lemma enumerate_lookup {A} (xs : list A) (i j : nat) (x : A) :
  enumerate xs !! i = Some (j, x) <-> j = i /\ xs !! i = Some x.
Proof.
  unfold enumerate. rewrite lookup_zip_with_Some. split.
  - intros (a & b & [= -> ->] & Ha & Hb). apply lookup_seq in Ha as [-> _]. auto.
  - intros [-> Hx]. exists i, x. split; [reflexivity|]. split; [|exact Hx].
    apply lookup_seq. split; [reflexivity|]. eapply lookup_lt_Some; eassumption.
Qed.

Lemma length_enumerate {A} (xs : list A) : length (enumerate xs) = length xs.
Proof. unfold enumerate. rewrite length_zip_with, length_seq. lia. Qed.

(** The same for an enumerated loop. *)
Lemma foreach_enumerate_ind {A St} (P : nat -> St -> Prop) (xs : list A)
    (body : nat * A -> St -> W St) (s s' : St) :
  P 0%nat s ->
  (forall i x s1 s2, xs !! i = Some x -> P i s1 -> outcome (body (i, x) s1) = Ok s2 ->
                     P (S i) s2) ->
  outcome (foreach (enumerate xs) body s) = Ok s' ->
  P (length xs) s'.
Proof.
  intros H0 Hstep Hrun. rewrite <- length_enumerate.
  apply (foreach_ok_ind P (enumerate xs) body s s'); [exact H0| |exact Hrun].
  intros i [j x] s1 s2 Hix HP Hbody. apply enumerate_lookup in Hix as [-> Hx].
  eapply Hstep; eassumption.
Qed.

(** Binary64 comparison is irreflexive, also at NaN. *)
Lemma ltb_irrefl (x : float) : PrimFloat.ltb x x = false.
Proof.
  rewrite ltb_spec. unfold SFltb, SFcompare.
  destruct (Prim2SF x) as [sg|sg| |sg m e]; try (destruct sg; reflexivity); try reflexivity.
  destruct sg; rewrite Z.compare_refl;
    change (PosDef.Pos.compare_cont Eq m m) with (Pos.compare m m);
    rewrite Pos.compare_refl; reflexivity.
Qed.

Lemma select_window_snoc (scored : list (Z * float)) (window : Z) (rsq : float) :
  select_window (scored ++ [(window, rsq)]) = select_step window rsq (select_window scored).
Proof. unfold select_window. rewrite fold_left_app. reflexivity. Qed.

Lemma select_fold_none (scored : list (Z * float)) (opt : Z) (cur : float) :
  Forall (fun wr => PrimFloat.ltb cur (snd wr) = false) scored ->
  fold_left (fun sel '(window, rsq) => select_step window rsq sel) scored (opt, cur)
  = (opt, cur).
Proof.
  induction 1 as [|[w r] rest Hr _ IH]; simpl; [reflexivity|].
  simpl in Hr. rewrite Hr. exact IH.
Qed.

Section PipelineFacts.
Context {obs E : Type}.
Context `{Constants, HospUtils, Preparation obs, MlUtils E, Metrics, Numpy, Sink}.

(** The sweep of [predict] is the selection over the penalized scores of the
    candidate windows, in the order of the windows. *)
Lemma sweep_from (score : Z -> W float) (windows : list Z) (sel0 sel : Z * float) :
  outcome (foreach windows (fun window sel => rsq ← score window;
                                              mret (select_step window rsq sel)) sel0)
  = Ok sel ->
  exists scores,
    Forall2 (fun window rsq => outcome (score window) = Ok rsq) windows scores /\
    sel = fold_left (fun sel '(window, rsq) => select_step window rsq sel)
                    (zip windows scores) sel0.
Proof.
  revert sel0. induction windows as [|w ws IH]; intros sel0 Hrun; simpl in Hrun.
  - injection Hrun as <-. exists []. split; [constructor|reflexivity].
  - apply bind_ok_inv in Hrun as (s1 & Hw & Hrest).
    apply bind_ok_inv in Hw as (r & Hr & Hs1). injection Hs1 as <-.
    destruct (IH _ Hrest) as (scores & Hall & ->).
    exists (r :: scores). split; [constructor; assumption|reflexivity].
Qed.

(** C3: for every training input and every model-type tag outside the
    recognized set, [train_model] raises at once, before any estimator is
    constructed or fitted (the trace is empty), and returns no model: the
    read of the unassigned [model_upper] raises [UnboundLocalError]. *)
Theorem train_model_unknown_tag (X : matrix) (Y : ndarray) (model_type : string) :
  model_type ∉ ["lin"; "ridge"; "gbdt"; "quant_lin"; "quant_ridge"; "quant_gbdt"] ->
  train_model X Y model_type = MkW [] (Err (UnboundLocalError "model_upper")).
Proof.
  intros Hnot.
  repeat (apply not_elem_of_cons in Hnot as [? Hnot]).
  unfold train_model.
  repeat match goal with
         | Hne : model_type <> ?t |- _ =>
             apply String.eqb_neq in Hne; rewrite Hne; clear Hne
         end.
  reflexivity.
Qed.

(** C1: the sweep of [predict] scans the candidate windows in increasing
    order from a best score of 0.0 and window 0, and moves the selection
    to a candidate only when its penalized score is strictly greater than
    the best so far; a tie keeps the selection; when no score exceeds 0.0
    the selected window is 0; the scores 0.1, 0.05, 0.3, 0.25 of the
    windows 0, 1, 2, 3 select window 2. *)
Theorem predict_selection_rule (data : gmap key obs) (locations : list location)
    (groups : list group) (val_period : period) (mode model_type : string)
    (max_window : Z) :
  (forall sel,
     outcome (sweep data locations groups val_period mode model_type max_window) = Ok sel ->
     exists scores,
       Forall2 (fun window rsq =>
                  outcome (penalized_rsq data locations groups val_period mode model_type
                                         window) = Ok rsq)
               (range 0 (max_window + 1)) scores /\
       sel = select_window (zip (range 0 (max_window + 1)) scores)) /\
  (forall n, range 0 (Z.of_nat n) = Z.of_nat <$> seq 0 n) /\
  (forall scored window rsq,
     select_window (scored ++ [(window, rsq)]) =
     if PrimFloat.ltb (snd (select_window scored)) rsq then (window, rsq)
     else select_window scored) /\
  (forall scored window,
     select_window (scored ++ [(window, snd (select_window scored))]) =
     select_window scored) /\
  (forall scored,
     Forall (fun wr => PrimFloat.ltb 0 (snd wr) = false) scored ->
     select_window scored = (0, 0%float)) /\
  fst (select_window [(0, 0.1%float); (1, 0.05%float); (2, 0.3%float); (3, 0.25%float)]) = 2.
Proof.
  split; [|split; [|split; [|split; [|split]]]].
  - intros sel Hrun. unfold sweep in Hrun. apply sweep_from in Hrun as (scores & Hall & ->).
    exists scores. split; [exact Hall|reflexivity].
  - intros n. unfold range. rewrite Z.sub_0_r, Nat2Z.id. reflexivity.
  - intros scored window rsq. rewrite select_window_snoc.
    unfold select_step. destruct (select_window scored) as [opt cur]. reflexivity.
  - intros scored window. rewrite select_window_snoc.
    unfold select_step. destruct (select_window scored) as [opt cur]. simpl.
    rewrite ltb_irrefl. reflexivity.
  - intros scored Hall. apply select_fold_none. exact Hall.
  - vm_compute. reflexivity.
Qed.

(** A loop that succeeded ran each of its bodies with success. *)
Lemma foreach_ok_all {A St} (xs : list A) (body : A -> St -> W St) (s s' : St) :
  outcome (foreach xs body s) = Ok s' ->
  forall i x, xs !! i = Some x -> exists s1 s2, outcome (body x s1) = Ok s2.
Proof.
  revert s. induction xs as [|y xs IH]; intros s Hrun i x Hx; [discriminate|].
  simpl in Hrun. apply bind_ok_inv in Hrun as (s1 & Hy & Hrest).
  destruct i as [|i].
  - injection Hx as <-. eauto.
  - eapply IH; eassumption.
Qed.

(** C5, as the code has it: [validate] has no guard on the training
    periods. When they are empty (in mode "all", whenever the start year
    is at most [FIRST_YEAR]) it calls [prepare] on the empty list and runs
    [train_model] on whatever [prepare] returns; the only exceptions are
    those of [prepare] and of [train_model]. *)
Theorem validate_runs_on_empty_training (data : gmap key obs) (locations : list location)
    (groups : list group) (time_period : period)
    (lag left_window right_window backfill_window : Z) (mode model_type : string) :
  model_periods mode (get_start_year (fst time_period)) = [] ->
  let v := validate data locations groups time_period lag left_window right_window
                    backfill_window mode model_type in
  let ev := EvPrepare locations groups [] lag left_window right_window backfill_window in
  (forall start_year, start_year <= FIRST_YEAR -> model_periods "all" start_year = []) /\
  (forall e,
     prepare data locations groups [] lag left_window right_window backfill_window = Err e ->
     v = MkW [ev] (Err e)) /\
  (forall X Y,
     prepare data locations groups [] lag left_window right_window backfill_window
     = Ok (X, Y) ->
     exists rest,
       trace v = ev :: trace (train_model X Y model_type) ++ rest /\
       forall e, outcome (train_model X Y model_type) = Err e ->
                 outcome v = Err e /\ rest = []).
Proof.
  intros Hempty v ev. split; [|split].
  - intros start_year Hle. unfold model_periods. simpl. unfold range.
    replace (Z.to_nat (start_year - FIRST_YEAR)) with 0%nat by lia. reflexivity.
  - intros e He. subst v ev. unfold validate. rewrite Hempty.
    erewrite bind_err; [reflexivity|]. simpl. exact He.
  - intros X Y Hp. subst v ev. unfold validate. rewrite Hempty.
    erewrite bind_ok; [|simpl; exact Hp]. simpl.
    destruct (outcome (train_model X Y model_type)) as [models|e] eqn:Htm.
    + erewrite bind_ok; [|exact Htm]. simpl. eexists. split; [reflexivity|].
      intros e' [=].
    + erewrite bind_err; [|exact Htm]. simpl. exists []. split.
      * rewrite app_nil_r. reflexivity.
      * intros e' [= <-]. split; reflexivity.
Qed.

Lemma is_ok_false {A} (r : res A) : is_ok r = false <-> exists e, r = Err e.
Proof. destruct r; simpl; split; try discriminate; eauto. intros [? [=]]. Qed.

(** A cell of [nowcast_report] that succeeded computed both metrics. *)
Lemma nowcast_report_cell_ok (path : string) (left_window backfill_window : Z)
    (c : collectors) (l_idx : nat) (location : location) (g_idx : nat) (group : group)
    (acc acc' : list (list (option float)) * list (list (option float)))
    (truth preds : list ndarray) :
  grid_get (ground_truth c) l_idx g_idx = Ok truth ->
  grid_get (predictions c) l_idx g_idx = Ok preds ->
  outcome (nowcast_report_cell path left_window backfill_window c
                               l_idx location g_idx group acc) = Ok acc' ->
  exists r m, r2_score (Seq truth) (Seq preds) = Ok r /\
              mean_squared_error (Seq truth) (Seq preds) = Ok m /\
              grid_get (fst acc') l_idx g_idx = Ok (Some r) /\
              grid_get (snd acc') l_idx g_idx = Ok (Some m).
Proof.
  intros Ht Hp Hrun. destruct acc as [rsq mse]. unfold nowcast_report_cell in Hrun.
  apply bind_ok_inv in Hrun as (t & Ht' & Hrun). simpl in Ht'. rewrite Ht in Ht'.
  injection Ht' as <-.
  apply bind_ok_inv in Hrun as (p & Hp' & Hrun). simpl in Hp'. rewrite Hp in Hp'.
  injection Hp' as <-.
  apply bind_ok_inv in Hrun as (r & Hr & Hrun).
  apply bind_ok_inv in Hrun as (rsq' & Hrsq & Hrun).
  apply bind_ok_inv in Hrun as (m & Hm & Hrun).
  apply bind_ok_inv in Hrun as (mse' & Hmse & Hrun).
  apply bind_ok_inv in Hrun as (u & _ & Hrun).
  apply bind_ok_inv in Hrun as (l & _ & Hrun).
  apply bind_ok_inv in Hrun as (cu & _ & Hrun).
  apply bind_ok_inv in Hrun as (? & _ & Hrun).
  injection Hrun as <-. simpl in *.
  exists r, m. repeat split; try assumption.
  - unfold grid_set in Hrsq. unfold grid_get.
    destruct (rsq !! l_idx) as [row|] eqn:Hrow; [|discriminate].
    destruct (row !! g_idx) as [old|] eqn:Hold; [|discriminate].
    injection Hrsq as <-.
    rewrite list_lookup_insert_eq by (eapply lookup_lt_Some; eassumption).
    rewrite list_lookup_insert_eq by (eapply lookup_lt_Some; eassumption).
    reflexivity.
  - unfold grid_set in Hmse. unfold grid_get.
    destruct (mse !! l_idx) as [row|] eqn:Hrow; [|discriminate].
    destruct (row !! g_idx) as [old|] eqn:Hold; [|discriminate].
    injection Hmse as <-.
    rewrite list_lookup_insert_eq by (eapply lookup_lt_Some; eassumption).
    rewrite list_lookup_insert_eq by (eapply lookup_lt_Some; eassumption).
    reflexivity.
Qed.

(** C8, as the code has it: [nowcast_report] has no handler around the
    metrics. When the R-squared or the MSE computation raises for one
    pair, that cell raises before its plot and before any metric is stored,
    [nowcast_report] returns no grid at all, and the recording step of the
    sweep that called it raises too, leaving every metric matrix as it was. *)
Theorem nowcast_report_metric_failure_aborts (path : string) (data : gmap key obs)
    (locations : list location) (groups : list group) (time_period : period)
    (left_window backfill_window : Z) (mode model_type : string) (c : collectors)
    (l_idx g_idx : nat) (location : location) (group : group)
    (truth preds : list ndarray) :
  outcome (validate data locations groups time_period 0 left_window 0 backfill_window
                    mode model_type) = Ok c ->
  locations !! l_idx = Some location ->
  groups !! g_idx = Some group ->
  grid_get (ground_truth c) l_idx g_idx = Ok truth ->
  grid_get (predictions c) l_idx g_idx = Ok preds ->
  is_ok (r2_score (Seq truth) (Seq preds))
  && is_ok (mean_squared_error (Seq truth) (Seq preds)) = false ->
  (forall acc, exists e,
     nowcast_report_cell path left_window backfill_window c l_idx location g_idx group acc
     = MkW [] (Err e)) /\
  is_ok (outcome (nowcast_report path data locations groups time_period
                                 left_window backfill_window mode model_type)) = false /\
  (forall mse_results rsq_results σ,
     let r := run (record_report path data locations groups time_period mode model_type
                                 mse_results rsq_results left_window backfill_window) σ in
     is_ok (h_outcome r) = false /\ h_store r = σ).
Proof.
  intros Hval Hl Hg Ht Hp Hfail.
  assert (Hrep : is_ok (outcome (nowcast_report path data locations groups time_period
                                   left_window backfill_window mode model_type)) = false).
  { destruct (outcome (nowcast_report _ _ _ _ _ _ _ _ _)) as [acc'|e] eqn:Hrun; [|reflexivity].
    exfalso. unfold nowcast_report in Hrun.
    apply bind_ok_inv in Hrun as (c' & Hc' & Hrun). rewrite Hval in Hc'. injection Hc' as <-.
    pose proof (proj2 (enumerate_lookup locations l_idx l_idx location) (conj eq_refl Hl))
      as Hel.
    destruct (foreach_ok_all _ _ _ _ Hrun _ _ Hel) as (s1 & s2 & Hrow).
    pose proof (proj2 (enumerate_lookup groups g_idx g_idx group) (conj eq_refl Hg)) as Heg.
    destruct (foreach_ok_all _ _ _ _ Hrow _ _ Heg) as (t1 & t2 & Hcell).
    destruct (nowcast_report_cell_ok _ _ _ _ _ _ _ _ _ _ _ _ Ht Hp Hcell)
      as (r & m & Hr & Hm & _).
    rewrite Hr, Hm in Hfail. discriminate. }
  split; [|split].
  - intros [rsq mse]. unfold nowcast_report_cell.
    erewrite bind_ok by (simpl; exact Ht). erewrite bind_ok by (simpl; exact Hp). simpl.
    destruct (r2_score (Seq truth) (Seq preds)) as [r|e] eqn:Hr.
    + simpl in Hfail. apply is_ok_false in Hfail as [e He].
      erewrite bind_ok by (simpl; reflexivity). simpl.
      destruct (grid_set rsq l_idx g_idx (Some r)) as [rsq'|e'] eqn:Hset.
      * exists e. erewrite bind_ok by (simpl; reflexivity). simpl.
        erewrite bind_err by (simpl; exact He). reflexivity.
      * exists e'. erewrite bind_err by (simpl; reflexivity). reflexivity.
    + exists e. erewrite bind_err by (simpl; reflexivity). reflexivity.
  - exact Hrep.
  - intros mse_results rsq_results σ r. subst r. unfold record_report.
    apply is_ok_false in Hrep as [e He].
    unfold mbind, H_mbind, H_bind. simpl. rewrite He. simpl. split; reflexivity.
Qed.

(** *** Grids *)

Lemma grid_get_cell_at {A} (grid : list (list A)) (l g : nat) (c : A) :
  grid_get grid l g = Ok c <-> cell_at grid l g = Some c.
Proof.
  unfold grid_get, cell_at. destruct (grid !! l) as [row|]; simpl.
  - destruct (row !! g); split; intros [=]; subst; reflexivity.
  - split; intros [=].
Qed.

Lemma grid_set_cell_at {A} (grid grid' : list (list A)) (l g : nat) (v : A) :
  grid_set grid l g v = Ok grid' ->
  forall l' g', cell_at grid' l' g' =
                if decide (l' = l /\ g' = g) then Some v else cell_at grid l' g'.
Proof.
  unfold grid_set, cell_at. destruct (grid !! l) as [row|] eqn:Hrow; [|discriminate].
  destruct (row !! g) as [old|] eqn:Hold; [|discriminate].
  intros [= <-] l' g'.
  destruct (decide (l' = l)) as [->|Hl].
  - rewrite list_lookup_insert_eq by (eapply lookup_lt_Some; eassumption). simpl.
    destruct (decide (g' = g)) as [->|Hg].
    + rewrite list_lookup_insert_eq by (eapply lookup_lt_Some; eassumption).
      rewrite decide_True by auto. reflexivity.
    + rewrite list_lookup_insert_ne by auto. rewrite decide_False by tauto.
      rewrite Hrow. reflexivity.
  - rewrite list_lookup_insert_ne by auto. rewrite decide_False by tauto. reflexivity.
Qed.

Lemma grid_append_cell_at {A} (grid grid' : list (list (list A))) (l g : nat) (v : A) :
  grid_append grid l g v = Ok grid' ->
  exists cell, cell_at grid l g = Some cell /\
    forall l' g', cell_at grid' l' g' =
                  if decide (l' = l /\ g' = g) then Some (cell ++ [v]) else cell_at grid l' g'.
Proof.
  unfold grid_append. destruct (grid_get grid l g) as [cell|] eqn:Hget; [|discriminate].
  intros Hset. exists cell. split; [apply grid_get_cell_at; exact Hget|].
  apply grid_set_cell_at. exact Hset.
Qed.

Lemma create_double_list_cell_at {A} (x : A) (n m l g : nat) :
  (l < n)%nat -> (g < m)%nat -> cell_at (create_double_list x n m) l g = Some x.
Proof.
  intros Hl Hg. unfold cell_at, create_double_list.
  rewrite lookup_replicate_2 by exact Hl. simpl. apply lookup_replicate_2. exact Hg.
Qed.

Lemma grew_refl {A} (k : nat -> nat -> nat) (g0 : list (list (list A))) :
  (forall l g, k l g = 0%nat) -> grew k g0 g0.
Proof. intros Hk l g cell Hc. exists cell. rewrite Hk. split; [exact Hc|lia]. Qed.

Lemma grew_trans {A} (k1 k2 k : nat -> nat -> nat) (g0 g1 g2 : list (list (list A))) :
  grew k1 g0 g1 -> grew k2 g1 g2 -> (forall l g, k l g = (k1 l g + k2 l g)%nat) ->
  grew k g0 g2.
Proof.
  intros H01 H12 Hk l g cell Hc.
  destruct (H01 l g cell Hc) as (c1 & Hc1 & Hlen1).
  destruct (H12 l g c1 Hc1) as (c2 & Hc2 & Hlen2).
  exists c2. split; [exact Hc2|]. rewrite Hk. lia.
Qed.

Lemma grid_append_grew {A} (grid grid' : list (list (list A))) (l g : nat) (v : A) :
  grid_append grid l g v = Ok grid' ->
  grew (fun l' g' => if decide (l' = l /\ g' = g) then 1%nat else 0%nat) grid grid'.
Proof.
  intros Happ. apply grid_append_cell_at in Happ as (cell & Hcell & Hall).
  intros l' g' c Hc. rewrite Hall. destruct (decide (l' = l /\ g' = g)) as [[-> ->]|Hne].
  - rewrite Hcell in Hc. injection Hc as <-. eexists. split; [reflexivity|].
    rewrite length_app. simpl. lia.
  - exists c. split; [exact Hc|lia].
Qed.

(** *** [validate] *)

Lemma validate_cell_grew (data : gmap key obs) (models : E * E * E)
    (lag left_window right_window backfill_window : Z) (e : epiweek)
    (l_idx : nat) (location : location) (g_idx : nat) (group : group) (c c' : collectors) :
  outcome (validate_cell data models lag left_window right_window backfill_window e
                         l_idx location g_idx group c) = Ok c' ->
  valid_weeks c' = valid_weeks c /\
  grew (fun l g => if decide (l = l_idx /\ g = g_idx)
                   then match data !! (e, group, location) with
                        | Some _ => 1%nat
                        | None => 0%nat
                        end
                   else 0%nat)
       (predictions c) (predictions c').
Proof.
  destruct models as [[model_upper model] model_lower]. unfold validate_cell.
  destruct (data !! (e, group, location)) as [o|] eqn:Hdata.
  - intros Hrun.
    apply bind_ok_inv in Hrun as ([[x_val cur_y_val] y_val] & _ & Hrun).
    apply bind_ok_inv in Hrun as (pred & _ & Hrun).
    apply bind_ok_inv in Hrun as (pred_u & _ & Hrun).
    apply bind_ok_inv in Hrun as (pred_l & _ & Hrun).
    apply bind_ok_inv in Hrun as (p & Hp & Hrun).
    apply bind_ok_inv in Hrun as (pl & _ & Hrun).
    apply bind_ok_inv in Hrun as (pu & _ & Hrun).
    apply bind_ok_inv in Hrun as (ct & _ & Hrun).
    apply bind_ok_inv in Hrun as (gt & _ & Hrun).
    injection Hrun as <-. simpl. split; [reflexivity|].
    apply grid_append_grew in Hp. exact Hp.
  - intros [= <-]. split; [reflexivity|].
    apply grew_refl. intros l g. destruct (decide _); reflexivity.
Qed.

Lemma hit_at (data : gmap key obs) (locations : list location) (groups : list group)
    (e : epiweek) (l g : nat) (location : location) (group : group) :
  locations !! l = Some location -> groups !! g = Some group ->
  hit data locations groups e l g =
  match data !! (e, group, location) with Some _ => 1%nat | None => 0%nat end.
Proof. intros Hl Hg. unfold hit. rewrite Hl, Hg. reflexivity. Qed.

Lemma validate_week_grew (data : gmap key obs) (locations : list location)
    (groups : list group) (models : E * E * E)
    (lag left_window right_window backfill_window : Z) (e : epiweek) (c c' : collectors) :
  outcome (validate_week data locations groups models lag left_window right_window
                         backfill_window e c) = Ok c' ->
  valid_weeks c' = valid_weeks c ++ [e] /\
  grew (hit data locations groups e) (predictions c) (predictions c').
Proof.
  unfold validate_week. intros Hrun.
  set (c0 := MkCollectors _ _ _ _ _ _) in Hrun.
  pose (P := fun (i : nat) (c1 : collectors) =>
    valid_weeks c1 = valid_weeks c0 /\
    grew (fun l g => if (l <? i)%nat then hit data locations groups e l g else 0%nat)
         (predictions c0) (predictions c1)).
  assert (HP : P (length locations) c').
  { refine (foreach_enumerate_ind P locations _ c0 c' _ _ Hrun).
    - split; [reflexivity|]. apply grew_refl. reflexivity.
    - intros i location s1 s2 Hloc [Hvw Hg1] Hrow. cbv beta iota in Hrow.
      pose (Q := fun (j : nat) (c2 : collectors) =>
        valid_weeks c2 = valid_weeks c0 /\
        grew (fun l g => if ((l <? i) || ((l =? i) && (g <? j)))%nat
                         then hit data locations groups e l g else 0%nat)
             (predictions c0) (predictions c2)).
      assert (HQ : Q (length groups) s2).
      { refine (foreach_enumerate_ind Q groups _ s1 s2 _ _ Hrow).
        - split; [exact Hvw|]. intros l g cell Hc.
          destruct (Hg1 l g cell Hc) as (cell' & Hc' & Hlen). exists cell'.
          split; [exact Hc'|]. rewrite Hlen.
          replace (g <? 0)%nat with false by (symmetry; apply Nat.ltb_ge; lia).
          rewrite andb_false_r, orb_false_r. reflexivity.
        - intros j group t1 t2 Hgrp [Hvw1 Hg2] Hcell. cbv beta iota in Hcell.
          apply validate_cell_grew in Hcell as [Hvw2 Hg3].
          split; [congruence|].
          eapply grew_trans; [exact Hg2|exact Hg3|].
          intros l g. simpl.
          destruct (decide (l = i /\ g = j)) as [[-> ->]|Hne].
          + rewrite (hit_at data locations groups e i j location group Hloc Hgrp).
            replace (i <? i)%nat with false by (symmetry; apply Nat.ltb_ge; lia).
            replace (j <? j)%nat with false by (symmetry; apply Nat.ltb_ge; lia).
            replace (j <? S j)%nat with true by (symmetry; apply Nat.ltb_lt; lia).
            rewrite Nat.eqb_refl. simpl. reflexivity.
          + destruct (l <? i)%nat eqn:Hli; simpl; [lia|].
            destruct (l =? i)%nat eqn:Hlei; simpl; [|lia].
            apply Nat.eqb_eq in Hlei. subst l.
            assert (g <> j) by (intros ->; apply Hne; auto).
            destruct (g <? j)%nat eqn:Hgj.
            * replace (g <? S j)%nat with true by (symmetry; apply Nat.ltb_lt;
                apply Nat.ltb_lt in Hgj; lia). lia.
            * replace (g <? S j)%nat with false by (symmetry; apply Nat.ltb_ge;
                apply Nat.ltb_ge in Hgj; lia). lia. }
      destruct HQ as [Hvw2 Hg2]. split; [exact Hvw2|].
      intros l g cell Hc. destruct (Hg2 l g cell Hc) as (cell' & Hc' & Hlen).
      exists cell'. split; [exact Hc'|]. rewrite Hlen. f_equal.
      destruct (l <? i)%nat eqn:Hli; simpl.
      + replace (l <? S i)%nat with true by (symmetry; apply Nat.ltb_lt;
          apply Nat.ltb_lt in Hli; lia). reflexivity.
      + destruct (l =? i)%nat eqn:Hlei; simpl.
        * apply Nat.eqb_eq in Hlei. subst l.
          replace (i <? S i)%nat with true by (symmetry; apply Nat.ltb_lt; lia).
          destruct (g <? length groups)%nat eqn:Hglt; [reflexivity|].
          unfold hit. apply Nat.ltb_ge in Hglt.
          rewrite (lookup_ge_None_2 groups g Hglt).
          destruct (locations !! i); reflexivity.
        * replace (l <? S i)%nat with false; [reflexivity|].
          symmetry. apply Nat.ltb_ge. apply Nat.ltb_ge in Hli.
          apply Nat.eqb_neq in Hlei. lia. }
  destruct HP as [Hvw Hg]. split; [exact Hvw|].
  intros l g cell Hc. destruct (Hg l g cell Hc) as (cell' & Hc' & Hlen).
  exists cell'. split; [exact Hc'|]. rewrite Hlen. f_equal.
  destruct (l <? length locations)%nat eqn:Hl; [reflexivity|].
  unfold hit. apply Nat.ltb_ge in Hl. rewrite (lookup_ge_None_2 locations l Hl). reflexivity.
Qed.

Lemma hits_present (data : gmap key obs) (locations : list location) (groups : list group)
    (weeks : list epiweek) (l g : nat) (location : location) (group : group) :
  locations !! l = Some location -> groups !! g = Some group ->
  hits data locations groups weeks l g = length (present_weeks data location group weeks).
Proof.
  intros Hl Hg. induction weeks as [|e weeks IH]; [reflexivity|].
  change (hits data locations groups (e :: weeks) l g)
    with (hit data locations groups e l g + hits data locations groups weeks l g)%nat.
  rewrite IH, (hit_at data locations groups e l g location group Hl Hg).
  unfold present_weeks. rewrite filter_cons. destruct (data !! (e, group, location)) as [o|] eqn:Hd.
  - rewrite decide_True by eauto. reflexivity.
  - rewrite decide_False by (intros [? [=]]). reflexivity.
Qed.

Lemma validate_loop_grew (data : gmap key obs) (locations : list location)
    (groups : list group) (models : E * E * E)
    (lag left_window right_window backfill_window : Z)
    (weeks : list epiweek) (c0 c : collectors) :
  outcome (foreach weeks (validate_week data locations groups models lag left_window
                                        right_window backfill_window) c0) = Ok c ->
  valid_weeks c = valid_weeks c0 ++ weeks /\
  grew (hits data locations groups weeks) (predictions c0) (predictions c).
Proof.
  revert c0. induction weeks as [|e weeks IH]; intros c0 Hrun; simpl in Hrun.
  - injection Hrun as <-. split; [symmetry; apply app_nil_r|].
    apply grew_refl. reflexivity.
  - apply bind_ok_inv in Hrun as (c1 & Hweek & Hrest).
    apply validate_week_grew in Hweek as [Hvw1 Hg1].
    apply IH in Hrest as [Hvw2 Hg2]. split.
    + rewrite Hvw2, Hvw1, <- app_assoc. reflexivity.
    + eapply grew_trans; [exact Hg1|exact Hg2|]. intros l g. reflexivity.
Qed.

(** [validate] visits every epiweek of its period. *)
Lemma validate_visits_period (data : gmap key obs) (locations : list location)
    (groups : list group) (time_period : period)
    (lag left_window right_window backfill_window : Z) (mode model_type : string)
    (c : collectors) :
  outcome (validate data locations groups time_period lag left_window right_window
                    backfill_window mode model_type) = Ok c ->
  valid_weeks c = unravel time_period.
Proof.
  unfold validate. intros Hrun.
  apply bind_ok_inv in Hrun as ([X Y] & _ & Hrun).
  apply bind_ok_inv in Hrun as (models & _ & Hrun).
  apply validate_loop_grew in Hrun as [Hvw _]. exact Hvw.
Qed.

(** C2: when [validate] returns, [valid_weeks] is the whole target period,
    whatever the data store holds, while the prediction sequence of the
    pair [(l, g)] has one entry per epiweek of the period whose key
    [(epiweek, group, location)] is in the data store; so it is never
    longer than [valid_weeks]. *)
Theorem validate_weeks_cover_predictions (data : gmap key obs) (locations : list location)
    (groups : list group) (time_period : period)
    (lag left_window right_window backfill_window : Z) (mode model_type : string)
    (c : collectors) :
  outcome (validate data locations groups time_period lag left_window right_window
                    backfill_window mode model_type) = Ok c ->
  valid_weeks c = unravel time_period /\
  forall l g location group,
    locations !! l = Some location -> groups !! g = Some group ->
    exists cell,
      grid_get (predictions c) l g = Ok cell /\
      length cell = length (present_weeks data location group (unravel time_period)) /\
      (length cell <= length (valid_weeks c))%nat.
Proof.
  unfold validate. intros Hrun.
  apply bind_ok_inv in Hrun as ([X Y] & _ & Hrun).
  apply bind_ok_inv in Hrun as (models & _ & Hrun).
  apply validate_loop_grew in Hrun as [Hvw Hgrew]. simpl in Hvw, Hgrew.
  split; [exact Hvw|].
  intros l g location group Hl Hg.
  destruct (Hgrew l g []) as (cell & Hcell & Hlen).
  { apply create_double_list_cell_at; eapply lookup_lt_Some; eassumption. }
  exists cell. split; [apply grid_get_cell_at; exact Hcell|].
  simpl in Hlen. rewrite (hits_present _ _ _ _ _ _ location group Hl Hg) in Hlen.
  split; [exact Hlen|]. rewrite Hlen, Hvw. unfold present_weeks. apply length_filter.
Qed.

(** *** Traces *)

Lemma calls_app (p : event -> bool) (t1 t2 : list event) :
  calls p (t1 ++ t2) = calls p t1 ++ calls p t2.
Proof. apply List.filter_app. Qed.

Lemma calls_bind (p : event -> bool) {A B} (m : W A) (f : A -> W B) :
  calls p (trace (m ≫= f)) =
  calls p (trace m) ++ match outcome m with Ok a => calls p (trace (f a)) | Err _ => [] end.
Proof. rewrite trace_bind, calls_app. destruct (outcome m); reflexivity. Qed.

Lemma silent_bind (p : event -> bool) {A B} (m : W A) (f : A -> W B) :
  silent p m -> (forall a, silent p (f a)) -> silent p (m ≫= f).
Proof.
  unfold silent. intros Hm Hf. rewrite calls_bind, Hm. destruct (outcome m); [apply Hf|reflexivity].
Qed.

Lemma silent_mret (p : event -> bool) {A} (a : A) : silent p (mret a : W A).
Proof. reflexivity. Qed.

Lemma silent_raise (p : event -> bool) {A} (e : exn) : silent p (raise e : W A).
Proof. reflexivity. Qed.

Lemma silent_pure_call (p : event -> bool) {A} (r : res A) : silent p (pure_call r).
Proof. reflexivity. Qed.

Lemma silent_call (p : event -> bool) {A} (ev : event) (r : res A) :
  p ev = false -> silent p (call ev r).
Proof. intros Hp. unfold silent, calls. simpl. rewrite Hp. reflexivity. Qed.

Lemma silent_fmap (p : event -> bool) {A B} (g : A -> B) (m : W A) :
  silent p m -> silent p (g <$> m).
Proof.
  intros Hm. unfold fmap, W_fmap. apply (silent_bind p m (fun a => W_ret (g a)) Hm).
  intros a. reflexivity.
Qed.

Lemma silent_foreach (p : event -> bool) {A St} (xs : list A) (body : A -> St -> W St)
    (s : St) :
  (forall x s1, silent p (body x s1)) -> silent p (foreach xs body s).
Proof.
  intros Hbody. revert s. induction xs as [|x xs IH]; intros s; simpl.
  - reflexivity.
  - apply silent_bind; [apply Hbody|exact IH].
Qed.

Ltac silence :=
  repeat first
    [ apply silent_mret | apply silent_raise | apply silent_pure_call
    | apply silent_call; reflexivity
    | apply silent_fmap
    | apply silent_foreach; intros
    | apply silent_bind; [|intros]
    | match goal with
      | |- silent _ (if ?b then _ else _) => destruct b
      | |- silent _ (match ?x with _ => _ end) => destruct x
      | |- silent _ (let '(_, _) := ?x in _) => destruct x
      end ].

Lemma new_triple_silent (p : event -> bool) (f : family) :
  (forall f q, p (EvNew f q) = false) -> silent p (new_triple f).
Proof.
  intros Hp. unfold new_triple.
  repeat (apply silent_bind; [apply silent_call; apply Hp|intros]). apply silent_mret.
Qed.

Lemma train_model_silent (p : event -> bool) (X : matrix) (Y : ndarray)
    (model_type : string) :
  (forall f q, p (EvNew f q) = false) ->
  (forall r X Y, p (EvFit r X Y) = false) ->
  (forall f X Y, p (EvCoFit f X Y) = false) ->
  silent p (train_model X Y model_type).
Proof.
  intros Hnew Hfit Hcofit. unfold train_model, read_local.
  repeat first
    [ apply new_triple_silent; exact Hnew
    | apply silent_call; first [apply Hfit | apply Hcofit]
    | apply silent_mret | apply silent_raise | apply silent_fmap
    | apply silent_bind; [|intros]
    | match goal with
      | |- silent _ (if ?b then _ else _) => destruct b
      | |- silent _ (match ?x with _ => _ end) => destruct x
      end ].
Qed.

(** The calls of a loop that succeeded, when those of a body depend on the
    element only. *)
Lemma foreach_calls (p : event -> bool) {A St} (xs : list A) (body : A -> St -> W St)
    (g : A -> list event) (s s' : St) :
  (forall x s1 s2, outcome (body x s1) = Ok s2 -> calls p (trace (body x s1)) = g x) ->
  outcome (foreach xs body s) = Ok s' ->
  calls p (trace (foreach xs body s)) = concat (g <$> xs).
Proof.
  intros Hg. revert s. induction xs as [|x xs IH]; intros s Hrun; simpl in *.
  - reflexivity.
  - apply bind_ok_inv in Hrun as (s1 & Hx & Hrest).
    rewrite calls_bind, Hx, (Hg x s s1 Hx), (IH s1 Hrest). reflexivity.
Qed.

Lemma concat_singletons {A B} (f : A -> B) (xs : list A) :
  concat ((fun x => [f x]) <$> xs) = f <$> xs.
Proof.
  induction xs as [|x xs IH]; [reflexivity|].
  rewrite !fmap_cons. simpl. f_equal. exact IH.
Qed.

Lemma concat_fmap_bind {A B} (g : A -> list B) (xs : list A) :
  concat (g <$> xs) = xs ≫= g.
Proof.
  induction xs as [|x xs IH]; [reflexivity|].
  rewrite fmap_cons. simpl. rewrite IH. reflexivity.
Qed.

Lemma concat_enumerate {A B} (xs : list A) (g : A -> list B) :
  concat ((fun ix : nat * A => g ix.2) <$> enumerate xs) = concat (g <$> xs).
Proof.
  assert (Hs : snd <$> enumerate xs = xs).
  { unfold enumerate. apply snd_zip. rewrite length_seq. lia. }
  rewrite <- Hs at 2. rewrite <- list_fmap_compose. reflexivity.
Qed.

Lemma validate_week_silent (data : gmap key obs) (locations : list location)
    (groups : list group) (models : E * E * E)
    (lag left_window right_window backfill_window : Z) (e : epiweek) (c : collectors) :
  silent is_prepare (validate_week data locations groups models lag left_window
                                   right_window backfill_window e c).
Proof.
  unfold validate_week. apply silent_foreach. intros [l_idx location] s1.
  apply silent_foreach. intros [g_idx group] s2.
  unfold validate_cell. destruct models as [[model_upper model] model_lower]. silence.
Qed.

(** [validate] calls [prepare] once, first, on the training seasons of its
    period and with its own window arguments. *)
Lemma validate_prepares (data : gmap key obs) (locations : list location)
    (groups : list group) (time_period : period)
    (lag left_window right_window backfill_window : Z) (mode model_type : string) :
  calls is_prepare (trace (validate data locations groups time_period lag left_window
                                    right_window backfill_window mode model_type))
  = [EvPrepare locations groups (model_periods mode (get_start_year (fst time_period)))
               lag left_window right_window backfill_window].
Proof.
  unfold validate. rewrite calls_bind. simpl.
  match goal with |- _ :: ?rest = _ => assert (Hrest : rest = []); [|rewrite Hrest; reflexivity] end.
  destruct (prepare _ _ _ _ _ _ _ _) as [[X Y]|e]; [|reflexivity].
  apply silent_bind.
  - apply train_model_silent; reflexivity.
  - intros models. apply silent_foreach. intros e c. apply validate_week_silent.
Qed.

Lemma penalized_rsq_prepares (data : gmap key obs) (locations : list location)
    (groups : list group) (val_period : period) (mode model_type : string) (window : Z) :
  calls is_prepare (trace (penalized_rsq data locations groups val_period mode model_type
                                         window))
  = [EvPrepare locations groups (model_periods mode (get_start_year (fst val_period)))
               0 window 0 window].
Proof.
  unfold penalized_rsq. rewrite calls_bind, validate_prepares.
  match goal with |- _ ++ ?rest = _ => assert (Hrest : rest = []); [|rewrite Hrest; reflexivity] end.
  destruct (outcome (validate _ _ _ _ _ _ _ _ _ _)) as [c|e]; [|reflexivity].
  change (silent is_prepare
    (predictions ← pure_call (vstack_squeeze (flatten_double_list (predictions c)));
     ground_truth ← pure_call (vstack_squeeze (flatten_double_list (ground_truth c)));
     r2 ← pure_call (r2_score (Vec ground_truth) (Vec predictions));
     mret (r2 - PENALTY * float_of_int window)%float)).
  silence.
Qed.

Lemma sweep_prepares (data : gmap key obs) (locations : list location)
    (groups : list group) (val_period : period) (mode model_type : string)
    (max_window : Z) (sel : Z * float) :
  outcome (sweep data locations groups val_period mode model_type max_window) = Ok sel ->
  calls is_prepare (trace (sweep data locations groups val_period mode model_type max_window))
  = (fun window =>
       EvPrepare locations groups (model_periods mode (get_start_year (fst val_period)))
                 0 window 0 window) <$> range 0 (max_window + 1).
Proof.
  intros Hrun. unfold sweep in *.
  erewrite foreach_calls; [|intros window s1 s2 _|exact Hrun].
  2:{ rewrite calls_bind, penalized_rsq_prepares.
      instantiate (1 := fun window =>
        [EvPrepare locations groups (model_periods mode (get_start_year (fst val_period)))
                   0 window 0 window]).
      simpl. destruct (outcome (penalized_rsq _ _ _ _ _ _ _)); reflexivity. }
  apply concat_singletons.
Qed.

(** *** [predict] *)

Lemma predict_cell_fetches (data : gmap key obs) (models : E * E * E) (epiweek : epiweek)
    (opt_window : Z) (l_idx : nat) (location : location) (g_idx : nat) (group : group)
    (cur : list (list (list ndarray)) * list (list (list ndarray)) * list (list (list ndarray))) :
  calls is_fetch (trace (predict_cell data models epiweek opt_window
                                      l_idx location g_idx group cur))
  = [EvFetch location group epiweek 0 opt_window 0 opt_window].
Proof.
  unfold predict_cell. destruct models as [[model_upper model] model_lower].
  destruct cur as [[cur_preds cur_preds_upper] cur_preds_lower].
  rewrite calls_bind. simpl.
  match goal with |- _ :: ?rest = _ => assert (Hrest : rest = []); [|rewrite Hrest; reflexivity] end.
  destruct (fetch _ _ _ _ _ _ _ _) as [[[X_pred a] b]|e]; [|reflexivity].
  change (silent is_fetch
    (pred_u ← call (EvPredict Upper X_pred) (est_predict model_upper X_pred);
     pred ← call (EvPredict Mid X_pred) (est_predict model X_pred);
     pred_l ← call (EvPredict Lower X_pred) (est_predict model_lower X_pred);
     cur_preds ← pure_call (grid_append cur_preds l_idx g_idx pred);
     cur_preds_upper ← pure_call (grid_append cur_preds_upper l_idx g_idx pred_u);
     cur_preds_lower ← pure_call (grid_append cur_preds_lower l_idx g_idx pred_l);
     mret (cur_preds, cur_preds_upper, cur_preds_lower))).
  silence.
Qed.

Lemma predict_cells_silent (data : gmap key obs) (models : E * E * E) (epiweek : epiweek)
    (opt_window : Z) (locations : list location) (groups : list group) :
  silent is_prepare (predict_cells data models epiweek opt_window locations groups).
Proof.
  unfold predict_cells. apply silent_foreach. intros [l_idx location] s1.
  apply silent_foreach. intros [g_idx group] [[a b] c].
  unfold predict_cell. destruct models as [[model_upper model] model_lower]. silence.
Qed.

(** The prediction loop fetches at the target epiweek for every pair of
    the groupings, in order. *)
Lemma predict_cells_fetches (data : gmap key obs) (models : E * E * E) (epiweek : epiweek)
    (opt_window : Z) (locations : list location) (groups : list group)
    (cur : list (list (list ndarray)) * list (list (list ndarray)) * list (list (list ndarray))) :
  outcome (predict_cells data models epiweek opt_window locations groups) = Ok cur ->
  calls is_fetch (trace (predict_cells data models epiweek opt_window locations groups))
  = location ← locations; group ← groups;
    [EvFetch location group epiweek 0 opt_window 0 opt_window].
Proof.
  intros Hrun. unfold predict_cells in *.
  erewrite foreach_calls; [|intros [l_idx location] s1 s2 Hrow|exact Hrun].
  2:{ erewrite foreach_calls; [|intros [g_idx group] t1 t2 _|exact Hrow].
      2:{ rewrite predict_cell_fetches.
          instantiate (1 := fun jg =>
            [EvFetch location jg.2 epiweek 0 opt_window 0 opt_window]). reflexivity. }
      rewrite (concat_enumerate groups
                 (fun group => [EvFetch location group epiweek 0 opt_window 0 opt_window])).
      instantiate (1 := fun il =>
        concat ((fun group => [EvFetch il.2 group epiweek 0 opt_window 0 opt_window])
                <$> groups)).
      reflexivity. }
  rewrite (concat_enumerate locations
             (fun location => concat ((fun group =>
                [EvFetch location group epiweek 0 opt_window 0 opt_window]) <$> groups))).
  rewrite concat_fmap_bind. apply list_bind_ext; [|reflexivity].
  intros location. apply concat_fmap_bind.
Qed.

Lemma assign_cell_covers
    (cur : list (list (list ndarray)) * list (list (list ndarray)) * list (list (list ndarray)))
    (out out' : gmap (location * group) float * gmap (location * group) float
                * gmap (location * group) float)
    (l_idx : nat) (location : location) (g_idx : nat) (group : group) :
  outcome (assign_cell cur l_idx location g_idx group out) = Ok out' ->
  trace (assign_cell cur l_idx location g_idx group out) = [] /\
  covers out' (location, group) /\
  forall k, covers out k -> covers out' k.
Proof.
  destruct cur as [[cur_preds cur_preds_upper] cur_preds_lower].
  destruct out as [[preds preds_upper] preds_lower]. unfold assign_cell. intros Hrun.
  split.
  { repeat (apply trace_nil_bind; [reflexivity|intros]). reflexivity. }
  apply bind_ok_inv in Hrun as (p & _ & Hrun).
  apply bind_ok_inv in Hrun as (pu & _ & Hrun).
  apply bind_ok_inv in Hrun as (pl & _ & Hrun).
  injection Hrun as <-. unfold covers. simpl. split.
  - rewrite !lookup_insert_eq. eauto.
  - intros k (Hk1 & Hk2 & Hk3). rewrite !lookup_insert_is_Some.
    destruct (decide ((location, group) = k)); tauto.
Qed.

(** A loop whose bodies only move along a preorder [R]: the final state is
    above the initial one and above the state left by every body. *)
Lemma foreach_ok_mono {A St} (R : St -> St -> Prop) (xs : list A) (body : A -> St -> W St)
    (s s' : St) :
  (forall t, R t t) -> (forall t1 t2 t3, R t1 t2 -> R t2 t3 -> R t1 t3) ->
  (forall x s1 s2, outcome (body x s1) = Ok s2 -> R s1 s2) ->
  outcome (foreach xs body s) = Ok s' ->
  R s s' /\
  forall i x, xs !! i = Some x -> exists s1 s2, outcome (body x s1) = Ok s2 /\ R s2 s'.
Proof.
  intros Hrefl Htrans Hbody. revert s. induction xs as [|y xs IH]; intros s Hrun; simpl in Hrun.
  - injection Hrun as <-. split; [apply Hrefl|]. intros i x [=].
  - apply bind_ok_inv in Hrun as (s1 & Hy & Hrest).
    destruct (IH s1 Hrest) as [HR Hall]. split.
    + eapply Htrans; [eapply Hbody; exact Hy|exact HR].
    + intros [|i] x Hx.
      * injection Hx as <-. exists s, s1. split; [exact Hy|exact HR].
      * apply (Hall i x Hx).
Qed.

Lemma foreach_trace_nil {A St} (xs : list A) (body : A -> St -> W St) (s : St) :
  (forall x s1, trace (body x s1) = []) -> trace (foreach xs body s) = [].
Proof.
  intros Hbody. revert s. induction xs as [|x xs IH]; intros s; simpl; [reflexivity|].
  apply trace_nil_bind; [apply Hbody|exact IH].
Qed.

Lemma assign_cell_trace
    (cur : list (list (list ndarray)) * list (list (list ndarray)) * list (list (list ndarray)))
    (out : gmap (location * group) float * gmap (location * group) float
           * gmap (location * group) float)
    (l_idx : nat) (location : location) (g_idx : nat) (group : group) :
  trace (assign_cell cur l_idx location g_idx group out) = [].
Proof.
  destruct cur as [[cur_preds cur_preds_upper] cur_preds_lower].
  destruct out as [[preds preds_upper] preds_lower]. unfold assign_cell.
  repeat (apply trace_nil_bind; [reflexivity|intros]). reflexivity.
Qed.

Lemma assign_cells_trace
    (cur : list (list (list ndarray)) * list (list (list ndarray)) * list (list (list ndarray)))
    (out : gmap (location * group) float * gmap (location * group) float
           * gmap (location * group) float)
    (locations : list location) (groups : list group) :
  trace (assign_cells cur locations groups out) = [].
Proof.
  unfold assign_cells. apply foreach_trace_nil. intros [l_idx location] s1.
  apply foreach_trace_nil. intros [g_idx group] s2. apply assign_cell_trace.
Qed.

(** After the last loop every pair of the groupings is a key of the three
    mappings, and no key is lost. *)
Lemma assign_cells_covers
    (cur : list (list (list ndarray)) * list (list (list ndarray)) * list (list (list ndarray)))
    (out out' : gmap (location * group) float * gmap (location * group) float
                * gmap (location * group) float)
    (locations : list location) (groups : list group) :
  outcome (assign_cells cur locations groups out) = Ok out' ->
  (forall k, covers out k -> covers out' k) /\
  forall location group, location ∈ locations -> group ∈ groups ->
                         covers out' (location, group).
Proof.
  unfold assign_cells. intros Hrun.
  assert (Hinner : forall l_idx location s1 s2,
    outcome (foreach (enumerate groups) (fun '(g_idx, group) =>
               assign_cell cur l_idx location g_idx group) s1) = Ok s2 ->
    keeps s1 s2 /\ forall group, group ∈ groups -> covers s2 (location, group)).
  { intros l_idx location s1 s2 Hrow.
    apply (foreach_ok_mono keeps) in Hrow as [HR Hall].
    - split; [exact HR|]. intros group Hin.
      apply list_elem_of_lookup in Hin as [g_idx Hg].
      destruct (Hall g_idx (g_idx, group)) as (t1 & t2 & Hcell & Ht2).
      { apply enumerate_lookup. auto. }
      apply assign_cell_covers in Hcell as (_ & Hnew & _). apply Ht2. exact Hnew.
    - intros t k Hk. exact Hk.
    - intros t1 t2 t3 H12 H23 k Hk. apply H23, H12, Hk.
    - intros [g_idx group] t1 t2 Hcell. apply assign_cell_covers in Hcell as (_ & _ & Hmono).
      exact Hmono. }
  apply (foreach_ok_mono keeps) in Hrun as [HR Hall].
  - split; [exact HR|]. intros location group Hl Hg.
    apply list_elem_of_lookup in Hl as [l_idx Hl].
    destruct (Hall l_idx (l_idx, location)) as (t1 & t2 & Hrow & Ht2).
    { apply enumerate_lookup. auto. }
    apply Hinner in Hrow as [_ Hnew]. apply Ht2, Hnew, Hg.
  - intros t k Hk. exact Hk.
  - intros t1 t2 t3 H12 H23 k Hk. apply H23, H12, Hk.
  - intros [l_idx location] t1 t2 Hrow. apply Hinner in Hrow as [Hmono _]. exact Hmono.
Qed.


(** The steps of a block of [predict] that succeeded. *)
Lemma predict_block_ok (data : gmap key obs) (epiweek : epiweek) (val_period : period)
    (max_window : Z) (mode model_type : string)
    (locations : list location) (groups : list group)
    (out out' : gmap (location * group) float * gmap (location * group) float
                * gmap (location * group) float) :
  outcome (predict_block data epiweek val_period max_window mode model_type
                         locations groups out) = Ok out' ->
  exists opt best X Y models cur,
    outcome (sweep data locations groups val_period mode model_type max_window)
    = Ok (opt, best) /\
    prepare data locations groups [val_period] 0 opt 0 opt = Ok (X, Y) /\
    outcome (train_model X Y model_type) = Ok models /\
    outcome (predict_cells data models epiweek opt locations groups) = Ok cur /\
    outcome (assign_cells cur locations groups out) = Ok out' /\
    calls is_prepare (trace (predict_block data epiweek val_period max_window mode
                                           model_type locations groups out))
    = ((fun window =>
          EvPrepare locations groups (model_periods mode (get_start_year (fst val_period)))
                    0 window 0 window) <$> range 0 (max_window + 1))
      ++ [EvPrepare locations groups [val_period] 0 opt 0 opt].
Proof.
  intros Hrun. unfold predict_block in *.
  apply bind_ok_inv in Hrun as ([opt best] & Hsweep & Hrun).
  apply bind_ok_inv in Hrun as ([X Y] & Hprep & Hrun).
  apply bind_ok_inv in Hrun as (models & Htrain & Hrun).
  apply bind_ok_inv in Hrun as (cur & Hcells & Hassign).
  exists opt, best, X, Y, models, cur. repeat split; try assumption.
  rewrite calls_bind, Hsweep, (sweep_prepares _ _ _ _ _ _ _ _ Hsweep). f_equal.
  rewrite calls_bind. simpl in Hprep. simpl. rewrite Hprep. f_equal.
  rewrite calls_bind, Htrain.
  rewrite (train_model_silent is_prepare X Y model_type) by reflexivity. simpl.
  rewrite calls_bind, Hcells, predict_cells_silent. simpl.
  unfold calls. rewrite assign_cells_trace. reflexivity.
Qed.

(** A run of [predict] that succeeded ran the block of every choice of
    [locations] and [groups] with success, and kept its keys. *)
Lemma predict_ok_blocks (data : gmap key obs) (epiweek : epiweek)
    (location_groups : list (list location)) (groupings : list (list group))
    (max_window : Z) (mode model_type : string)
    (outs : gmap (location * group) float * gmap (location * group) float
            * gmap (location * group) float)
    (locations : list location) (groups : list group) :
  outcome (predict data epiweek location_groups groupings max_window mode model_type)
  = Ok outs ->
  locations ∈ location_groups -> groups ∈ groupings ->
  exists out out',
    outcome (predict_block data epiweek (get_period (get_start_year epiweek - 1) 40 17)
                           (Z.min max_window (get_max_window epiweek)) mode model_type
                           locations groups out) = Ok out' /\
    keeps out' outs.
Proof.
  unfold predict. intros Hrun Hl Hg.
  assert (Hrefl : forall t, keeps t t) by (intros t k Hk; exact Hk).
  assert (Htrans : forall t1 t2 t3, keeps t1 t2 -> keeps t2 t3 -> keeps t1 t3)
    by (intros t1 t2 t3 H12 H23 k Hk; apply H23, H12, Hk).
  assert (Hblock : forall locs grps s1 s2,
    outcome (predict_block data epiweek (get_period (get_start_year epiweek - 1) 40 17)
               (Z.min max_window (get_max_window epiweek)) mode model_type
               locs grps s1) = Ok s2 -> keeps s1 s2).
  { intros locs grps s1 s2 Hb.
    apply predict_block_ok in Hb as (opt & best & X & Y & models & cur & _ & _ & _ & _ & Ha & _).
    apply assign_cells_covers in Ha as [Hkeep _]. exact Hkeep. }
  apply list_elem_of_lookup in Hl as [lg_idx Hl].
  apply list_elem_of_lookup in Hg as [gp_idx Hg].
  apply (foreach_ok_mono keeps) in Hrun as [_ Hall]; try assumption.
  - destruct (Hall lg_idx (lg_idx, locations)) as (s1 & s2 & Hrow & Hs2).
    { apply enumerate_lookup. auto. }
    apply (foreach_ok_mono keeps) in Hrow as [_ Hall2]; try assumption.
    + destruct (Hall2 gp_idx (gp_idx, groups)) as (t1 & t2 & Hb & Ht2).
      { apply enumerate_lookup. auto. }
      exists t1, t2. split; [exact Hb|]. eapply Htrans; eassumption.
    + intros [j grps] t1 t2 Hb. eapply Hblock. exact Hb.
  - intros [i locs] t1 t2 Hrow.
    apply (foreach_ok_mono keeps) in Hrow as [Hk _]; try assumption.
    intros [j grps] u1 u2 Hb. eapply Hblock. exact Hb.
Qed.

(** Every pair of every choice of the groupings is a key of the result. *)
Lemma predict_covers (data : gmap key obs) (epiweek : epiweek)
    (location_groups : list (list location)) (groupings : list (list group))
    (max_window : Z) (mode model_type : string)
    (outs : gmap (location * group) float * gmap (location * group) float
            * gmap (location * group) float)
    (locations : list location) (groups : list group) (l : location) (g : group) :
  outcome (predict data epiweek location_groups groupings max_window mode model_type)
  = Ok outs ->
  locations ∈ location_groups -> groups ∈ groupings -> l ∈ locations -> g ∈ groups ->
  covers outs (l, g).
Proof.
  intros Hrun Hlocs Hgrps Hl Hg.
  destruct (predict_ok_blocks _ _ _ _ _ _ _ _ _ _ Hrun Hlocs Hgrps) as (out & out' & Hb & Hkeep).
  apply predict_block_ok in Hb as (opt & best & X & Y & models & cur & _ & _ & _ & _ & Ha & _).
  apply assign_cells_covers in Ha as [_ Hnew]. apply Hkeep, Hnew; assumption.
Qed.

(** C7: in a run of [predict] that returns, for every choice of
    [locations] and [groups] the candidate windows are 0 up to
    [min max_window (get_max_window epiweek)] inclusive; each candidate
    [w] is scored by a [validate] over the prior season
    [get_period (start_year - 1) 40 17] with lag 0, right window 0 and left
    and backfill window [w] (it visits exactly that period, and its
    [prepare] call carries these arguments); the model is then trained on
    that one period with the selected window as left and backfill window;
    and every pair [(location, group)] gets a scalar in each of the three
    mappings. *)
Theorem predict_sweeps_and_retrains (data : gmap key obs) (epiweek : epiweek)
    (location_groups : list (list location)) (groupings : list (list group))
    (max_window : Z) (mode model_type : string)
    (outs : gmap (location * group) float * gmap (location * group) float
            * gmap (location * group) float)
    (locations : list location) (groups : list group) :
  outcome (predict data epiweek location_groups groupings max_window mode model_type)
  = Ok outs ->
  locations ∈ location_groups -> groups ∈ groupings ->
  let val_period := get_period (get_start_year epiweek - 1) 40 17 in
  let windows := range 0 (Z.min max_window (get_max_window epiweek) + 1) in
  exists scores opt best out,
    Forall2 (fun w rsq =>
               outcome (penalized_rsq data locations groups val_period mode model_type w)
               = Ok rsq /\
               exists c, outcome (validate data locations groups val_period 0 w 0 w
                                           mode model_type) = Ok c /\
                         valid_weeks c = unravel val_period)
            windows scores /\
    select_window (zip windows scores) = (opt, best) /\
    calls is_prepare
      (trace (predict_block data epiweek val_period
                            (Z.min max_window (get_max_window epiweek)) mode model_type
                            locations groups out))
    = ((fun w => EvPrepare locations groups
                           (model_periods mode (get_start_year (fst val_period))) 0 w 0 w)
       <$> windows)
      ++ [EvPrepare locations groups [val_period] 0 opt 0 opt] /\
    forall l g, l ∈ locations -> g ∈ groups ->
      exists point upper lower,
        outs.1.1 !! (l, g) = Some point /\ outs.1.2 !! (l, g) = Some upper /\
        outs.2 !! (l, g) = Some lower.
Proof.
  intros Hrun Hlocs Hgrps val_period windows.
  destruct (predict_ok_blocks _ _ _ _ _ _ _ _ _ _ Hrun Hlocs Hgrps) as (out & out' & Hb & _).
  apply predict_block_ok in Hb as (opt & best & X & Y & models & cur & Hsweep & _ & _ & _ & _ & Hcalls).
  pose proof Hsweep as Hsel. unfold sweep in Hsel.
  apply sweep_from in Hsel as (scores & Hall & Hsel).
  exists scores, opt, best, out. split; [|split; [|split]].
  - eapply Forall2_impl; [exact Hall|]. intros w rsq Hw. split; [exact Hw|].
    unfold penalized_rsq in Hw. apply bind_ok_inv in Hw as (c & Hc & _).
    exists c. split; [exact Hc|]. apply validate_visits_period in Hc. exact Hc.
  - symmetry. exact Hsel.
  - exact Hcalls.
  - intros l g Hl Hg.
    destruct (predict_covers _ _ _ _ _ _ _ _ _ _ l g Hrun Hlocs Hgrps Hl Hg)
      as ([point Hp] & [upper Hu] & [lower Hlo]).
    exists point, upper, lower. auto.
Qed.

(** C10: [predict] fetches the features of the target epiweek for every
    pair of the groupings, whatever the data store holds: the fetch calls
    of its prediction loop are one per pair, in order, where [validate]
    skips a pair whose key is missing; a fetch that raises makes the loop
    raise; and when [predict] returns, every pair is a key of all three
    mappings. *)
Theorem predict_fetches_every_pair (data : gmap key obs) (epiweek : epiweek)
    (location_groups : list (list location)) (groupings : list (list group))
    (max_window : Z) (mode model_type : string) :
  (forall outs locations groups l g,
     outcome (predict data epiweek location_groups groupings max_window mode model_type)
     = Ok outs ->
     locations ∈ location_groups -> groups ∈ groupings -> l ∈ locations -> g ∈ groups ->
     covers outs (l, g)) /\
  (forall models opt_window locations groups cur,
     outcome (predict_cells data models epiweek opt_window locations groups) = Ok cur ->
     calls is_fetch (trace (predict_cells data models epiweek opt_window locations groups))
     = l ← locations; g ← groups; [EvFetch l g epiweek 0 opt_window 0 opt_window]) /\
  (forall models opt_window locations groups l_idx g_idx l g,
     locations !! l_idx = Some l -> groups !! g_idx = Some g ->
     is_ok (fetch data l g epiweek 0 opt_window 0 opt_window) = false ->
     is_ok (outcome (predict_cells data models epiweek opt_window locations groups))
     = false) /\
  (forall models lag left_window right_window backfill_window e l_idx l g_idx g c,
     data !! (e, g, l) = None ->
     validate_cell data models lag left_window right_window backfill_window
                   e l_idx l g_idx g c = mret c).
Proof.
  split; [|split; [|split]].
  - intros outs locations groups l g Hrun Hlocs Hgrps Hl Hg.
    eapply predict_covers; eassumption.
  - intros models opt_window locations groups cur Hrun.
    eapply predict_cells_fetches. exact Hrun.
  - intros models opt_window locations groups l_idx g_idx l g Hl Hg Hfail.
    destruct (outcome (predict_cells _ _ _ _ _ _)) as [cur|e] eqn:Hrun; [|reflexivity].
    exfalso. unfold predict_cells in Hrun.
    destruct (foreach_ok_all _ _ _ _ Hrun l_idx (l_idx, l)) as (s1 & s2 & Hrow).
    { apply enumerate_lookup. auto. }
    destruct (foreach_ok_all _ _ _ _ Hrow g_idx (g_idx, g)) as (t1 & t2 & Hcell).
    { apply enumerate_lookup. auto. }
    unfold predict_cell in Hcell. destruct models as [[model_upper model] model_lower].
    destruct t1 as [[a b] c].
    apply bind_ok_inv in Hcell as (x & Hx & _). simpl in Hx. rewrite Hx in Hfail.
    discriminate.
  - intros [[model_upper model] model_lower] lag left_window right_window backfill_window
           e l_idx l g_idx g c Hnone.
    unfold validate_cell. rewrite Hnone. reflexivity.
Qed.

End PipelineFacts.

(** ** The store *)

Section StoreFacts.
Context {obs E : Type}.
Context `{Constants, HospUtils, Preparation obs, MlUtils E, Metrics, Numpy, Sink}.

Lemma run_bind {A B} (m : H A) (f : A -> H B) (σ : store) :
  run (m ≫= f) σ =
  match h_outcome (run m σ) with
  | Ok a => MkHR (h_trace (run m σ) ++ h_trace (run (f a) (h_store (run m σ))))
                 (h_store (run (f a) (h_store (run m σ))))
                 (h_outcome (run (f a) (h_store (run m σ))))
  | Err e => MkHR (h_trace (run m σ)) (h_store (run m σ)) (Err e)
  end.
Proof. reflexivity. Qed.

Lemma hoare_ret {A} (P : store -> Prop) (a : A) (Q : A -> store -> Prop)
    (QE : store -> Prop) :
  (forall σ, P σ -> Q a σ) -> hoare P (mret a) Q QE.
Proof. intros HQ σ HP. simpl. apply HQ, HP. Qed.

Lemma hoare_bind {A B} (P : store -> Prop) (m : H A) (f : A -> H B)
    (Q1 : A -> store -> Prop) (Q : B -> store -> Prop) (QE : store -> Prop) :
  hoare P m Q1 QE -> (forall a, hoare (Q1 a) (f a) Q QE) -> hoare P (m ≫= f) Q QE.
Proof.
  intros Hm Hf σ HP. specialize (Hm σ HP). rewrite run_bind.
  destruct (h_outcome (run m σ)) as [a|e]; simpl; [|exact Hm].
  apply (Hf a _ Hm).
Qed.

Lemma hoare_conseq {A} (P P' : store -> Prop) (m : H A) (Q Q' : A -> store -> Prop)
    (QE QE' : store -> Prop) :
  hoare P' m Q' QE' ->
  (forall σ, P σ -> P' σ) -> (forall a σ, Q' a σ -> Q a σ) -> (forall σ, QE' σ -> QE σ) ->
  hoare P m Q QE.
Proof.
  intros Hm HP HQ HQE σ Hσ. specialize (Hm σ (HP σ Hσ)).
  destruct (h_outcome (run m σ)); auto.
Qed.

(** A lifted computation leaves the store as it is. *)
Lemma hoare_lift {A} (P : store -> Prop) (m : W A) :
  hoare P (lift m) (fun _ => P) P.
Proof. intros σ HP. simpl. destruct (outcome m); exact HP. Qed.

Lemma hoare_deref (P : store -> Prop) (r : ref) :
  hoare P (deref r) (fun m σ => P σ /\ σ !! r = Some m) P.
Proof. intros σ HP. simpl. destruct (σ !! r); auto. Qed.

Lemma hoare_deref_inv (P : store -> Prop) (r : ref) :
  hoare P (deref r) (fun _ => P) P.
Proof. intros σ HP. simpl. destruct (σ !! r); auto. Qed.

Lemma hoare_foreach {A St} (Inv : store -> Prop) (xs : list A) (body : A -> St -> H St)
    (s : St) :
  (forall x s1, x ∈ xs -> hoare Inv (body x s1) (fun _ => Inv) Inv) ->
  hoare Inv (h_foreach xs body s) (fun _ => Inv) Inv.
Proof.
  revert s. induction xs as [|x xs IH]; intros s Hbody; simpl.
  - apply hoare_ret. auto.
  - eapply hoare_bind.
    + apply Hbody. left.
    + intros s1. apply IH. intros y s2 Hy. apply Hbody. right. exact Hy.
Qed.

Lemma hoare_replicate_inv {A} (Inv : store -> Prop) (n : nat) (m : H A) :
  hoare Inv m (fun _ => Inv) Inv -> hoare Inv (h_replicate n m) (fun _ => Inv) Inv.
Proof.
  intros Hm. induction n as [|n IH]; simpl.
  - apply hoare_ret. auto.
  - eapply hoare_bind; [exact Hm|]. intros x. simpl.
    eapply hoare_bind; [exact IH|]. intros xs. simpl. apply hoare_ret. auto.
Qed.

(** *** Matrices *)

Lemma np_index_nonneg (i : Z) (len i' : nat) :
  0 <= i -> np_index i len = Ok i' -> i' = Z.to_nat i /\ (i' < len)%nat.
Proof.
  intros Hi. unfold np_index.
  destruct ((0 <=? i) && (i <? Z.of_nat len)) eqn:Hin.
  - intros [= <-]. apply andb_true_iff in Hin as [_ Hlt]. apply Z.ltb_lt in Hlt. lia.
  - replace (i <? 0) with false by (symmetry; apply Z.ltb_ge; lia).
    rewrite andb_false_r. discriminate.
Qed.

(** The cells of a matrix after [m[i][j] = v], for indices from zero. *)
Lemma mat_set_lookup (m m' : matrix) (i j : Z) (v : float) :
  0 <= i -> 0 <= j -> mat_set m i j v = Ok m' ->
  exists row, m !! Z.to_nat i = Some row /\ (Z.to_nat j < length row)%nat /\
              m' = <[Z.to_nat i := <[Z.to_nat j := v]> row]> m.
Proof.
  intros Hi Hj. unfold mat_set.
  destruct (np_index i (length m)) as [i'|] eqn:Hi'; [|discriminate].
  apply np_index_nonneg in Hi' as [-> Hlt]; [|exact Hi].
  destruct (m !! Z.to_nat i) as [row|] eqn:Hrow; [|discriminate].
  destruct (np_index j (length row)) as [j'|] eqn:Hj'; [|discriminate].
  apply np_index_nonneg in Hj' as [-> Hltj]; [|exact Hj].
  intros [= <-]. exists row. auto.
Qed.

Lemma mat_set_square (n : nat) (m m' : matrix) (i j : Z) (v : float) :
  0 <= i -> 0 <= j -> mat_set m i j v = Ok m' -> square n m -> square n m'.
Proof.
  intros Hi Hj Hset [Hlen Hrows].
  apply mat_set_lookup in Hset as (row & Hrow & Hltj & ->); [|assumption..].
  split; [rewrite length_insert; exact Hlen|].
  intros k row' Hk. destruct (decide (k = Z.to_nat i)) as [->|Hne].
  - rewrite list_lookup_insert_eq in Hk by (eapply lookup_lt_Some; eassumption).
    injection Hk as <-. rewrite length_insert. eapply Hrows. exact Hrow.
  - rewrite list_lookup_insert_ne in Hk by auto. eapply Hrows. exact Hk.
Qed.

Lemma mat_set_triangular (m m' : matrix) (i j : Z) (v : float) :
  0 <= j <= i -> mat_set m i j v = Ok m' -> triangular m -> triangular m'.
Proof.
  intros Hji Hset Htri.
  apply mat_set_lookup in Hset as (row & Hrow & Hltj & ->); [|lia..].
  intros k l row' x Hk Hl Hkl. destruct (decide (k = Z.to_nat i)) as [->|Hne].
  - rewrite list_lookup_insert_eq in Hk by (eapply lookup_lt_Some; eassumption).
    injection Hk as <-. rewrite list_lookup_insert_ne in Hl by lia.
    eapply Htri; eassumption.
  - rewrite list_lookup_insert_ne in Hk by auto. eapply Htri; eassumption.
Qed.

Lemma full_square_triangular (n : nat) :
  square n (replicate n (replicate n neg_infinity)) /\
  triangular (replicate n (replicate n neg_infinity)).
Proof.
  split.
  - split; [apply length_replicate|]. intros i row Hrow.
    apply lookup_replicate in Hrow as [-> _]. apply length_replicate.
  - intros i j row v Hrow Hv _. apply lookup_replicate in Hrow as [-> _].
    apply lookup_replicate in Hv as [-> _]. reflexivity.
Qed.

(** *** The invariant of the metric matrices *)

Lemma metric_store_alloc (n0 n : nat) (m : matrix) :
  square n m -> triangular m ->
  hoare (metric_store n0 n) (alloc m)
        (fun r σ => metric_store n0 n σ /\ (n0 <= r)%nat) (metric_store n0 n).
Proof.
  intros Hsq Htri σ [Hlen Hall]. simpl. split; [|exact Hlen]. split.
  - rewrite length_app. simpl. lia.
  - intros r m' Hr Hm'. apply lookup_app_Some in Hm' as [Hold|[_ Hnew]].
    + apply (Hall r m' Hr Hold).
    + apply list_lookup_singleton_Some in Hnew as [_ <-]. auto.
Qed.

Lemma metric_store_copy (n0 n : nat) (template : ref) :
  (n0 <= template)%nat ->
  hoare (metric_store n0 n) (copy template)
        (fun r σ => metric_store n0 n σ /\ (n0 <= r)%nat) (metric_store n0 n).
Proof.
  intros Ht. unfold copy. eapply hoare_bind; [apply hoare_deref|].
  intros m σ [HI Hm]. destruct (proj2 HI template m Ht Hm) as [Hsq Htri].
  apply (metric_store_alloc n0 n m Hsq Htri σ HI).
Qed.

Lemma metric_store_write (n0 n : nat) (r : ref) (i j : Z) (v : option float) :
  0 <= j <= i ->
  hoare (metric_store n0 n) (mat_write r i j v) (fun _ => metric_store n0 n)
        (metric_store n0 n).
Proof.
  intros Hji σ HI. unfold mat_write. simpl.
  destruct v as [x|]; simpl; [|exact HI].
  destruct (σ !! r) as [m|] eqn:Hm; simpl; [|exact HI].
  destruct (mat_set m i j x) as [m'|e] eqn:Hset; simpl; [|exact HI].
  destruct HI as [Hlen Hall]. split; [rewrite length_insert; exact Hlen|].
  intros r' m2 Hr' Hm2. destruct (decide (r' = r)) as [->|Hne].
  - rewrite list_lookup_insert_eq in Hm2 by (eapply lookup_lt_Some; eassumption).
    injection Hm2 as <-. destruct (Hall r m Hr' Hm) as [Hsq Htri]. split.
    + eapply mat_set_square; [| |exact Hset|exact Hsq]; lia.
    + eapply mat_set_triangular; eassumption.
  - rewrite list_lookup_insert_ne in Hm2 by auto. apply (Hall r' m2 Hr' Hm2).
Qed.

Lemma metric_store_lift (n0 n : nat) {A} (m : W A) :
  hoare (metric_store n0 n) (lift m) (fun _ => metric_store n0 n) (metric_store n0 n).
Proof. apply hoare_lift. Qed.

Lemma elem_of_range (x lo hi : Z) : x ∈ range lo hi <-> lo <= x < hi.
Proof.
  unfold range. rewrite list_elem_of_fmap. split.
  - intros (i & -> & Hi). apply elem_of_seq in Hi. lia.
  - intros Hx. exists (Z.to_nat (x - lo)). split; [lia|]. apply elem_of_seq. lia.
Qed.

Lemma metric_store_create (n0 n : nat) (template : ref) (length width : nat) :
  (n0 <= template)%nat ->
  hoare (metric_store n0 n) (create_double_list_ref template length width)
        (fun _ => metric_store n0 n) (metric_store n0 n).
Proof.
  intros Ht. unfold create_double_list_ref.
  apply hoare_replicate_inv. apply hoare_replicate_inv.
  apply (hoare_conseq _ _ _ _ _ _ _ (metric_store_copy n0 n template Ht)); tauto.
Qed.

Lemma metric_store_record_cell (n0 n : nat) (mse_results rsq_results : list (list ref))
    (window backfill : Z) (rsq mse : list (list (option float))) (l_idx g_idx : nat) :
  0 <= backfill <= window ->
  hoare (metric_store n0 n)
        (record_cell mse_results rsq_results window backfill rsq mse l_idx g_idx)
        (fun _ => metric_store n0 n) (metric_store n0 n).
Proof.
  intros Hbw. unfold record_cell.
  eapply hoare_bind; [apply metric_store_lift|]. intros v. cbv beta.
  eapply hoare_bind; [apply metric_store_lift|]. intros r. cbv beta.
  eapply hoare_bind; [apply metric_store_write; exact Hbw|]. intros ?. cbv beta.
  eapply hoare_bind; [apply metric_store_lift|]. intros v'. cbv beta.
  eapply hoare_bind; [apply metric_store_lift|]. intros r'. cbv beta.
  apply metric_store_write. exact Hbw.
Qed.

Lemma metric_store_record_report (n0 n : nat) (report_path : string) (data : gmap key obs)
    (locations : list location) (groups : list group) (period : period)
    (mode model_type : string) (mse_results rsq_results : list (list ref))
    (window backfill : Z) :
  0 <= backfill <= window ->
  hoare (metric_store n0 n)
        (record_report report_path data locations groups period mode model_type
                       mse_results rsq_results window backfill)
        (fun _ => metric_store n0 n) (metric_store n0 n).
Proof.
  intros Hbw. unfold record_report.
  eapply hoare_bind; [apply metric_store_lift|]. intros [rsq mse]. cbv beta.
  apply hoare_foreach. intros l_idx [] _.
  apply hoare_foreach. intros g_idx [] _.
  apply metric_store_record_cell. exact Hbw.
Qed.

Lemma metric_store_record_sweep (n0 n : nat) (report_path : string) (data : gmap key obs)
    (locations : list location) (groups : list group) (period : period)
    (max_window : Z) (mode model_type : string)
    (mse_results rsq_results : list (list ref)) :
  hoare (metric_store n0 n)
        (record_sweep report_path data locations groups period max_window mode model_type
                      mse_results rsq_results)
        (fun _ => metric_store n0 n) (metric_store n0 n).
Proof.
  unfold record_sweep.
  apply hoare_foreach. intros window [] Hw. apply elem_of_range in Hw.
  apply hoare_foreach. intros backfill [] Hb. apply elem_of_range in Hb.
  apply metric_store_record_report. lia.
Qed.

Lemma metric_store_summarize (n0 n : nat) (report_path : string) (period : period)
    (locations : list location) (groups : list group)
    (mse_results rsq_results : list (list ref)) (results : summary_map) :
  hoare (metric_store n0 n)
        (summarize report_path period locations groups mse_results rsq_results results)
        (fun _ => metric_store n0 n) (metric_store n0 n).
Proof.
  unfold summarize.
  apply hoare_foreach. intros [l_idx location] s1 _.
  apply hoare_foreach. intros [g_idx group] s2 _.
  unfold summarize_cell.
  eapply hoare_bind; [apply hoare_lift|]. intros r1. cbv beta.
  eapply hoare_bind; [apply hoare_deref_inv|]. intros m1. cbv beta.
  eapply hoare_bind; [apply hoare_lift|]. intros ?. cbv beta.
  eapply hoare_bind; [apply hoare_lift|]. intros r2. cbv beta.
  eapply hoare_bind; [apply hoare_deref_inv|]. intros m2. cbv beta.
  eapply hoare_bind; [apply hoare_lift|]. intros ?. cbv beta.
  eapply hoare_bind; [apply hoare_lift|]. intros r3. cbv beta.
  eapply hoare_bind; [apply hoare_deref_inv|]. intros m3. cbv beta.
  eapply hoare_bind; [apply hoare_lift|]. intros best. cbv beta.
  apply hoare_ret. auto.
Qed.

Lemma metric_store_block (n0 n : nat) (report_path : string) (data : gmap key obs)
    (period : period) (max_window : Z) (mode model_type : string)
    (mse_record_mat rsq_record_mat : ref) (locations : list location)
    (groups : list group) (results : summary_map) :
  (n0 <= mse_record_mat)%nat -> (n0 <= rsq_record_mat)%nat ->
  hoare (metric_store n0 n)
        (experiment_block report_path data period max_window mode model_type
                          mse_record_mat rsq_record_mat locations groups results)
        (fun _ => metric_store n0 n) (metric_store n0 n).
Proof.
  intros Hm Hr. unfold experiment_block.
  eapply hoare_bind; [apply metric_store_create; exact Hm|]. intros mse_results. cbv beta.
  eapply hoare_bind; [apply metric_store_create; exact Hr|]. intros rsq_results. cbv beta.
  eapply hoare_bind; [apply metric_store_record_sweep|]. intros ?. cbv beta.
  apply metric_store_summarize.
Qed.

Lemma metric_store_period (n0 n : nat) (data : gmap key obs)
    (location_groups : list (list location)) (groupings : list (list group))
    (max_window : Z) (mode model_type : string) (mse_record_mat rsq_record_mat : ref)
    (period : period) (results : summary_map) :
  (n0 <= mse_record_mat)%nat -> (n0 <= rsq_record_mat)%nat ->
  hoare (metric_store n0 n)
        (experiment_period data location_groups groupings max_window mode model_type
                           mse_record_mat rsq_record_mat period results)
        (fun _ => metric_store n0 n) (metric_store n0 n).
Proof.
  intros Hm Hr. unfold experiment_period, ensure_dir.
  eapply hoare_bind; [apply metric_store_lift|]. intros ?. cbv beta.
  eapply hoare_bind.
  { apply hoare_foreach. intros state [] _. apply metric_store_lift. }
  intros ?. cbv beta.
  apply hoare_foreach. intros locations s1 _.
  apply hoare_foreach. intros groups s2 _.
  apply metric_store_block; assumption.
Qed.

Lemma metric_store_full (n0 : nat) (n : Z) :
  hoare (metric_store n0 (Z.to_nat n)) (np_full n neg_infinity)
        (fun r σ => metric_store n0 (Z.to_nat n) σ /\ (n0 <= r)%nat)
        (metric_store n0 (Z.to_nat n)).
Proof.
  unfold np_full. destruct (n <? 0).
  - intros σ HI. exact HI.
  - apply metric_store_alloc; apply full_square_triangular.
Qed.

Lemma metric_store_experiment (n0 : nat) (data : gmap key obs)
    (location_groups : list (list location)) (groupings : list (list group))
    (time_periods : list period) (max_window : Z) (mode model_type : string) :
  hoare (metric_store n0 (Z.to_nat (max_window + 1)))
        (run_nowcast_experiment data location_groups groupings time_periods max_window
                                mode model_type)
        (fun _ => metric_store n0 (Z.to_nat (max_window + 1)))
        (metric_store n0 (Z.to_nat (max_window + 1))).
Proof.
  unfold run_nowcast_experiment.
  eapply hoare_bind; [apply metric_store_full|]. intros mse_record_mat. cbv beta.
  intros σ [HI Hm]. revert σ HI.
  change (hoare (metric_store n0 (Z.to_nat (max_window + 1)))
    (rsq_record_mat ← np_full (max_window + 1) neg_infinity;
     results ← h_foreach time_periods
                 (experiment_period data location_groups groupings max_window mode
                                    model_type mse_record_mat rsq_record_mat) ∅;
     lift (emit (EvWriteData "./nowcast/results.txt" results)))
    (fun _ => metric_store n0 (Z.to_nat (max_window + 1)))
    (metric_store n0 (Z.to_nat (max_window + 1)))).
  eapply hoare_bind; [apply metric_store_full|]. intros rsq_record_mat. cbv beta.
  intros σ [HI Hr]. revert σ HI.
  change (hoare (metric_store n0 (Z.to_nat (max_window + 1)))
    (results ← h_foreach time_periods
                 (experiment_period data location_groups groupings max_window mode
                                    model_type mse_record_mat rsq_record_mat) ∅;
     lift (emit (EvWriteData "./nowcast/results.txt" results)))
    (fun _ => metric_store n0 (Z.to_nat (max_window + 1)))
    (metric_store n0 (Z.to_nat (max_window + 1)))).
  eapply hoare_bind.
  { apply hoare_foreach. intros period s1 _. apply metric_store_period; assumption. }
  intros results. cbv beta. apply metric_store_lift.
Qed.

(** *** Copies of the template *)

Lemma run_copy (σ : store) (template : ref) (M : matrix) :
  σ !! template = Some M ->
  run (copy template) σ = MkHR [] (σ ++ [M]) (Ok (length σ)).
Proof. intros Ht. unfold copy. rewrite run_bind. simpl. rewrite Ht. reflexivity. Qed.

Lemma run_replicate_copy (width : nat) (σ : store) (template : ref) (M : matrix) :
  σ !! template = Some M ->
  run (h_replicate width (copy template)) σ
  = MkHR [] (σ ++ replicate width M) (Ok ((fun g => (length σ + g)%nat) <$> seq 0 width)).
Proof.
  revert σ. induction width as [|n IH]; intros σ Ht.
  - simpl. rewrite app_nil_r. reflexivity.
  - change (h_replicate (S n) (copy template))
      with (x ← copy template; xs ← h_replicate n (copy template); mret (x :: xs)).
    rewrite run_bind, (run_copy σ template M Ht). cbn [h_outcome h_store h_trace].
    rewrite run_bind, (IH (σ ++ [M])) by (apply lookup_app_l_Some; exact Ht).
    cbn [h_outcome h_store h_trace run mret H_mret H_ret]. f_equal.
    + rewrite <- app_assoc. reflexivity.
    + f_equal. rewrite length_app. simpl. f_equal; [f_equal; lia|].
      rewrite <- fmap_S_seq, <- list_fmap_compose. apply list_fmap_ext.
      intros _ g _. simpl. lia.
Qed.

(** [create_double_list_ref] allocates one copy of the template per cell,
    row by row, and touches nothing else. *)
Lemma run_create_double_list_ref (length width : nat) (σ : store) (template : ref)
    (M : matrix) :
  σ !! template = Some M ->
  run (create_double_list_ref template length width) σ
  = MkHR [] (σ ++ replicate (length * width) M)
         (Ok (grid_refs (List.length σ) length width)).
Proof.
  unfold create_double_list_ref, grid_refs.
  revert σ. induction length as [|n IH]; intros σ Ht.
  - simpl. rewrite app_nil_r. reflexivity.
  - change (h_replicate (S n) (h_replicate width (copy template)))
      with (x ← h_replicate width (copy template);
            xs ← h_replicate n (h_replicate width (copy template)); mret (x :: xs)).
    rewrite run_bind, (run_replicate_copy width σ template M Ht).
    cbn [h_outcome h_store h_trace].
    rewrite run_bind, (IH (σ ++ replicate width M)) by (apply lookup_app_l_Some; exact Ht).
    cbn [h_outcome h_store h_trace run mret H_mret H_ret]. f_equal.
    + rewrite <- app_assoc, <- replicate_add. reflexivity.
    + f_equal. rewrite length_app, length_replicate. simpl. f_equal.
      * apply list_fmap_ext. intros _ g _. lia.
      * rewrite <- fmap_S_seq, <- list_fmap_compose. apply list_fmap_ext.
        intros _ l _. simpl. apply list_fmap_ext. intros _ g _. lia.
Qed.

Lemma grid_refs_cell_at (base length width l g : nat) :
  (l < length)%nat -> (g < width)%nat ->
  cell_at (grid_refs base length width) l g = Some (base + l * width + g)%nat.
Proof.
  intros Hl Hg. unfold cell_at, grid_refs.
  rewrite list_lookup_fmap, lookup_seq_lt by exact Hl. simpl.
  rewrite list_lookup_fmap, lookup_seq_lt by exact Hg. reflexivity.
Qed.

Lemma grid_refs_cell_at_inv (base length width l g : nat) (r : ref) :
  cell_at (grid_refs base length width) l g = Some r ->
  (l < length)%nat /\ (g < width)%nat /\ r = (base + l * width + g)%nat.
Proof.
  unfold cell_at, grid_refs. rewrite list_lookup_fmap.
  destruct (seq 0 length !! l) as [l'|] eqn:Hl; [|discriminate]. simpl.
  apply lookup_seq in Hl as [-> Hl]. rewrite list_lookup_fmap.
  destruct (seq 0 width !! g) as [g'|] eqn:Hg; [|discriminate]. simpl.
  apply lookup_seq in Hg as [-> Hg]. intros [= <-]. auto.
Qed.

(** *** Frames *)

Lemma hoare_lift_val {A} (P : store -> Prop) (m : W A) :
  hoare P (lift m) (fun a σ => P σ /\ outcome m = Ok a) P.
Proof. intros σ HP. simpl. destruct (outcome m); auto. Qed.

Lemma hoare_lift_true {A} (P : store -> Prop) (m : W A) :
  hoare P (lift m) (fun _ => P) (fun _ => True).
Proof. intros σ HP. simpl. destruct (outcome m); auto. Qed.

Lemma hoare_lift_val_true {A} (P : store -> Prop) (m : W A) :
  hoare P (lift m) (fun a σ => P σ /\ outcome m = Ok a) (fun _ => True).
Proof. intros σ HP. simpl. destruct (outcome m); auto. Qed.

Lemma hoare_pure {A} (P : store -> Prop) (F : Prop) (m : H A) (Q : A -> store -> Prop)
    (QE : store -> Prop) :
  (F -> hoare P m Q QE) -> hoare (fun σ => P σ /\ F) m Q QE.
Proof. intros Hm σ [HP HF]. apply (Hm HF σ HP). Qed.

Lemma same_outside_refl (S : ref -> Prop) (σ : store) : same_outside S σ σ.
Proof. split; auto. Qed.

Lemma mat_write_frame (S : ref -> Prop) (σ1 : store) (r : ref) (i j : Z) (v : option float) :
  S r ->
  hoare (same_outside S σ1) (mat_write r i j v) (fun _ => same_outside S σ1)
        (same_outside S σ1).
Proof.
  intros HS σ HI. unfold mat_write. simpl.
  destruct v as [x|]; simpl; [|exact HI].
  destruct (σ !! r) as [m|] eqn:Hm; simpl; [|exact HI].
  destruct (mat_set m i j x) as [m'|e] eqn:Hset; simpl; [|exact HI].
  destruct HI as [Hlen Hall]. split; [rewrite length_insert; exact Hlen|].
  intros r' Hr'. rewrite list_lookup_insert_ne by (intros ->; tauto). apply Hall, Hr'.
Qed.

Lemma record_cell_frame (S : ref -> Prop) (σ1 : store)
    (mse_results rsq_results : list (list ref)) (window backfill : Z)
    (rsq mse : list (list (option float))) (l_idx g_idx : nat) :
  (forall r, grid_get mse_results l_idx g_idx = Ok r -> S r) ->
  (forall r, grid_get rsq_results l_idx g_idx = Ok r -> S r) ->
  hoare (same_outside S σ1)
        (record_cell mse_results rsq_results window backfill rsq mse l_idx g_idx)
        (fun _ => same_outside S σ1) (same_outside S σ1).
Proof.
  intros Hm Hr. unfold record_cell.
  eapply hoare_bind; [apply hoare_lift|]. intros v. cbv beta.
  eapply hoare_bind; [apply hoare_lift_val|]. intros r. cbv beta.
  apply hoare_pure. intros Hget.
  eapply hoare_bind; [apply mat_write_frame; apply Hm; exact Hget|]. intros ?. cbv beta.
  eapply hoare_bind; [apply hoare_lift|]. intros v'. cbv beta.
  eapply hoare_bind; [apply hoare_lift_val|]. intros r'. cbv beta.
  apply hoare_pure. intros Hget'.
  apply mat_write_frame. apply Hr. exact Hget'.
Qed.

Lemma record_sweep_frame (S : ref -> Prop) (σ1 : store) (report_path : string)
    (data : gmap key obs) (locations : list location) (groups : list group)
    (period : period) (max_window : Z) (mode model_type : string)
    (mse_results rsq_results : list (list ref)) :
  (forall l g r, grid_get mse_results l g = Ok r -> S r) ->
  (forall l g r, grid_get rsq_results l g = Ok r -> S r) ->
  hoare (same_outside S σ1)
        (record_sweep report_path data locations groups period max_window mode model_type
                      mse_results rsq_results)
        (fun _ => same_outside S σ1) (same_outside S σ1).
Proof.
  intros Hm Hr. unfold record_sweep.
  apply hoare_foreach. intros window [] _.
  apply hoare_foreach. intros backfill [] _.
  unfold record_report.
  eapply hoare_bind; [apply hoare_lift|]. intros [rsq mse]. cbv beta iota.
  apply hoare_foreach. intros l_idx [] _.
  apply hoare_foreach. intros g_idx [] _.
  apply record_cell_frame; [apply Hm|apply Hr].
Qed.

Lemma mat_write_cells (σ1 : store) (r : ref) (i j : Z) (v : option float) :
  0 <= i -> 0 <= j ->
  hoare (same_cells_but (Z.to_nat i) (Z.to_nat j) σ1) (mat_write r i j v)
        (fun _ => same_cells_but (Z.to_nat i) (Z.to_nat j) σ1)
        (same_cells_but (Z.to_nat i) (Z.to_nat j) σ1).
Proof.
  intros Hi Hj σ HI. unfold mat_write. simpl.
  destruct v as [x|]; simpl; [|exact HI].
  destruct (σ !! r) as [m|] eqn:Hm; simpl; [|exact HI].
  destruct (mat_set m i j x) as [m'|e] eqn:Hset; simpl; [|exact HI].
  apply mat_set_lookup in Hset as (row & Hrow & Hlt & ->); [|assumption..].
  intros r' k l Hkl. rewrite <- (HI r' k l Hkl). unfold cellv.
  destruct (decide (r' = r)) as [->|Hne].
  - rewrite list_lookup_insert_eq by (eapply lookup_lt_Some; eassumption).
    rewrite Hm. simpl. destruct (decide (k = Z.to_nat i)) as [->|Hk].
    + rewrite list_lookup_insert_eq by (eapply lookup_lt_Some; eassumption).
      rewrite Hrow. simpl. apply list_lookup_insert_ne. congruence.
    + rewrite list_lookup_insert_ne by auto. reflexivity.
  - rewrite list_lookup_insert_ne by auto. reflexivity.
Qed.

(** A report writes no cell other than its own [(window, backfill)]. *)
Lemma record_report_cells (σ1 : store) (report_path : string) (data : gmap key obs)
    (locations : list location) (groups : list group) (period : period)
    (mode model_type : string) (mse_results rsq_results : list (list ref))
    (window backfill : Z) :
  0 <= window -> 0 <= backfill ->
  hoare (same_cells_but (Z.to_nat window) (Z.to_nat backfill) σ1)
        (record_report report_path data locations groups period mode model_type
                       mse_results rsq_results window backfill)
        (fun _ => same_cells_but (Z.to_nat window) (Z.to_nat backfill) σ1)
        (same_cells_but (Z.to_nat window) (Z.to_nat backfill) σ1).
Proof.
  intros Hw Hb. unfold record_report.
  eapply hoare_bind; [apply hoare_lift|]. intros [rsq mse]. cbv beta iota.
  apply hoare_foreach. intros l_idx [] _.
  apply hoare_foreach. intros g_idx [] _.
  unfold record_cell.
  eapply hoare_bind; [apply hoare_lift|]. intros v. cbv beta.
  eapply hoare_bind; [apply hoare_lift|]. intros r. cbv beta.
  eapply hoare_bind; [apply mat_write_cells; assumption|]. intros ?. cbv beta.
  eapply hoare_bind; [apply hoare_lift|]. intros v'. cbv beta.
  eapply hoare_bind; [apply hoare_lift|]. intros r'. cbv beta.
  apply mat_write_cells; assumption.
Qed.

Lemma hoare_run {A} (P : store -> Prop) (m : H A) (Q : store -> Prop) (σ : store) :
  hoare P m (fun _ => Q) Q -> P σ -> Q (h_store (run m σ)).
Proof. intros Hm HP. specialize (Hm σ HP). destruct (h_outcome (run m σ)); exact Hm. Qed.

(** C4: in every store that [run_nowcast_experiment] leaves, whether it
    returns or raises, each matrix it allocated is [max_window + 1] square
    and every cell [(window, backfill)] with [backfill > window] holds
    negative infinity, so a cell with another value has
    [0 <= backfill <= window <= max_window]; the reports are made for
    such pairs only, and a report writes no cell but its own. *)
Theorem experiment_cells_above_diagonal_stay_sentinel (data : gmap key obs)
    (location_groups : list (list location)) (groupings : list (list group))
    (time_periods : list period) (max_window : Z) (mode model_type : string)
    (σ0 : store) :
  let σ' := h_store (run (run_nowcast_experiment data location_groups groupings time_periods
                                                 max_window mode model_type) σ0) in
  (forall r window backfill v,
     (length σ0 <= r)%nat -> cellv σ' r window backfill = Some v ->
     ((window < backfill)%nat -> v = neg_infinity) /\
     (v <> neg_infinity -> (backfill <= window)%nat /\ Z.of_nat window <= max_window)) /\
  (forall window backfill,
     window ∈ range 0 (max_window + 1) -> backfill ∈ range 0 (window + 1) ->
     0 <= backfill <= window /\ window <= max_window) /\
  (forall report_path locations groups period mse_results rsq_results window backfill σ
          r i j,
     0 <= backfill <= window -> (i, j) <> (Z.to_nat window, Z.to_nat backfill) ->
     cellv (h_store (run (record_report report_path data locations groups period mode
                                        model_type mse_results rsq_results window backfill)
                         σ)) r i j
     = cellv σ r i j).
Proof.
  intros σ'. split; [|split].
  - assert (HI : metric_store (length σ0) (Z.to_nat (max_window + 1)) σ').
    { apply (hoare_run (metric_store (length σ0) (Z.to_nat (max_window + 1)))).
      - apply metric_store_experiment.
      - split; [lia|]. intros r m Hr Hm. apply lookup_lt_Some in Hm. lia. }
    intros r window backfill v Hr Hcell. unfold cellv in Hcell.
    destruct (σ' !! r) as [m|] eqn:Hm; [|discriminate]. simpl in Hcell.
    destruct (m !! window) as [row|] eqn:Hrow; [|discriminate]. simpl in Hcell.
    destruct (proj2 HI r m Hr Hm) as [[Hlen Hrows] Htri].
    assert (Hup : (window < backfill)%nat -> v = neg_infinity).
    { intros Hlt. eapply Htri; eassumption. }
    split; [exact Hup|]. intros Hv.
    apply lookup_lt_Some in Hrow. split; [|lia].
    destruct (le_lt_dec backfill window) as [Hle|Hlt]; [exact Hle|].
    exfalso. apply Hv, Hup, Hlt.
  - intros window backfill Hw Hb. apply elem_of_range in Hw, Hb. lia.
  - intros report_path locations groups period mse_results rsq_results window backfill σ
           r i j Hbw Hij.
    apply (hoare_run (same_cells_but (Z.to_nat window) (Z.to_nat backfill) σ)
             _ (same_cells_but (Z.to_nat window) (Z.to_nat backfill) σ)).
    + apply record_report_cells; lia.
    + intros r' k l _. reflexivity.
    + exact Hij.
Qed.

Lemma grid_index_inj (width l g l' g' : nat) :
  (g < width)%nat -> (g' < width)%nat ->
  (l * width + g = l' * width + g')%nat -> l = l' /\ g = g'.
Proof.
  intros Hg Hg' Heq.
  destruct (lt_eq_lt_dec l l') as [[Hlt|Heq']|Hlt].
  - assert ((l + 1) * width <= l' * width)%nat by (apply Nat.mul_le_mono_r; lia). lia.
  - subst l'. split; [reflexivity|lia].
  - assert ((l' + 1) * width <= l * width)%nat by (apply Nat.mul_le_mono_r; lia). lia.
Qed.

Lemma run_experiment_block (report_path : string) (data : gmap key obs)
    (results : summary_map) (period : period)
    (max_window : Z) (mode model_type : string) (mse_record_mat rsq_record_mat : ref)
    (locations : list location) (groups : list group)
    (σ : store) (M_mse M_rsq : matrix) :
  σ !! mse_record_mat = Some M_mse -> σ !! rsq_record_mat = Some M_rsq ->
  let cells := (length locations * length groups)%nat in
  run (experiment_block report_path data period max_window mode model_type
                        mse_record_mat rsq_record_mat locations groups results) σ
  = run (record_sweep report_path data locations groups period max_window mode model_type
                      (grid_refs (length σ) (length locations) (length groups))
                      (grid_refs (length σ + cells) (length locations) (length groups));;
         summarize report_path period locations groups
                   (grid_refs (length σ) (length locations) (length groups))
                   (grid_refs (length σ + cells) (length locations) (length groups))
                   results)
        (σ ++ replicate cells M_mse ++ replicate cells M_rsq).
Proof.
  intros Hm Hr cells. unfold experiment_block.
  rewrite run_bind, (run_create_double_list_ref _ _ σ mse_record_mat M_mse Hm).
  cbn [h_outcome h_store h_trace].
  rewrite run_bind, (run_create_double_list_ref _ _ _ rsq_record_mat M_rsq)
    by (apply lookup_app_l_Some; exact Hr).
  cbn [h_outcome h_store h_trace]. rewrite length_app, length_replicate, <- app_assoc.
  fold cells.
  destruct (run _ (σ ++ replicate cells M_mse ++ replicate cells M_rsq)) as [t σ' o].
  reflexivity.
Qed.

(** C9: a block of [run_nowcast_experiment] gives every pair
    [(location, group)] two new objects of its own, copies of the two
    templates, and then runs on them; the references of different pairs,
    of the two grids and of the templates all differ; recording the
    metrics of one pair leaves the matrices of every other pair and both
    templates as they were; and the whole sweep leaves every object that
    existed before the block, the templates among them, as it was. *)
Theorem experiment_matrices_are_private_copies (report_path : string)
    (data : gmap key obs) (results : summary_map) (period : period)
    (max_window : Z) (mode model_type : string) (mse_record_mat rsq_record_mat : ref)
    (locations : list location) (groups : list group)
    (σ : store) (M_mse M_rsq : matrix) :
  σ !! mse_record_mat = Some M_mse -> σ !! rsq_record_mat = Some M_rsq ->
  let cells := (length locations * length groups)%nat in
  let mse_results := grid_refs (length σ) (length locations) (length groups) in
  let rsq_results := grid_refs (length σ + cells) (length locations) (length groups) in
  let σ1 := σ ++ replicate cells M_mse ++ replicate cells M_rsq in
  run (experiment_block report_path data period max_window mode model_type
                        mse_record_mat rsq_record_mat locations groups results) σ
  = run (record_sweep report_path data locations groups period max_window mode model_type
                      mse_results rsq_results;;
         summarize report_path period locations groups mse_results rsq_results results) σ1 /\
  (forall l g, (l < length locations)%nat -> (g < length groups)%nat ->
     exists r_mse r_rsq,
       grid_get mse_results l g = Ok r_mse /\ grid_get rsq_results l g = Ok r_rsq /\
       σ1 !! r_mse = Some M_mse /\ σ1 !! r_rsq = Some M_rsq /\
       (length σ <= r_mse)%nat /\ (length σ <= r_rsq)%nat) /\
  (forall l g l' g' r r',
     (grid_get mse_results l g = Ok r \/ grid_get rsq_results l g = Ok r) ->
     (grid_get mse_results l' g' = Ok r' \/ grid_get rsq_results l' g' = Ok r') ->
     (l, g) <> (l', g') -> r <> r') /\
  (forall l g r r',
     grid_get mse_results l g = Ok r -> grid_get rsq_results l g = Ok r' -> r <> r') /\
  (forall r, (r < length σ)%nat -> σ1 !! r = σ !! r) /\
  (forall σ2 window backfill rsq mse l g,
     let σ3 := h_store (run (record_cell mse_results rsq_results window backfill
                                         rsq mse l g) σ2) in
     (forall l' g' r',
        (l', g') <> (l, g) ->
        grid_get mse_results l' g' = Ok r' \/ grid_get rsq_results l' g' = Ok r' ->
        σ3 !! r' = σ2 !! r') /\
     σ3 !! mse_record_mat = σ2 !! mse_record_mat /\
     σ3 !! rsq_record_mat = σ2 !! rsq_record_mat) /\
  (forall σ2 r,
     (r < length σ)%nat ->
     h_store (run (record_sweep report_path data locations groups period max_window mode
                                model_type mse_results rsq_results) σ2) !! r
     = σ2 !! r).
Proof.
  intros Hm Hr cells mse_results rsq_results σ1.
  assert (Hmse : forall l g r, grid_get mse_results l g = Ok r ->
            (l < length locations)%nat /\ (g < length groups)%nat /\
            r = (length σ + l * length groups + g)%nat).
  { intros l g r Hget. apply grid_get_cell_at, grid_refs_cell_at_inv in Hget. exact Hget. }
  assert (Hrsq : forall l g r, grid_get rsq_results l g = Ok r ->
            (l < length locations)%nat /\ (g < length groups)%nat /\
            r = (length σ + cells + l * length groups + g)%nat).
  { intros l g r Hget. apply grid_get_cell_at, grid_refs_cell_at_inv in Hget. exact Hget. }
  assert (Hbound : forall l g, (l < length locations)%nat -> (g < length groups)%nat ->
            (l * length groups + g < cells)%nat).
  { intros l g Hl Hg. subst cells. nia. }
  assert (Htm : (mse_record_mat < length σ)%nat) by (eapply lookup_lt_Some; eassumption).
  assert (Htr : (rsq_record_mat < length σ)%nat) by (eapply lookup_lt_Some; eassumption).
  split; [|split; [|split; [|split; [|split; [|split]]]]].
  - apply run_experiment_block; assumption.
  - intros l g Hl Hg. specialize (Hbound l g Hl Hg).
    exists (length σ + l * length groups + g)%nat,
           (length σ + cells + l * length groups + g)%nat.
    split; [apply grid_get_cell_at, grid_refs_cell_at; assumption|].
    split; [apply grid_get_cell_at, grid_refs_cell_at; assumption|].
    subst σ1. split; [|split; [|split; lia]].
    + rewrite lookup_app_r by lia. rewrite lookup_app_l by (rewrite length_replicate; lia).
      apply lookup_replicate_2. lia.
    + rewrite lookup_app_r by lia.
      rewrite lookup_app_r by (rewrite length_replicate; lia).
      rewrite length_replicate. apply lookup_replicate_2. lia.
  - intros l g l' g' r r' Ha Hb Hne Heq. subst r'. apply Hne.
    destruct Ha as [Ha|Ha]; [apply Hmse in Ha|apply Hrsq in Ha];
      destruct Hb as [Hb|Hb]; [apply Hmse in Hb| apply Hrsq in Hb
                              |apply Hmse in Hb| apply Hrsq in Hb];
      destruct Ha as (Hl & Hg & ->); destruct Hb as (Hl' & Hg' & Heq);
      pose proof (Hbound l g Hl Hg); pose proof (Hbound l' g' Hl' Hg');
      try lia;
      (destruct (grid_index_inj (length groups) l g l' g') as [-> ->]; [lia..|reflexivity]).
  - intros l g r r' Ha Hb ->. apply Hmse in Ha as (Hl & Hg & Ha).
    apply Hrsq in Hb as (_ & _ & Hb). pose proof (Hbound l g Hl Hg). lia.
  - intros r Hlt. subst σ1. apply lookup_app_l. exact Hlt.
  - intros σ2 window backfill rsq mse l g σ3.
    pose (S := fun r : ref => grid_get mse_results l g = Ok r \/
                              grid_get rsq_results l g = Ok r).
    assert (Hsame : same_outside S σ2 σ3).
    { apply (hoare_run (same_outside S σ2) _ (same_outside S σ2)).
      - apply record_cell_frame; intros r Hget; [left|right]; exact Hget.
      - apply same_outside_refl. }
    split; [|split].
    + intros l' g' r' Hne Hget. apply (proj2 Hsame). intros Hin.
      assert (Hl : (l, g) = (l', g')).
      { destruct Hin as [Ha|Ha]; [apply Hmse in Ha|apply Hrsq in Ha];
          destruct Hget as [Hb|Hb]; [apply Hmse in Hb| apply Hrsq in Hb
                                    |apply Hmse in Hb| apply Hrsq in Hb];
          destruct Ha as (Hl & Hg & Heq); destruct Hb as (Hl' & Hg' & ->);
          pose proof (Hbound l g Hl Hg); pose proof (Hbound l' g' Hl' Hg');
          try lia;
          (destruct (grid_index_inj (length groups) l g l' g') as [-> ->]; [lia..|reflexivity]). }
      apply Hne. symmetry. exact Hl.
    + apply (proj2 Hsame). intros [Ha|Ha]; [apply Hmse in Ha|apply Hrsq in Ha]; lia.
    + apply (proj2 Hsame). intros [Ha|Ha]; [apply Hmse in Ha|apply Hrsq in Ha]; lia.
  - intros σ2 r Hlt.
    pose (S := fun r : ref => (length σ <= r)%nat).
    assert (Hsame : same_outside S σ2
              (h_store (run (record_sweep report_path data locations groups period max_window
                                          mode model_type mse_results rsq_results) σ2))).
    { apply (hoare_run (same_outside S σ2) _ (same_outside S σ2)).
      - apply record_sweep_frame; intros l g r' Hget;
          [apply Hmse in Hget|apply Hrsq in Hget]; unfold S; lia.
      - apply same_outside_refl. }
    apply (proj2 Hsame). unfold S. lia.
Qed.

(** *** The contents of the metric matrices *)

(** A loop with an invariant that counts the elements processed; nothing is
    claimed when the loop raises. *)
Lemma hoare_foreach_idx {A St} (Inv : nat -> St -> store -> Prop) (xs : list A)
    (body : A -> St -> H St) (s : St) :
  (forall k x s1, xs !! k = Some x ->
     hoare (Inv k s1) (body x s1) (fun s2 => Inv (S k) s2) (fun _ => True)) ->
  hoare (Inv 0%nat s) (h_foreach xs body s) (fun s' => Inv (length xs) s') (fun _ => True).
Proof.
  revert Inv s. induction xs as [|x xs IH]; intros Inv s Hbody; simpl.
  - apply hoare_ret. auto.
  - eapply hoare_bind.
    + apply (Hbody 0%nat x s). reflexivity.
    + intros s1. apply (IH (fun k => Inv (S k))). intros k y s2 Hy.
      apply (Hbody (S k) y s2). exact Hy.
Qed.

Lemma content_equiv (refs : nat -> nat -> ref) (nl ng n : nat)
    (f : nat -> nat -> nat -> nat -> float) (V V' : nat -> nat -> nat -> nat -> Prop)
    (σ : store) :
  (forall l g i j, (l < nl)%nat -> (g < ng)%nat -> (i < n)%nat -> (j < n)%nat ->
     (V i j l g <-> V' i j l g)) ->
  content refs nl ng n f V σ -> content refs nl ng n f V' σ.
Proof.
  intros Heq Hc l g i j Hl Hg Hi Hj. destruct (Hc l g i j Hl Hg Hi Hj) as [Hin Hout].
  specialize (Heq l g i j Hl Hg Hi Hj). split; intros HV; [apply Hin|apply Hout]; tauto.
Qed.

(** A write through a reference that belongs to no pair of the grid. *)
Lemma mat_write_content_other (refs : nat -> nat -> ref) (nl ng n : nat)
    (f : nat -> nat -> nat -> nat -> float) (V : nat -> nat -> nat -> nat -> Prop)
    (r : ref) (i j : Z) (v : option float) :
  (forall l g, (l < nl)%nat -> (g < ng)%nat -> refs l g <> r) ->
  hoare (content refs nl ng n f V) (mat_write r i j v)
        (fun _ => content refs nl ng n f V) (fun _ => True).
Proof.
  intros Hne σ Hc. unfold mat_write. simpl.
  destruct v as [x|]; simpl; [|exact I].
  destruct (σ !! r) as [m|] eqn:Hm; simpl; [|exact I].
  destruct (mat_set m i j x) as [m'|e] eqn:Hset; simpl; [|exact I].
  intros l g k k' Hl Hg Hk Hk'. unfold cellv.
  rewrite list_lookup_insert_ne by (intros Heq; apply (Hne l g Hl Hg); auto).
  apply (Hc l g k k' Hl Hg Hk Hk').
Qed.

(** The write of the value of the pair [(a, a')] at the cell [(k, k')]. *)
Lemma mat_write_content_at (refs : nat -> nat -> ref) (nl ng n : nat)
    (f : nat -> nat -> nat -> nat -> float) (V V' : nat -> nat -> nat -> nat -> Prop)
    (a a' k k' : nat) (v : option float) :
  (forall l g, (l < nl)%nat -> (g < ng)%nat -> refs l g = refs a a' -> l = a /\ g = a') ->
  (a < nl)%nat -> (a' < ng)%nat ->
  (forall x, v = Some x -> x = f a a' k k') ->
  (forall l g i j, (l < nl)%nat -> (g < ng)%nat -> (i < n)%nat -> (j < n)%nat ->
     (V' i j l g <-> V i j l g \/ (i = k /\ j = k' /\ l = a /\ g = a'))) ->
  hoare (content refs nl ng n f V)
        (mat_write (refs a a') (Z.of_nat k) (Z.of_nat k') v)
        (fun _ => content refs nl ng n f V') (fun _ => True).
Proof.
  intros Hinj Ha Ha' Hv HV σ Hc. unfold mat_write. simpl.
  destruct v as [x|]; simpl; [|exact I].
  destruct (σ !! refs a a') as [m|] eqn:Hm; simpl; [|exact I].
  destruct (mat_set m (Z.of_nat k) (Z.of_nat k') x) as [m'|e] eqn:Hset; simpl; [|exact I].
  apply mat_set_lookup in Hset as (row & Hrow & Hlt & ->); [|lia..].
  rewrite !Nat2Z.id in *. specialize (Hv x eq_refl). subst x.
  intros l g i j Hl Hg Hi Hj. specialize (HV l g i j Hl Hg Hi Hj).
  destruct (Hc l g i j Hl Hg Hi Hj) as [Hin Hout]. unfold cellv in *.
  destruct (decide (refs l g = refs a a')) as [Heq|Hne].
  - destruct (Hinj l g Hl Hg Heq) as [-> ->].
    rewrite list_lookup_insert_eq by (eapply lookup_lt_Some; eassumption).
    rewrite Hm in Hin, Hout. simpl in *.
    destruct (decide (i = k)) as [->|Hik].
    + rewrite list_lookup_insert_eq by (eapply lookup_lt_Some; eassumption).
      rewrite Hrow in Hin, Hout. simpl in *.
      destruct (decide (j = k')) as [->|Hjk].
      * rewrite list_lookup_insert_eq by exact Hlt.
        split; [reflexivity|]. intros Hnot. exfalso. apply Hnot, HV. right. auto.
      * rewrite list_lookup_insert_ne by auto.
        split; intros HV'; [apply Hin|apply Hout]; intuition lia.
    + rewrite list_lookup_insert_ne by auto.
      split; intros HV'; [apply Hin|apply Hout]; intuition lia.
  - rewrite list_lookup_insert_ne by auto.
    split; intros HV'; [apply Hin|apply Hout]; intuition congruence.
Qed.

Lemma range_lookup (hi : Z) (k : nat) (x : Z) :
  range 0 hi !! k = Some x -> x = Z.of_nat k /\ Z.of_nat k < hi.
Proof.
  unfold range. rewrite list_lookup_fmap.
  destruct (seq 0 (Z.to_nat (hi - 0)) !! k) as [i|] eqn:Hi; [|discriminate].
  apply lookup_seq in Hi as [-> Hlt]. intros [= <-]. lia.
Qed.

Lemma length_range (hi : Z) : length (range 0 hi) = Z.to_nat hi.
Proof. unfold range. rewrite length_fmap, length_seq. f_equal. lia. Qed.

Lemma seq_lookup_inv (n k x : nat) : seq 0 n !! k = Some x -> x = k /\ (k < n)%nat.
Proof. intros Hk. apply lookup_seq in Hk. lia. Qed.

Section Content.
Variables (report_path : string) (data : gmap key obs).
Variables (locations : list location) (groups : list group).
Variables (time_period : period) (mode model_type : string) (base n : nat).

Let nl := length locations.
Let ng := length groups.
Let mse_results := grid_refs base nl ng.
Let rsq_results := grid_refs (base + nl * ng) nl ng.
Let Rr := fun l g : nat => (base + nl * ng + l * ng + g)%nat.
Let f := reported_rsq report_path data locations groups time_period mode model_type.

Lemma record_cell_content (k k' a a' : nat) (rsq mse : list (list (option float))) :
  outcome (nowcast_report report_path data locations groups time_period
                          (Z.of_nat k) (Z.of_nat k') mode model_type) = Ok (rsq, mse) ->
  (a < nl)%nat -> (a' < ng)%nat ->
  hoare (content Rr nl ng n f (visited k k' a a'))
        (record_cell mse_results rsq_results (Z.of_nat k) (Z.of_nat k') rsq mse a a')
        (fun _ => content Rr nl ng n f (visited k k' a (S a'))) (fun _ => True).
Proof.
  intros Hrep Ha Ha'. unfold record_cell.
  assert (Hbound : forall l g, (l < nl)%nat -> (g < ng)%nat -> (l * ng + g < nl * ng)%nat).
  { intros l g Hl Hg. nia. }
  eapply hoare_bind; [apply hoare_lift_true|].
  intros v. cbv beta.
  eapply hoare_bind; [apply hoare_lift_val_true|].
  intros r. cbv beta. apply hoare_pure. intros Hr. simpl in Hr.
  apply grid_get_cell_at, grid_refs_cell_at_inv in Hr as (_ & _ & ->).
  eapply hoare_bind.
  { apply mat_write_content_other. intros l g Hl Hg. unfold Rr.
    pose proof (Hbound a a' Ha Ha'). lia. }
  intros ?. cbv beta.
  eapply hoare_bind; [apply hoare_lift_val_true|].
  intros v'. cbv beta. apply hoare_pure. intros Hv'. simpl in Hv'.
  eapply hoare_bind; [apply hoare_lift_val_true|].
  intros r'. cbv beta. apply hoare_pure. intros Hr'. simpl in Hr'.
  apply grid_get_cell_at, grid_refs_cell_at_inv in Hr' as (_ & _ & ->).
  change (base + nl * ng + a * ng + a')%nat with (Rr a a').
  apply mat_write_content_at; try assumption.
  - intros l g Hl Hg Heq. unfold Rr in Heq.
    apply (grid_index_inj ng l g a a'); lia.
  - intros x ->. unfold f, reported_rsq. rewrite Hrep, Hv'. reflexivity.
  - intros l g i j Hl Hg Hi Hj. unfold visited. lia.
Qed.

Lemma record_report_content (k k' : nat) :
  hoare (content Rr nl ng n f (visited k k' 0 0))
        (record_report report_path data locations groups time_period mode model_type
                       mse_results rsq_results (Z.of_nat k) (Z.of_nat k'))
        (fun _ => content Rr nl ng n f (visited k (S k') 0 0)) (fun _ => True).
Proof.
  unfold record_report.
  eapply hoare_bind; [apply hoare_lift_val_true|].
  intros [rsq mse]. cbv beta iota. apply hoare_pure. intros Hrep.
  eapply hoare_conseq;
    [apply (hoare_foreach_idx (fun a _ => content Rr nl ng n f (visited k k' a 0)))
    |auto| |auto].
  - intros a x [] Hx. apply seq_lookup_inv in Hx as [-> Ha].
    eapply hoare_conseq;
      [apply (hoare_foreach_idx (fun a' _ => content Rr nl ng n f (visited k k' a a')))
      |auto| |auto].
    + intros a' x [] Hx. apply seq_lookup_inv in Hx as [-> Ha'].
      apply record_cell_content; assumption.
    + intros [] σ Hc. rewrite length_seq in Hc. revert Hc. apply content_equiv.
      intros l g i j Hl Hg Hi Hj. unfold visited. lia.
  - intros [] σ Hc. rewrite length_seq in Hc. revert Hc. apply content_equiv.
    intros l g i j Hl Hg Hi Hj. unfold visited. lia.
Qed.

Lemma record_sweep_content (max_window : Z) :
  hoare (content Rr nl ng n f (visited 0 0 0 0))
        (record_sweep report_path data locations groups time_period max_window mode
                      model_type mse_results rsq_results)
        (fun _ => content Rr nl ng n f (visited (Z.to_nat (max_window + 1)) 0 0 0))
        (fun _ => True).
Proof.
  unfold record_sweep.
  eapply hoare_conseq;
    [apply (hoare_foreach_idx (fun k _ => content Rr nl ng n f (visited k 0 0 0)))
    |auto| |auto].
  - intros k x [] Hx. apply range_lookup in Hx as [-> Hk].
    eapply hoare_conseq;
      [apply (hoare_foreach_idx (fun k' _ => content Rr nl ng n f (visited k k' 0 0)))
      |auto| |auto].
    + intros k' x [] Hx. apply range_lookup in Hx as [-> Hk'].
      apply record_report_content.
    + intros [] σ Hc. rewrite length_range in Hc. revert Hc. apply content_equiv.
      intros l g i j Hl Hg Hi Hj. unfold visited. lia.
  - intros [] σ Hc. rewrite length_range in Hc. exact Hc.
Qed.

End Content.

(** *** The summary *)

Lemma hoare_deref_eq (σf : store) (r : ref) :
  hoare (fun σ => σ = σf) (deref r) (fun m σ => σ = σf /\ σf !! r = Some m) (fun _ => True).
Proof. intros σ ->. simpl. destruct (σf !! r); auto. Qed.

Lemma summarize_cell_spec (σf : store) (report_path : string) (results : summary_map)
    (period : period) (mse_results rsq_results : list (list ref))
    (l_idx : nat) (location : location) (g_idx : nat) (group : group) :
  hoare (fun σ => σ = σf)
        (summarize_cell report_path period mse_results rsq_results
                        l_idx location g_idx group results)
        (fun results' σ =>
           σ = σf /\
           exists r m v, grid_get rsq_results l_idx g_idx = Ok r /\ σf !! r = Some m /\
                         amax m = Ok v /\ results' = <[(period, group) := v]> results)
        (fun _ => True).
Proof.
  unfold summarize_cell.
  eapply hoare_bind; [apply hoare_lift_true|]. intros r1. cbv beta.
  eapply hoare_bind.
  { eapply hoare_conseq; [apply (hoare_deref_eq σf r1)|auto| |auto].
    intros m σ [Hσ _]. exact Hσ. }
  intros m1. cbv beta.
  eapply hoare_bind; [apply hoare_lift_true|]. intros ?. cbv beta.
  eapply hoare_bind; [apply hoare_lift_true|]. intros r2. cbv beta.
  eapply hoare_bind.
  { eapply hoare_conseq; [apply (hoare_deref_eq σf r2)|auto| |auto].
    intros m σ [Hσ _]. exact Hσ. }
  intros m2. cbv beta.
  eapply hoare_bind; [apply hoare_lift_true|]. intros ?. cbv beta.
  eapply hoare_bind; [apply hoare_lift_val_true|]. intros r3. cbv beta.
  apply hoare_pure. intros Hr3. simpl in Hr3.
  eapply hoare_bind; [apply hoare_deref_eq|]. intros m3. cbv beta.
  apply hoare_pure. intros Hm3.
  eapply hoare_bind; [apply hoare_lift_val_true|]. intros best. cbv beta.
  apply hoare_pure. intros Hbest. simpl in Hbest.
  apply hoare_ret. intros σ ->. split; [reflexivity|].
  exists r3, m3, best. auto.
Qed.

(** After [summarize], the entry of [(period, group)] is the maximum of the
    R-squared matrix of the last location, for each group of the block. *)
Lemma summarize_last (σf : store) (report_path : string) (results : summary_map)
    (period : period) (locations : list location) (groups : list group)
    (mse_results rsq_results : list (list ref)) :
  hoare (fun σ => σ = σf)
        (summarize report_path period locations groups mse_results rsq_results results)
        (fun results' σ =>
           σ = σf /\
           forall l_last g_idx group,
             length locations = S l_last -> groups !! g_idx = Some group ->
             (forall j, (g_idx < j)%nat -> groups !! j <> Some group) ->
             exists r m v, grid_get rsq_results l_last g_idx = Ok r /\ σf !! r = Some m /\
                           amax m = Ok v /\ results' !! (period, group) = Some v)
        (fun _ => True).
Proof.
  unfold summarize.
  eapply hoare_conseq;
    [apply (hoare_foreach_idx (fun a (res : summary_map) σ =>
       σ = σf /\
       forall a0 g_idx group,
         a = S a0 -> groups !! g_idx = Some group ->
         (forall j, (g_idx < j)%nat -> groups !! j <> Some group) ->
         exists r m v, grid_get rsq_results a0 g_idx = Ok r /\ σf !! r = Some m /\
                       amax m = Ok v /\ res !! (period, group) = Some v))
    | | |auto].
  - intros a [a1 location] res1 Hx. apply enumerate_lookup in Hx as [-> Hloc].
    eapply hoare_conseq;
      [apply (hoare_foreach_idx (fun a' (res : summary_map) σ =>
         σ = σf /\
         forall g_idx group,
           (g_idx < a')%nat -> groups !! g_idx = Some group ->
           (forall j, (g_idx < j < a')%nat -> groups !! j <> Some group) ->
           exists r m v, grid_get rsq_results a g_idx = Ok r /\ σf !! r = Some m /\
                         amax m = Ok v /\ res !! (period, group) = Some v))
      | | |auto].
    + intros a' [a2 group'] res2 Hx. apply enumerate_lookup in Hx as [-> Hgrp'].
      apply hoare_pure. intros IH.
      eapply hoare_conseq; [apply (summarize_cell_spec σf)|auto| |auto].
      intros res3 σ [-> (r & m & v & Hr & Hm & Hv & ->)].
      split; [reflexivity|]. intros g_idx group Hlt Hgrp Hlast.
      destruct (decide (g_idx = a')) as [->|Hne].
      * rewrite Hgrp' in Hgrp. injection Hgrp as ->.
        exists r, m, v. rewrite lookup_insert_eq. auto.
      * assert (Hdiff : group <> group').
        { intros ->. apply (Hlast a'); [lia|exact Hgrp']. }
        destruct (IH g_idx group) as (r0 & m0 & v0 & Hr0 & Hm0 & Hv0 & Hres);
          [lia|exact Hgrp|intros j Hj; apply Hlast; lia|].
        exists r0, m0, v0. rewrite lookup_insert_ne by congruence. auto.
    + intros σ [Hσ _]. split; [exact Hσ|]. intros g_idx group Hlt. lia.
    + intros res2 σ [Hσ Hall]. split; [exact Hσ|].
      intros a0 g_idx group [= <-] Hgrp Hlast. rewrite length_enumerate in Hall.
      apply Hall; [eapply lookup_lt_Some; exact Hgrp|exact Hgrp|].
      intros j [Hj _]. apply Hlast, Hj.
  - intros σ ->. split; [reflexivity|]. intros a0 g_idx group [=].
  - intros res σ [Hσ Hall]. split; [exact Hσ|].
    intros l_last g_idx group Hlen. apply Hall. rewrite length_enumerate. exact Hlen.
Qed.

Lemma hoare_run_ok {A} (P : store -> Prop) (m : H A) (Q : A -> store -> Prop)
    (QE : store -> Prop) (σ : store) (a : A) :
  hoare P m Q QE -> P σ -> h_outcome (run m σ) = Ok a -> Q a (h_store (run m σ)).
Proof. intros Hm HP Hok. specialize (Hm σ HP). rewrite Hok in Hm. exact Hm. Qed.

Lemma content_initial (σ : store) (nl ng n : nat) (M : matrix)
    (f : nat -> nat -> nat -> nat -> float) :
  content (fun l g => (length σ + nl * ng + l * ng + g)%nat) nl ng n f (visited 0 0 0 0)
          (σ ++ replicate (nl * ng) M
             ++ replicate (nl * ng) (replicate n (replicate n neg_infinity))).
Proof.
  intros l g i j Hl Hg Hi Hj. split; [unfold visited; lia|]. intros _.
  assert ((l * ng + g < nl * ng)%nat) by nia.
  unfold cellv. rewrite lookup_app_r by lia.
  rewrite lookup_app_r by (rewrite length_replicate; lia). rewrite length_replicate.
  rewrite lookup_replicate_2 by lia. simpl.
  rewrite lookup_replicate_2 by lia. simpl.
  apply lookup_replicate_2. lia.
Qed.

Lemma content_final_matrix (refs : nat -> nat -> ref) (nl ng n : nat)
    (f : nat -> nat -> nat -> nat -> float) (σ : store) (l g : nat) (m : matrix) :
  content refs nl ng n f (visited n 0 0 0) σ ->
  (l < nl)%nat -> (g < ng)%nat -> σ !! refs l g = Some m -> square n m ->
  m = triangle_matrix n (f l g).
Proof.
  intros Hc Hl Hg Hm [Hlen Hrows]. apply list_eq. intros i. unfold triangle_matrix.
  rewrite list_lookup_fmap. destruct (decide (i < n)%nat) as [Hi|Hi].
  - rewrite lookup_seq_lt by exact Hi. simpl.
    destruct (m !! i) as [row|] eqn:Hrow;
      [|apply lookup_ge_None_1 in Hrow; lia].
    f_equal. apply list_eq. intros j. rewrite list_lookup_fmap.
    pose proof (Hrows i row Hrow) as Hrl.
    destruct (decide (j < n)%nat) as [Hj|Hj].
    + rewrite lookup_seq_lt by exact Hj. simpl.
      destruct (Hc l g i j Hl Hg Hi Hj) as [Hin Hout].
      unfold cellv in Hin, Hout. rewrite Hm in Hin, Hout. simpl in Hin, Hout.
      rewrite Hrow in Hin, Hout. simpl in Hin, Hout.
      destruct (j <=? i)%nat eqn:Hji.
      * apply Hin. unfold visited. apply Nat.leb_le in Hji. lia.
      * apply Hout. unfold visited. apply Nat.leb_gt in Hji. lia.
    + rewrite (lookup_ge_None_2 (seq 0 n)) by (rewrite length_seq; lia).
      simpl. apply lookup_ge_None_2. lia.
  - rewrite (lookup_ge_None_2 (seq 0 n)) by (rewrite length_seq; lia).
    simpl. apply lookup_ge_None_2. lia.
Qed.

(** C6, as the code has it: when a block of [run_nowcast_experiment] has
    run, the summary maps [(period, group)], for every group of the block,
    to [np.amax] of the R-squared matrix of the last location of the block
    alone: the matrix that holds, for each [backfill <= window], the
    R-squared reported for that location and group, and the sentinel above
    the diagonal. The entry is that scalar: no location and no grid
    position is stored with it. *)
Theorem summary_is_maximum_of_last_location (report_path : string) (data : gmap key obs)
    (results results' : summary_map) (period : period)
    (max_window : Z) (mode model_type : string) (mse_record_mat rsq_record_mat : ref)
    (locations : list location) (groups : list group) (σ : store)
    (l_last g_idx : nat) (group : group) :
  let n := Z.to_nat (max_window + 1) in
  σ !! mse_record_mat = Some (replicate n (replicate n neg_infinity)) ->
  σ !! rsq_record_mat = Some (replicate n (replicate n neg_infinity)) ->
  h_outcome (run (experiment_block report_path data period max_window mode model_type
                                   mse_record_mat rsq_record_mat locations groups results)
                 σ) = Ok results' ->
  length locations = S l_last ->
  groups !! g_idx = Some group ->
  (forall j, (g_idx < j)%nat -> groups !! j <> Some group) ->
  exists v,
    results' !! (period, group) = Some v /\
    amax (triangle_matrix n (reported_rsq report_path data locations groups period mode
                                          model_type l_last g_idx)) = Ok v.
Proof.
  intros n Hm Hr Hok Hlen Hgrp Hlast.
  rewrite (run_experiment_block _ _ _ _ _ _ _ _ _ _ _ σ _ _ Hm Hr) in Hok.
  set (nl := length locations) in *. set (ng := length groups) in *.
  set (full := replicate n (replicate n neg_infinity)) in *.
  set (σ1 := σ ++ replicate (nl * ng) full ++ replicate (nl * ng) full) in *.
  set (mse_results := grid_refs (length σ) nl ng) in *.
  set (rsq_results := grid_refs (length σ + nl * ng) nl ng) in *.
  rewrite run_bind in Hok.
  destruct (h_outcome (run (record_sweep report_path data locations groups period max_window
                                         mode model_type mse_results rsq_results) σ1))
    as [[]|e] eqn:Hsweep; [|discriminate].
  cbn [h_outcome h_store] in Hok.
  set (σ2 := h_store (run (record_sweep report_path data locations groups period max_window
                                        mode model_type mse_results rsq_results) σ1)) in *.
  assert (Hcontent : content (fun l g => (length σ + nl * ng + l * ng + g)%nat) nl ng n
            (reported_rsq report_path data locations groups period mode model_type)
            (visited n 0 0 0) σ2).
  { apply (hoare_run_ok _ _ _ _ σ1 tt
             (record_sweep_content report_path data locations groups period mode model_type
                                   (length σ) n max_window)); [|exact Hsweep].
    apply content_initial. }
  assert (Hmetric : metric_store (length σ) n σ2).
  { apply (hoare_run (metric_store (length σ) n) _ (metric_store (length σ) n)).
    - apply metric_store_record_sweep.
    - split; [subst σ1; rewrite length_app; lia|].
      intros r m Hge Hlook. subst σ1.
      rewrite lookup_app_r in Hlook by lia. rewrite <- replicate_add in Hlook.
      apply lookup_replicate in Hlook as [-> _]. apply full_square_triangular. }
  pose proof (hoare_run_ok _ _ _ _ σ2 results'
                (summarize_last σ2 report_path results period locations groups
                                mse_results rsq_results) eq_refl Hok) as [_ Hsum].
  destruct (Hsum l_last g_idx group Hlen Hgrp Hlast) as (r & m & v & Hget & Hlook & Hmax & Hres).
  exists v. split; [exact Hres|].
  apply grid_get_cell_at, grid_refs_cell_at_inv in Hget as (Hl & Hg & ->).
  assert (Hge : (length σ <= length σ + nl * ng + l_last * ng + g_idx)%nat) by lia.
  destruct (proj2 Hmetric _ m Hge Hlook) as [Hsq _].
  rewrite <- (content_final_matrix _ nl ng n _ σ2 l_last g_idx m Hcontent Hl Hg Hlook Hsq).
  exact Hmax.
Qed.

End StoreFacts.

(** * Further properties of the pipeline *)

Section MoreFacts.
Context {obs E : Type}.
Context `{Constants, HospUtils, Preparation obs, MlUtils E, Metrics, Numpy, Sink}.

(** ** The training seasons of [validate] *)

Lemma range_split (lo mid hi : Z) :
  lo <= mid <= hi -> range lo hi = range lo mid ++ range mid hi.
Proof.
  intros Hm. unfold range.
  replace (Z.to_nat (hi - lo)) with (Z.to_nat (mid - lo) + Z.to_nat (hi - mid))%nat by lia.
  rewrite seq_app, fmap_app. f_equal.
  replace (seq (0 + Z.to_nat (mid - lo)) (Z.to_nat (hi - mid)))
    with (Nat.add (Z.to_nat (mid - lo)) <$> seq 0 (Z.to_nat (hi - mid)))
    by (rewrite fmap_add_seq; f_equal; lia).
  rewrite <- list_fmap_compose. apply list_fmap_ext. intros _ i _. simpl. lia.
Qed.

(** X1: the training seasons of a validation start in the years from
    [FIRST_YEAR] (mode "all") or from [YEAR_WINDOW] years back (mode
    "prev") up to the year before the start year of the target period,
    never in the start year or later; those of mode "prev" are the last
    ones of mode "all", at most [YEAR_WINDOW] of them; any other mode gives
    no training season and no error. *)
Theorem training_seasons_precede_target (start_year : Z) :
  (forall p, p ∈ model_periods "all" start_year <->
             exists year, FIRST_YEAR <= year < start_year /\ p = get_period year 40 17) /\
  (forall p, p ∈ model_periods "prev" start_year <->
             exists year, FIRST_YEAR <= year /\ start_year - YEAR_WINDOW <= year < start_year /\
                          p = get_period year 40 17) /\
  model_periods "prev" start_year `suffix_of` model_periods "all" start_year /\
  (length (model_periods "prev" start_year) <= Z.to_nat YEAR_WINDOW)%nat /\
  (forall mode, mode <> "all" -> mode <> "prev" -> model_periods mode start_year = []).
Proof.
  split; [|split; [|split; [|split]]].
  - intros p. unfold model_periods. simpl. rewrite list_elem_of_fmap. split.
    + intros (year & -> & Hy). apply elem_of_range in Hy. eauto.
    + intros (year & Hy & ->). exists year. split; [reflexivity|].
      apply elem_of_range. exact Hy.
  - intros p. unfold model_periods. simpl. rewrite list_elem_of_fmap. split.
    + intros (year & -> & Hy). apply elem_of_range in Hy. exists year.
      split; [lia|]. split; [lia|reflexivity].
    + intros (year & Hf & Hy & ->). exists year. split; [reflexivity|].
      apply elem_of_range. lia.
  - unfold model_periods. simpl.
    destruct (Z_le_gt_dec (Z.max FIRST_YEAR (start_year - YEAR_WINDOW)) start_year) as [Hle|Hgt].
    + rewrite (range_split FIRST_YEAR (Z.max FIRST_YEAR (start_year - YEAR_WINDOW)) start_year)
        by lia.
      rewrite fmap_app. eexists. reflexivity.
    + unfold range at 1.
      replace (Z.to_nat (start_year - Z.max FIRST_YEAR (start_year - YEAR_WINDOW)))
        with 0%nat by lia.
      simpl. apply suffix_nil.
  - unfold model_periods. simpl. unfold range. rewrite !length_fmap, length_seq. lia.
  - intros mode Hall Hprev. unfold model_periods.
    apply String.eqb_neq in Hall, Hprev. rewrite Hall, Hprev. reflexivity.
Qed.

(** ** The model factory *)

(** X2: for the tags "lin", "ridge", "gbdt" and "quant_gbdt", a training that
    succeeds constructs the three estimators of the tag's class at the
    upper, the middle and the lower quantile, in this order, and then fits
    each of them on its own on the same [(X, Y)], upper first; it never
    calls a joint fit. For "quant_lin" and "quant_ridge" it constructs the
    three estimators likewise and fits them by one joint call; it never
    fits one of them alone. *)
Theorem train_model_fits_by_family (X : matrix) (Y : ndarray) (model_type : string)
    (f : family) (models : E * E * E) :
  outcome (train_model X Y model_type) = Ok models ->
  ((model_type, f) ∈ [("lin", RegLinear); ("ridge", RegRidge); ("gbdt", RegGBDT);
                      ("quant_gbdt", QuantGBDT)] ->
   trace (train_model X Y model_type)
   = [EvNew f UPPER_QUANT; EvNew f MID_QUANT; EvNew f LOWER_QUANT;
      EvFit Upper X Y; EvFit Mid X Y; EvFit Lower X Y] /\
   exists model_upper model model_lower,
     est_new f UPPER_QUANT = Ok model_upper /\ est_new f MID_QUANT = Ok model /\
     est_new f LOWER_QUANT = Ok model_lower /\
     est_fit model_upper X Y = Ok models.1.1 /\ est_fit model X Y = Ok models.1.2 /\
     est_fit model_lower X Y = Ok models.2) /\
  ((model_type, f) ∈ [("quant_lin", QuantLinear); ("quant_ridge", QuantRidge)] ->
   trace (train_model X Y model_type)
   = [EvNew f UPPER_QUANT; EvNew f MID_QUANT; EvNew f LOWER_QUANT; EvCoFit f X Y] /\
   exists model_upper model model_lower,
     est_new f UPPER_QUANT = Ok model_upper /\ est_new f MID_QUANT = Ok model /\
     est_new f LOWER_QUANT = Ok model_lower /\
     est_cofit f model_upper model model_lower X Y = Ok models).
Proof.
  intros Hrun.
  assert (Hind : forall g : family,
    outcome (models0 ← Some <$> new_triple g;
             '(model_upper, model, model_lower) ← read_local "model_upper" models0;
             model_upper ← call (EvFit Upper X Y) (est_fit model_upper X Y);
             model ← call (EvFit Mid X Y) (est_fit model X Y);
             model_lower ← call (EvFit Lower X Y) (est_fit model_lower X Y);
             mret (model_upper, model, model_lower)) = Ok models ->
    trace (models0 ← Some <$> new_triple g;
           '(model_upper, model, model_lower) ← read_local "model_upper" models0;
           model_upper ← call (EvFit Upper X Y) (est_fit model_upper X Y);
           model ← call (EvFit Mid X Y) (est_fit model X Y);
           model_lower ← call (EvFit Lower X Y) (est_fit model_lower X Y);
           mret (model_upper, model, model_lower))
    = [EvNew g UPPER_QUANT; EvNew g MID_QUANT; EvNew g LOWER_QUANT;
       EvFit Upper X Y; EvFit Mid X Y; EvFit Lower X Y] /\
    exists model_upper model model_lower,
      est_new g UPPER_QUANT = Ok model_upper /\ est_new g MID_QUANT = Ok model /\
      est_new g LOWER_QUANT = Ok model_lower /\
      est_fit model_upper X Y = Ok models.1.1 /\ est_fit model X Y = Ok models.1.2 /\
      est_fit model_lower X Y = Ok models.2).
  { intros g. unfold new_triple, fmap, W_fmap, mbind, W_mbind, W_bind, call, mret, W_mret,
      W_ret, read_local. simpl.
    destruct (est_new g UPPER_QUANT) as [mu|]; simpl; [|discriminate].
    destruct (est_new g MID_QUANT) as [mm|]; simpl; [|discriminate].
    destruct (est_new g LOWER_QUANT) as [ml|]; simpl; [|discriminate].
    destruct (est_fit mu X Y) as [mu'|] eqn:Hfu; simpl; [|discriminate].
    destruct (est_fit mm X Y) as [mm'|] eqn:Hfm; simpl; [|discriminate].
    destruct (est_fit ml X Y) as [ml'|] eqn:Hfl; simpl; [|discriminate].
    intros [= <-]. split; [reflexivity|]. exists mu, mm, ml. simpl.
    repeat split; (reflexivity || assumption). }
  assert (Hco : forall g : family,
    outcome (models0 ← ('(model_upper, model, model_lower) ← new_triple g;
                         fitted ← call (EvCoFit g X Y)
                                       (est_cofit g model_upper model model_lower X Y);
                         mret (Some fitted));
             read_local "model_upper" models0) = Ok models ->
    trace (models0 ← ('(model_upper, model, model_lower) ← new_triple g;
                       fitted ← call (EvCoFit g X Y)
                                     (est_cofit g model_upper model model_lower X Y);
                       mret (Some fitted));
           read_local "model_upper" models0)
    = [EvNew g UPPER_QUANT; EvNew g MID_QUANT; EvNew g LOWER_QUANT; EvCoFit g X Y] /\
    exists model_upper model model_lower,
      est_new g UPPER_QUANT = Ok model_upper /\ est_new g MID_QUANT = Ok model /\
      est_new g LOWER_QUANT = Ok model_lower /\
      est_cofit g model_upper model model_lower X Y = Ok models).
  { intros g. unfold new_triple, mbind, W_mbind, W_bind, call, mret, W_mret,
      W_ret, read_local. simpl.
    destruct (est_new g UPPER_QUANT) as [mu|]; simpl; [|discriminate].
    destruct (est_new g MID_QUANT) as [mm|]; simpl; [|discriminate].
    destruct (est_new g LOWER_QUANT) as [ml|]; simpl; [|discriminate].
    destruct (est_cofit g mu mm ml X Y) as [fitted|] eqn:Hco; simpl; [|discriminate].
    intros [= <-]. split; [reflexivity|]. exists mu, mm, ml.
    repeat split; (reflexivity || assumption). }
  split; intros Hin;
    repeat (apply elem_of_cons in Hin as [[= -> ->]|Hin]);
    try (apply elem_of_nil in Hin; destruct Hin).
  - apply Hind. exact Hrun.
  - apply Hind. exact Hrun.
  - apply Hind. exact Hrun.
  - apply Hind. exact Hrun.
  - apply Hco. exact Hrun.
  - apply Hco. exact Hrun.
Qed.

(** ** What [validate] fetches *)

Lemma Forall_trace_bind (P : event -> Prop) {A B} (m : W A) (f : A -> W B) :
  Forall P (trace m) -> (forall a, outcome m = Ok a -> Forall P (trace (f a))) ->
  Forall P (trace (m ≫= f)).
Proof.
  intros Hm Hf. rewrite trace_bind. apply Forall_app. split; [exact Hm|].
  destruct (outcome m) as [a|e]; [apply Hf; reflexivity|constructor].
Qed.

Lemma Forall_trace_foreach (P : event -> Prop) {A St} (xs : list A)
    (body : A -> St -> W St) (s : St) :
  (forall x s1, x ∈ xs -> Forall P (trace (body x s1))) ->
  Forall P (trace (foreach xs body s)).
Proof.
  revert s. induction xs as [|x xs IH]; intros s Hbody; simpl; [constructor|].
  apply Forall_trace_bind; [apply Hbody; left|].
  intros s1 _. apply IH. intros y s2 Hy. apply Hbody. right. exact Hy.
Qed.

Lemma elem_of_enumerate {A} (xs : list A) (i : nat) (x : A) :
  (i, x) ∈ enumerate xs -> xs !! i = Some x.
Proof.
  intros Hin. apply list_elem_of_lookup in Hin as [k Hk].
  apply enumerate_lookup in Hk as [-> Hx]. exact Hx.
Qed.

(** X3: whether it returns or raises, [validate] fetches only observations
    that are in the data store, for its own locations, groups and
    epiweeks, with the lag and the windows it was given: it never asks
    the data layer for a missing key. *)
Theorem validate_fetches_present_keys_only (data : gmap key obs)
    (locations : list location) (groups : list group) (time_period : period)
    (lag left_window right_window backfill_window : Z) (mode model_type : string) :
  Forall (fetch_of data locations groups (unravel time_period)
                   lag left_window right_window backfill_window)
         (trace (validate data locations groups time_period lag left_window right_window
                          backfill_window mode model_type)).
Proof.
  unfold validate. apply Forall_trace_bind; [repeat constructor|].
  intros [X Y] _. apply Forall_trace_bind.
  { assert (Hs : forall p, (forall ev, p ev = true -> is_fetch ev = true) ->
        silent p (train_model X Y model_type)) by
      (intros p Hp; apply train_model_silent; intros;
       match goal with |- p ?ev = false =>
         destruct (p ev) eqn:Hpe; [apply Hp in Hpe; discriminate|reflexivity] end).
    specialize (Hs is_fetch (fun ev Hev => Hev)). unfold silent, calls in Hs.
    apply Forall_forall. intros ev Hin.
    destruct ev; try exact I. exfalso.
    assert (Hf : In (EvFetch l g e lag0 left_window0 right_window0 backfill_window0)
                    (List.filter is_fetch (trace (train_model X Y model_type)))).
    { apply List.filter_In. split; [|reflexivity]. apply list_elem_of_In. exact Hin. }
    rewrite Hs in Hf. destruct Hf. }
  intros models _. apply Forall_trace_foreach. intros e c0 He.
  unfold validate_week. apply Forall_trace_foreach. intros [l_idx location] c1 Hl.
  apply elem_of_enumerate in Hl.
  apply Forall_trace_foreach. intros [g_idx group] c2 Hg. apply elem_of_enumerate in Hg.
  unfold validate_cell. destruct models as [[model_upper model] model_lower].
  destruct (data !! (e, group, location)) as [o|] eqn:Hdata; [|constructor].
  apply Forall_trace_bind.
  { repeat constructor; [rewrite Hdata; eauto|eapply list_elem_of_lookup_2; eassumption
                        |eapply list_elem_of_lookup_2; eassumption|exact He]. }
  intros [[x_val cur_y_val] y_val] _.
  repeat (apply Forall_trace_bind; [repeat constructor|intros ? _]).
  constructor.
Qed.

(** ** What [validate] records *)

Lemma tracked_refl (data : gmap key obs) (models : E * E * E)
    (lag left_window right_window backfill_window : Z)
    (locations : list location) (groups : list group)
    (P : nat -> nat -> list epiweek) (c : collectors) :
  (forall l g, P l g = []) ->
  tracked data models lag left_window right_window backfill_window locations groups P c c.
Proof.
  intros HP l g location group _ _. exists []. rewrite HP.
  split; [constructor|]. simpl.
  repeat split; intros cell Hc; rewrite app_nil_r; exact Hc.
Qed.

Lemma tracked_trans (data : gmap key obs) (models : E * E * E)
    (lag left_window right_window backfill_window : Z)
    (locations : list location) (groups : list group)
    (P1 P2 P : nat -> nat -> list epiweek) (c0 c1 c2 : collectors) :
  tracked data models lag left_window right_window backfill_window locations groups P1 c0 c1 ->
  tracked data models lag left_window right_window backfill_window locations groups P2 c1 c2 ->
  (forall l g, (l < length locations)%nat -> (g < length groups)%nat ->
               P l g = P1 l g ++ P2 l g) ->
  tracked data models lag left_window right_window backfill_window locations groups P c0 c2.
Proof.
  intros H01 H12 HP l g location group Hl Hg.
  destruct (H01 l g location group Hl Hg) as (s1 & Hs1 & Ha1 & Hb1 & Hc1 & Hd1 & He1).
  destruct (H12 l g location group Hl Hg) as (s2 & Hs2 & Ha2 & Hb2 & Hc2 & Hd2 & He2).
  exists (s1 ++ s2). rewrite HP by (eapply lookup_lt_Some; eassumption).
  split; [apply Forall2_app; assumption|].
  repeat split; intros cell Hcell; rewrite fmap_app, app_assoc; auto.
Qed.

Lemma validate_cell_tracked (data : gmap key obs) (models : E * E * E)
    (lag left_window right_window backfill_window : Z)
    (locations : list location) (groups : list group) (e : epiweek)
    (c c' : collectors) (i j : nat) (location : location) (group : group) :
  locations !! i = Some location -> groups !! j = Some group ->
  outcome (validate_cell data models lag left_window right_window backfill_window e
                         i location j group c) = Ok c' ->
  valid_weeks c' = valid_weeks c /\
  tracked data models lag left_window right_window backfill_window locations groups
          (fun l g => if decide (l = i /\ g = j)
                      then week_hit data locations groups e l g else [])
          c c'.
Proof.
  intros Hloc Hgrp. unfold validate_cell.
  destruct models as [[model_upper model] model_lower] eqn:Hmodels.
  destruct (data !! (e, group, location)) as [o|] eqn:Hdata.
  - intros Hrun.
    apply bind_ok_inv in Hrun as ([[x_val cur_y_val] y_val] & Hfetch & Hrun).
    apply bind_ok_inv in Hrun as (pred & Hpred & Hrun).
    apply bind_ok_inv in Hrun as (pred_u & Hpred_u & Hrun).
    apply bind_ok_inv in Hrun as (pred_l & Hpred_l & Hrun).
    apply bind_ok_inv in Hrun as (p & Hp & Hrun).
    apply bind_ok_inv in Hrun as (pl & Hpl & Hrun).
    apply bind_ok_inv in Hrun as (pu & Hpu & Hrun).
    apply bind_ok_inv in Hrun as (ct & Hct & Hrun).
    apply bind_ok_inv in Hrun as (gt & Hgt & Hrun).
    injection Hrun as <-. simpl in *. split; [reflexivity|].
    apply grid_append_cell_at in Hp as (cp & Hcp & Hp).
    apply grid_append_cell_at in Hpl as (cpl & Hcpl & Hpl).
    apply grid_append_cell_at in Hpu as (cpu & Hcpu & Hpu).
    apply grid_append_cell_at in Hct as (cct & Hcct & Hct).
    apply grid_append_cell_at in Hgt as (cgt & Hcgt & Hgt).
    intros l g location' group' Hl Hg. simpl.
    rewrite Hp, Hpl, Hpu, Hct, Hgt.
    destruct (decide (l = i /\ g = j)) as [[-> ->]|Hne].
    + rewrite Hloc in Hl. injection Hl as <-. rewrite Hgrp in Hg. injection Hg as <-.
      exists [MkSample pred pred_l pred_u cur_y_val y_val].
      unfold week_hit. rewrite Hloc, Hgrp, Hdata. split.
      * repeat constructor. unfold sample_of.
        rewrite Hfetch, Hpred, Hpred_u, Hpred_l. reflexivity.
      * simpl. repeat split; intros cell Hcell; congruence.
    + exists []. split; [constructor|]. simpl.
      repeat split; intros cell Hcell; rewrite app_nil_r; exact Hcell.
  - intros [= <-]. split; [reflexivity|]. apply tracked_refl.
    intros l g. destruct (decide _) as [[-> ->]|]; [|reflexivity].
    unfold week_hit. rewrite Hloc, Hgrp, Hdata. reflexivity.
Qed.

Lemma tracked_equiv (data : gmap key obs) (models : E * E * E)
    (lag left_window right_window backfill_window : Z)
    (locations : list location) (groups : list group)
    (P P' : nat -> nat -> list epiweek) (c0 c1 : collectors) :
  tracked data models lag left_window right_window backfill_window locations groups P c0 c1 ->
  (forall l g, (l < length locations)%nat -> (g < length groups)%nat -> P' l g = P l g) ->
  tracked data models lag left_window right_window backfill_window locations groups P' c0 c1.
Proof.
  intros Ht HP.
  apply (tracked_trans _ _ _ _ _ _ _ _ P (fun _ _ => []) P' c0 c1 c1 Ht).
  - apply tracked_refl. reflexivity.
  - intros l g Hl Hg. rewrite app_nil_r. apply HP; assumption.
Qed.

Lemma validate_week_tracked (data : gmap key obs) (locations : list location)
    (groups : list group) (models : E * E * E)
    (lag left_window right_window backfill_window : Z) (e : epiweek) (c c' : collectors) :
  outcome (validate_week data locations groups models lag left_window right_window
                         backfill_window e c) = Ok c' ->
  tracked data models lag left_window right_window backfill_window locations groups
          (week_hit data locations groups e) c c'.
Proof.
  unfold validate_week. intros Hrun.
  set (c0 := MkCollectors _ _ _ _ _ _) in Hrun.
  change (tracked data models lag left_window right_window backfill_window locations groups
                  (week_hit data locations groups e) c0 c').
  pose (P := fun (i : nat) (c1 : collectors) =>
    tracked data models lag left_window right_window backfill_window locations groups
            (fun l g => if (l <? i)%nat then week_hit data locations groups e l g else [])
            c0 c1).
  assert (HP : P (length locations) c').
  { refine (foreach_enumerate_ind P locations _ c0 c' _ _ Hrun).
    - apply tracked_refl. reflexivity.
    - intros i location s1 s2 Hloc Hs1 Hrow. cbv beta iota in Hrow.
      pose (Q := fun (j : nat) (c2 : collectors) =>
        tracked data models lag left_window right_window backfill_window locations groups
                (fun l g => if ((l <? i) || ((l =? i) && (g <? j)))%nat
                            then week_hit data locations groups e l g else [])
                c0 c2).
      assert (HQ : Q (length groups) s2).
      { refine (foreach_enumerate_ind Q groups _ s1 s2 _ _ Hrow).
        - apply (tracked_equiv _ _ _ _ _ _ _ _ _ _ _ _ Hs1). intros l g _ _.
          replace (g <? 0)%nat with false by (symmetry; apply Nat.ltb_ge; lia).
          rewrite andb_false_r, orb_false_r. reflexivity.
        - intros j group t1 t2 Hgrp Ht1 Hcell. cbv beta iota in Hcell.
          apply (validate_cell_tracked _ _ _ _ _ _ locations groups) in Hcell as [_ Ht2];
            [|assumption..].
          apply (tracked_trans _ _ _ _ _ _ _ _ _ _ _ _ _ _ Ht1 Ht2).
          intros l g _ _.
          destruct (decide (l = i /\ g = j)) as [[-> ->]|Hne].
          + replace (i <? i)%nat with false by (symmetry; apply Nat.ltb_ge; lia).
            replace (j <? j)%nat with false by (symmetry; apply Nat.ltb_ge; lia).
            replace (j <? S j)%nat with true by (symmetry; apply Nat.ltb_lt; lia).
            rewrite Nat.eqb_refl. reflexivity.
          + rewrite app_nil_r.
            destruct (l <? i)%nat eqn:Hli; simpl; [reflexivity|].
            destruct (l =? i)%nat eqn:Hlei; simpl; [|reflexivity].
            apply Nat.eqb_eq in Hlei. subst l.
            assert (g <> j) by (intros ->; apply Hne; auto).
            destruct (g <? j)%nat eqn:Hgj.
            * replace (g <? S j)%nat with true by (symmetry; apply Nat.ltb_lt;
                apply Nat.ltb_lt in Hgj; lia). reflexivity.
            * replace (g <? S j)%nat with false by (symmetry; apply Nat.ltb_ge;
                apply Nat.ltb_ge in Hgj; lia). reflexivity. }
      apply (tracked_equiv _ _ _ _ _ _ _ _ _ _ _ _ HQ). intros l g _ Hg.
      destruct (l <? i)%nat eqn:Hli; simpl.
      + replace (l <? S i)%nat with true by (symmetry; apply Nat.ltb_lt;
          apply Nat.ltb_lt in Hli; lia). reflexivity.
      + destruct (l =? i)%nat eqn:Hlei; simpl.
        * apply Nat.eqb_eq in Hlei. subst l.
          replace (i <? S i)%nat with true by (symmetry; apply Nat.ltb_lt; lia).
          replace (g <? length groups)%nat with true by (symmetry; apply Nat.ltb_lt; lia).
          reflexivity.
        * replace (l <? S i)%nat with false; [reflexivity|].
          symmetry. apply Nat.ltb_ge. apply Nat.ltb_ge in Hli.
          apply Nat.eqb_neq in Hlei. lia. }
  apply (tracked_equiv _ _ _ _ _ _ _ _ _ _ _ _ HP). intros l g Hl _.
  replace (l <? length locations)%nat with true by (symmetry; apply Nat.ltb_lt; lia).
  reflexivity.
Qed.

Lemma validate_loop_tracked (data : gmap key obs) (locations : list location)
    (groups : list group) (models : E * E * E)
    (lag left_window right_window backfill_window : Z)
    (weeks : list epiweek) (c0 c : collectors) :
  outcome (foreach weeks (validate_week data locations groups models lag left_window
                                        right_window backfill_window) c0) = Ok c ->
  tracked data models lag left_window right_window backfill_window locations groups
          (fun l g => e ← weeks; week_hit data locations groups e l g) c0 c.
Proof.
  revert c0. induction weeks as [|e weeks IH]; intros c0 Hrun; simpl in Hrun.
  - injection Hrun as <-. apply tracked_refl. reflexivity.
  - apply bind_ok_inv in Hrun as (c1 & Hweek & Hrest).
    apply validate_week_tracked in Hweek. apply IH in Hrest.
    apply (tracked_trans _ _ _ _ _ _ _ _ _ _ _ _ _ _ Hweek Hrest).
    intros l g _ _. reflexivity.
Qed.

Lemma week_hits_present (data : gmap key obs) (locations : list location)
    (groups : list group) (weeks : list epiweek) (l g : nat)
    (location : location) (group : group) :
  locations !! l = Some location -> groups !! g = Some group ->
  (e ← weeks; week_hit data locations groups e l g)
  = present_weeks data location group weeks.
Proof.
  intros Hl Hg. induction weeks as [|e weeks IH]; [reflexivity|].
  change ((e :: weeks) ≫= (fun e => week_hit data locations groups e l g))
    with (week_hit data locations groups e l g
          ++ (weeks ≫= (fun e => week_hit data locations groups e l g))).
  rewrite IH. unfold present_weeks. rewrite filter_cons.
  unfold week_hit. rewrite Hl, Hg.
  destruct (data !! (e, group, location)) as [o|] eqn:Hd.
  - rewrite decide_True by eauto. reflexivity.
  - rewrite decide_False by (intros [? [=]]). reflexivity.
Qed.

(** X4: when [validate] returns, it has trained one triple of models on what
    [prepare] gave for the training seasons, and the five result grids are
    aligned: the cell of a location and a group holds, for exactly the
    epiweeks of the period that the data store has for this pair and in
    the period's order, the prediction of the middle, the lower and the
    upper model on the features fetched at that epiweek, and the current
    and the final value fetched with them. *)
Theorem validate_records_aligned_samples (data : gmap key obs) (locations : list location)
    (groups : list group) (time_period : period)
    (lag left_window right_window backfill_window : Z) (mode model_type : string)
    (c : collectors) :
  outcome (validate data locations groups time_period lag left_window right_window
                    backfill_window mode model_type) = Ok c ->
  exists X Y models,
    prepare data locations groups (model_periods mode (get_start_year time_period.1))
            lag left_window right_window backfill_window = Ok (X, Y) /\
    outcome (train_model X Y model_type) = Ok models /\
    forall l g location group,
      locations !! l = Some location -> groups !! g = Some group ->
      exists samples,
        Forall2 (fun e s => sample_of data models lag left_window right_window
                                      backfill_window location group e = Some s)
                (present_weeks data location group (unravel time_period)) samples /\
        grid_get (predictions c) l g = Ok (s_pred <$> samples) /\
        grid_get (predictions_lower c) l g = Ok (s_lower <$> samples) /\
        grid_get (predictions_upper c) l g = Ok (s_upper <$> samples) /\
        grid_get (cur_truth c) l g = Ok (s_cur <$> samples) /\
        grid_get (ground_truth c) l g = Ok (s_truth <$> samples).
Proof.
  unfold validate. intros Hrun.
  apply bind_ok_inv in Hrun as ([X Y] & Hprep & Hrun). simpl in Hprep.
  apply bind_ok_inv in Hrun as (models & Htrain & Hrun).
  exists X, Y, models. split; [exact Hprep|]. split; [exact Htrain|].
  apply validate_loop_tracked in Hrun.
  intros l g location group Hl Hg.
  destruct (Hrun l g location group Hl Hg) as (samples & Hs & Ha & Hb & Hc & Hd & He).
  rewrite (week_hits_present _ _ _ _ _ _ location group Hl Hg) in Hs.
  exists samples. split; [exact Hs|]. simpl in Ha, Hb, Hc, Hd, He.
  assert (Hinit : cell_at (create_double_list ([] : list ndarray) (length locations)
                                              (length groups)) l g = Some []).
  { apply create_double_list_cell_at; eapply lookup_lt_Some; eassumption. }
  repeat split; apply grid_get_cell_at.
  - apply (Ha [] Hinit).
  - apply (Hb [] Hinit).
  - apply (Hc [] Hinit).
  - apply (Hd [] Hinit).
  - apply (He [] Hinit).
Qed.

(** ** What [nowcast_report] returns *)

Lemma nowcast_report_cell_scored (path : string) (left_window backfill_window : Z)
    (c : collectors) (i : nat) (location : location) (j : nat) (group : group)
    (acc acc' : list (list (option float)) * list (list (option float))) :
  outcome (nowcast_report_cell path left_window backfill_window c
                               i location j group acc) = Ok acc' ->
  scored c acc' i j /\ forall l g, scored c acc l g -> scored c acc' l g.
Proof.
  intros Hrun. assert (Hrun' := Hrun).
  destruct acc as [rsq mse]. unfold nowcast_report_cell in Hrun.
  apply bind_ok_inv in Hrun as (truth & Ht & Hrun). simpl in Ht.
  apply bind_ok_inv in Hrun as (preds & Hp & Hrun). simpl in Hp.
  apply bind_ok_inv in Hrun as (r & Hr & Hrun). simpl in Hr.
  apply bind_ok_inv in Hrun as (rsq' & Hrsq & Hrun). simpl in Hrsq.
  apply bind_ok_inv in Hrun as (m & Hm & Hrun). simpl in Hm.
  apply bind_ok_inv in Hrun as (mse' & Hmse & Hrun). simpl in Hmse.
  apply bind_ok_inv in Hrun as (upper & _ & Hrun).
  apply bind_ok_inv in Hrun as (lower & _ & Hrun).
  apply bind_ok_inv in Hrun as (cur & _ & Hrun).
  apply bind_ok_inv in Hrun as ([] & _ & Hrun).
  injection Hrun as <-.
  pose proof (grid_set_cell_at _ _ _ _ _ Hrsq) as Hcr.
  pose proof (grid_set_cell_at _ _ _ _ _ Hmse) as Hcm.
  assert (Hij : scored c (rsq', mse') i j).
  { exists truth, preds, r, m. repeat split; try assumption; simpl;
      apply grid_get_cell_at; [rewrite Hcr|rewrite Hcm]; rewrite decide_True by auto;
      reflexivity. }
  split; [exact Hij|]. intros l g Hlg.
  destruct (decide (l = i /\ g = j)) as [[-> ->]|Hne]; [exact Hij|].
  destruct Hlg as (t0 & p0 & r0 & m0 & Ht0 & Hp0 & Hr0 & Hm0 & Hgr & Hgm).
  exists t0, p0, r0, m0. repeat split; try assumption; simpl in *;
    apply grid_get_cell_at; [rewrite Hcr|rewrite Hcm]; rewrite decide_False by exact Hne;
    apply grid_get_cell_at; assumption.
Qed.

(** X5: when [nowcast_report] returns, the validation it ran returned, and
    both metric grids are complete: for every location and group they
    hold the R-squared and the mean squared error of the pair's
    predictions against its final values, no cell is left [None]. *)
Theorem nowcast_report_scores_every_pair (path : string) (data : gmap key obs)
    (locations : list location) (groups : list group) (time_period : period)
    (left_window backfill_window : Z) (mode model_type : string)
    (acc : list (list (option float)) * list (list (option float))) :
  outcome (nowcast_report path data locations groups time_period left_window
                          backfill_window mode model_type) = Ok acc ->
  exists c,
    outcome (validate data locations groups time_period 0 left_window 0 backfill_window
                      mode model_type) = Ok c /\
    forall l g location group,
      locations !! l = Some location -> groups !! g = Some group -> scored c acc l g.
Proof.
  unfold nowcast_report. intros Hrun.
  apply bind_ok_inv in Hrun as (c & Hval & Hrun). exists c. split; [exact Hval|].
  intros l g location group Hl Hg.
  pose (R := fun t1 t2 : list (list (option float)) * list (list (option float)) =>
               forall l g, scored c t1 l g -> scored c t2 l g).
  assert (Hrefl : forall t, R t t) by (intros t ? ? Ht; exact Ht).
  assert (Htrans : forall t1 t2 t3, R t1 t2 -> R t2 t3 -> R t1 t3)
    by (intros t1 t2 t3 H12 H23 ? ? Ht; apply H23, H12, Ht).
  assert (Hinner : forall (ix : nat * string) s1 s2,
    outcome (foreach (enumerate groups) (fun '(g_idx, group) =>
               nowcast_report_cell path left_window backfill_window c ix.1 ix.2 g_idx group)
               s1) = Ok s2 ->
    R s1 s2 /\ forall j grp, groups !! j = Some grp -> scored c s2 ix.1 j).
  { intros [i loc] s1 s2 Hrow. simpl in Hrow |- *.
    apply (foreach_ok_mono R) in Hrow as [HR Hall]; [|assumption|assumption|].
    - split; [exact HR|]. intros j grp Hj.
      destruct (Hall j (j, grp)) as (t1 & t2 & Hcell & Ht2).
      { apply enumerate_lookup. auto. }
      apply nowcast_report_cell_scored in Hcell as [Hij _]. apply Ht2, Hij.
    - intros [j grp] t1 t2 Hcell. apply nowcast_report_cell_scored in Hcell as [_ Hk].
      exact Hk. }
  apply (foreach_ok_mono R) in Hrun as [_ Hall]; [|assumption|assumption|].
  - destruct (Hall l (l, location)) as (s1 & s2 & Hrow & Hs2).
    { apply enumerate_lookup. auto. }
    apply (Hinner (l, location)) in Hrow as [_ Hrow]. apply Hs2. simpl in Hrow.
    eapply Hrow. exact Hg.
  - intros [i loc] s1 s2 Hrow. apply (Hinner (i, loc)) in Hrow as [HR _]. exact HR.
Qed.

(** ** What [predict] assigns *)

(** A loop that keeps an invariant [I] and moves along a preorder [R]. *)
Lemma foreach_ok_inv {A St} (I : St -> Prop) (R : St -> St -> Prop) (xs : list A)
    (body : A -> St -> W St) (s s' : St) :
  (forall t, R t t) -> (forall t1 t2 t3, R t1 t2 -> R t2 t3 -> R t1 t3) ->
  (forall i x s1 s2, xs !! i = Some x -> I s1 -> outcome (body x s1) = Ok s2 ->
                     I s2 /\ R s1 s2) ->
  I s -> outcome (foreach xs body s) = Ok s' ->
  I s' /\ R s s' /\
  forall i x, xs !! i = Some x ->
              exists s1 s2, I s1 /\ outcome (body x s1) = Ok s2 /\ R s2 s'.
Proof.
  intros Hrefl Htrans. revert s.
  induction xs as [|y xs IH]; intros s Hbody Hs Hrun; simpl in Hrun.
  - injection Hrun as <-. split; [exact Hs|]. split; [apply Hrefl|]. intros i x [=].
  - apply bind_ok_inv in Hrun as (s1 & Hy & Hrest).
    destruct (Hbody 0%nat y s s1 eq_refl Hs Hy) as [Hs1 HR1].
    destruct (IH s1) as (HI & HR & Hall); [|exact Hs1|exact Hrest|].
    { intros i x t1 t2 Hx. apply (Hbody (S i)). exact Hx. }
    split; [exact HI|]. split; [eapply Htrans; eassumption|].
    intros [|i] x Hx.
    + injection Hx as <-. exists s, s1. auto.
    + apply (Hall i x Hx).
Qed.

Lemma predict_cell_appends (data : gmap key obs) (models : E * E * E) (epiweek : epiweek)
    (opt_window : Z) (i : nat) (location : location) (j : nat) (group : group)
    (cur cur' : grids) :
  outcome (predict_cell data models epiweek opt_window i location j group cur) = Ok cur' ->
  exists pred pred_u pred_l c c_u c_l,
    forecast_of data models epiweek opt_window location group
    = Some (pred, pred_u, pred_l) /\
    cell_at cur.1.1 i j = Some c /\ cell_at cur.1.2 i j = Some c_u /\
    cell_at cur.2 i j = Some c_l /\
    forall l g,
      cell_at cur'.1.1 l g
      = (if decide (l = i /\ g = j) then Some (c ++ [pred]) else cell_at cur.1.1 l g) /\
      cell_at cur'.1.2 l g
      = (if decide (l = i /\ g = j) then Some (c_u ++ [pred_u]) else cell_at cur.1.2 l g) /\
      cell_at cur'.2 l g
      = (if decide (l = i /\ g = j) then Some (c_l ++ [pred_l]) else cell_at cur.2 l g).
Proof.
  unfold predict_cell, forecast_of. destruct models as [[model_upper model] model_lower].
  destruct cur as [[cur_preds cur_preds_upper] cur_preds_lower]. intros Hrun.
  apply bind_ok_inv in Hrun as ([[X_pred a] b] & Hfetch & Hrun). simpl in Hfetch.
  apply bind_ok_inv in Hrun as (pred_u & Hu & Hrun). simpl in Hu.
  apply bind_ok_inv in Hrun as (pred & Hm & Hrun). simpl in Hm.
  apply bind_ok_inv in Hrun as (pred_l & Hlo & Hrun). simpl in Hlo.
  apply bind_ok_inv in Hrun as (g1 & Hg1 & Hrun). simpl in Hg1.
  apply bind_ok_inv in Hrun as (g2 & Hg2 & Hrun). simpl in Hg2.
  apply bind_ok_inv in Hrun as (g3 & Hg3 & Hrun). simpl in Hg3.
  injection Hrun as <-.
  apply grid_append_cell_at in Hg1 as (c & Hc & Hg1).
  apply grid_append_cell_at in Hg2 as (c_u & Hcu & Hg2).
  apply grid_append_cell_at in Hg3 as (c_l & Hcl & Hg3).
  exists pred, pred_u, pred_l, c, c_u, c_l. rewrite Hfetch, Hm, Hu, Hlo. simpl.
  repeat split; auto.
Qed.

Lemma predict_cell_fills (data : gmap key obs) (models : E * E * E) (epiweek : epiweek)
    (opt_window : Z) (locations : list location) (groups : list group)
    (i : nat) (location : location) (j : nat) (group : group) (cur cur' : grids) :
  locations !! i = Some location -> groups !! j = Some group ->
  (forall l g, (l < length locations)%nat -> (g < length groups)%nat ->
     blank cur l g \/ filled data models epiweek opt_window locations groups cur l g) ->
  outcome (predict_cell data models epiweek opt_window i location j group cur) = Ok cur' ->
  (forall l g, (l < length locations)%nat -> (g < length groups)%nat ->
     blank cur' l g \/ filled data models epiweek opt_window locations groups cur' l g) /\
  (forall l g, filled data models epiweek opt_window locations groups cur l g ->
               filled data models epiweek opt_window locations groups cur' l g) /\
  filled data models epiweek opt_window locations groups cur' i j.
Proof.
  intros Hloc Hgrp Hinv Hrun.
  apply predict_cell_appends in Hrun
    as (pred & pred_u & pred_l & c & c_u & c_l & Hf & Hc & Hcu & Hcl & Hnew).
  assert (Hkeep : forall l g,
    filled data models epiweek opt_window locations groups cur l g ->
    filled data models epiweek opt_window locations groups cur' l g).
  { intros l g (loc & grp & p & pu & pl & r & ru & rl & Hl & Hg & Hfc & Hr & Hru & Hrl).
    destruct (Hnew l g) as (Ha & Hb & Hd).
    destruct (decide (l = i /\ g = j)) as [[-> ->]|Hne].
    - rewrite Hc in Hr. rewrite Hcu in Hru. rewrite Hcl in Hrl.
      injection Hr as ->. injection Hru as ->. injection Hrl as ->.
      exists loc, grp, p, pu, pl, (r ++ [pred]), (ru ++ [pred_u]), (rl ++ [pred_l]).
      repeat split; assumption.
    - exists loc, grp, p, pu, pl, r, ru, rl. rewrite Ha, Hb, Hd. repeat split; assumption. }
  assert (Hij : filled data models epiweek opt_window locations groups cur' i j).
  { destruct (Hinv i j) as [(Ha & Hb & Hd)|Hfilled];
      [eapply lookup_lt_Some; eassumption|eapply lookup_lt_Some; eassumption| |].
    - rewrite Hc in Ha. rewrite Hcu in Hb. rewrite Hcl in Hd.
      injection Ha as ->. injection Hb as ->. injection Hd as ->.
      destruct (Hnew i j) as (Ha & Hb & Hd). rewrite decide_True in Ha, Hb, Hd by auto.
      exists location, group, pred, pred_u, pred_l, [], [], [].
      repeat split; assumption.
    - apply Hkeep. exact Hfilled. }
  split; [|split; [exact Hkeep|exact Hij]].
  intros l g Hl Hg. destruct (decide (l = i /\ g = j)) as [[-> ->]|Hne].
  - right. exact Hij.
  - destruct (Hinv l g Hl Hg) as [(Ha & Hb & Hd)|Hfilled].
    + left. destruct (Hnew l g) as (Ha' & Hb' & Hd').
      rewrite decide_False in Ha', Hb', Hd' by exact Hne.
      unfold blank. rewrite Ha', Hb', Hd'. auto.
    + right. apply Hkeep. exact Hfilled.
Qed.

Lemma predict_cells_filled (data : gmap key obs) (models : E * E * E) (epiweek : epiweek)
    (opt_window : Z) (locations : list location) (groups : list group) (cur : grids)
    (l g : nat) :
  outcome (predict_cells data models epiweek opt_window locations groups) = Ok cur ->
  (l < length locations)%nat -> (g < length groups)%nat ->
  filled data models epiweek opt_window locations groups cur l g.
Proof.
  unfold predict_cells. intros Hrun Hl Hg.
  apply lookup_lt_is_Some in Hl as [location Hl]. apply lookup_lt_is_Some in Hg as [group Hg].
  set (I := fun cur : grids =>
    forall l g, (l < length locations)%nat -> (g < length groups)%nat ->
      blank cur l g \/ filled data models epiweek opt_window locations groups cur l g).
  set (R := fun t1 t2 : grids =>
    forall l g, filled data models epiweek opt_window locations groups t1 l g ->
                filled data models epiweek opt_window locations groups t2 l g).
  assert (Hrefl : forall t, R t t) by (intros t ? ? Ht; exact Ht).
  assert (Htrans : forall t1 t2 t3, R t1 t2 -> R t2 t3 -> R t1 t3)
    by (intros t1 t2 t3 H12 H23 ? ? Ht; apply H23, H12, Ht).
  assert (Hrow : forall i loc s1 s2, locations !! i = Some loc -> I s1 ->
    outcome (foreach (enumerate groups) (fun '(g_idx, group) =>
               predict_cell data models epiweek opt_window i loc g_idx group) s1) = Ok s2 ->
    I s2 /\ R s1 s2 /\
    forall j grp, groups !! j = Some grp ->
      filled data models epiweek opt_window locations groups s2 i j).
  { intros i loc s1 s2 Hi Hs1 Hr.
    pose proof (fun Hb => foreach_ok_inv I R _ _ s1 s2 Hrefl Htrans Hb Hs1 Hr) as Hloop.
    destruct Hloop as (HI & HR & Hall).
    - intros k [j grp] t1 t2 Hk Ht1 Hcell. apply enumerate_lookup in Hk as [-> Hk].
      destruct (predict_cell_fills _ _ _ _ locations groups _ _ _ _ _ _ Hi Hk Ht1 Hcell)
        as (Ha & Hb & _). split; assumption.
    - split; [exact HI|]. split; [exact HR|]. intros j grp Hj.
      destruct (Hall j (j, grp)) as (t1 & t2 & Ht1 & Hcell & Ht2).
      { apply enumerate_lookup. auto. }
      destruct (predict_cell_fills _ _ _ _ locations groups _ _ _ _ _ _ Hi Hj Ht1 Hcell)
        as (_ & _ & Hd). apply Ht2. exact Hd. }
  assert (Hinit : I (create_double_list [] (length locations) (length groups),
                     create_double_list [] (length locations) (length groups),
                     create_double_list [] (length locations) (length groups))).
  { intros l0 g0 Hl0 Hg0. left. unfold blank. simpl.
    rewrite !create_double_list_cell_at by assumption. auto. }
  pose proof (fun Hb => foreach_ok_inv I R _ _ _ cur Hrefl Htrans Hb Hinit Hrun) as Hloop.
  destruct Hloop as (_ & _ & Hall).
  - intros k [i loc] t1 t2 Hk Ht1 Hr. apply enumerate_lookup in Hk as [-> Hk].
    destruct (Hrow k loc t1 t2 Hk Ht1 Hr) as (Ha & Hb & _). split; assumption.
  - destruct (Hall l (l, location)) as (t1 & t2 & Ht1 & Hr & Ht2).
    { apply enumerate_lookup. auto. }
    destruct (Hrow l location t1 t2 Hl Ht1 Hr) as (_ & _ & Hd).
    apply Ht2. eapply Hd. exact Hg.
Qed.

Lemma assign_cell_assigns (data : gmap key obs) (models : E * E * E) (epiweek : epiweek)
    (opt_window : Z) (locations : list location) (groups : list group)
    (cur : grids) (i : nat) (location : location) (j : nat) (group : group)
    (out out' : pred_maps) :
  locations !! i = Some location -> groups !! j = Some group ->
  filled data models epiweek opt_window locations groups cur i j ->
  outcome (assign_cell cur i location j group out) = Ok out' ->
  assigned data models epiweek opt_window out' (location, group) /\
  forall k, k <> (location, group) -> same_at out out' k.
Proof.
  intros Hloc Hgrp (loc & grp & pred & pred_u & pred_l & r & ru & rl
                    & Hl & Hg & Hf & Hc & Hcu & Hcl) Hrun.
  rewrite Hloc in Hl. injection Hl as <-. rewrite Hgrp in Hg. injection Hg as <-.
  destruct cur as [[cur_preds cur_preds_upper] cur_preds_lower].
  destruct out as [[preds preds_upper] preds_lower]. unfold assign_cell in Hrun.
  simpl in Hc, Hcu, Hcl. apply grid_get_cell_at in Hc, Hcu, Hcl.
  apply bind_ok_inv in Hrun as (p & Hp & Hrun).
  apply bind_ok_inv in Hrun as (pu & Hpu & Hrun).
  apply bind_ok_inv in Hrun as (pl & Hpl & Hrun).
  injection Hrun as <-. simpl in Hp, Hpu, Hpl. unfold first_scalar in Hp, Hpu, Hpl.
  rewrite Hc in Hp. rewrite Hcu in Hpu. rewrite Hcl in Hpl.
  unfold index in Hp, Hpu, Hpl. simpl in Hp, Hpu, Hpl.
  split.
  - exists pred, pred_u, pred_l, p, pu, pl. simpl. rewrite !lookup_insert_eq.
    destruct (pred !! 0%nat); [|discriminate].
    destruct (pred_u !! 0%nat); [|discriminate].
    destruct (pred_l !! 0%nat); [|discriminate].
    repeat split; congruence.
  - intros k Hk. unfold same_at. simpl.
    rewrite !lookup_insert_ne by (intros Heq; apply Hk; symmetry; exact Heq). auto.
Qed.

Lemma assign_cells_assigns (data : gmap key obs) (models : E * E * E) (epiweek : epiweek)
    (opt_window : Z) (locations : list location) (groups : list group)
    (cur : grids) (out out' : pred_maps) :
  (forall l g, (l < length locations)%nat -> (g < length groups)%nat ->
               filled data models epiweek opt_window locations groups cur l g) ->
  outcome (assign_cells cur locations groups out) = Ok out' ->
  (forall loc grp, loc ∈ locations -> grp ∈ groups ->
                   assigned data models epiweek opt_window out' (loc, grp)) /\
  (forall k, ~ (k.1 ∈ locations /\ k.2 ∈ groups) -> same_at out out' k).
Proof.
  unfold assign_cells. intros Hfilled Hrun.
  set (R := fun t1 t2 : pred_maps =>
    (forall k, assigned data models epiweek opt_window t1 k ->
               assigned data models epiweek opt_window t2 k) /\
    (forall k, ~ (k.1 ∈ locations /\ k.2 ∈ groups) -> same_at t1 t2 k)).
  assert (Hrefl : forall t, R t t).
  { intros t. split; [intros k Hk; exact Hk|]. intros k _. unfold same_at. auto. }
  assert (Htrans : forall t1 t2 t3, R t1 t2 -> R t2 t3 -> R t1 t3).
  { intros t1 t2 t3 [Ha1 Hs1] [Ha2 Hs2]. split; [intros k Hk; apply Ha2, Ha1, Hk|].
    intros k Hk. destruct (Hs1 k Hk) as (? & ? & ?). destruct (Hs2 k Hk) as (? & ? & ?).
    unfold same_at. repeat split; congruence. }
  assert (Hcell : forall i loc j grp t1 t2,
    locations !! i = Some loc -> groups !! j = Some grp ->
    outcome (assign_cell cur i loc j grp t1) = Ok t2 ->
    R t1 t2 /\ assigned data models epiweek opt_window t2 (loc, grp)).
  { intros i loc j grp t1 t2 Hi Hj Hc.
    destruct (assign_cell_assigns data models epiweek opt_window locations groups
                cur i loc j grp t1 t2 Hi Hj) as [Hnew Hsame]; [|exact Hc|].
    { apply Hfilled; eapply lookup_lt_Some; eassumption. }
    split; [|exact Hnew]. split.
    - intros k Hk. destruct (decide (k = (loc, grp))) as [->|Hne]; [exact Hnew|].
      destruct Hk as (pred & pred_u & pred_l & p & pu & pl & Hf & Ha & Hb & Hd & Hx & Hy & Hz).
      destruct (Hsame k Hne) as (Hs1 & Hs2 & Hs3).
      exists pred, pred_u, pred_l, p, pu, pl.
      repeat split; try assumption; congruence.
    - intros k Hk. apply Hsame. intros ->. apply Hk. simpl.
      split; eapply list_elem_of_lookup_2; eassumption. }
  assert (Hrow : forall i loc s1 s2, locations !! i = Some loc ->
    outcome (foreach (enumerate groups) (fun '(g_idx, group) =>
               assign_cell cur i loc g_idx group) s1) = Ok s2 ->
    R s1 s2 /\ forall j grp, groups !! j = Some grp ->
                 assigned data models epiweek opt_window s2 (loc, grp)).
  { intros i loc s1 s2 Hi Hr.
    pose proof (fun Hb => foreach_ok_inv (fun _ => True) R _ _ s1 s2 Hrefl Htrans Hb I Hr)
      as Hloop.
    destruct Hloop as (_ & HR & Hall).
    - intros k [j grp] t1 t2 Hk _ Hc. apply enumerate_lookup in Hk as [-> Hk].
      split; [exact I|]. eapply proj1, Hcell; eassumption.
    - split; [exact HR|]. intros j grp Hj.
      destruct (Hall j (j, grp)) as (t1 & t2 & _ & Hc & Ht2).
      { apply enumerate_lookup. auto. }
      apply (Hcell i loc j grp t1 t2 Hi Hj) in Hc as [_ Hnew].
      destruct Ht2 as [Ht2 _]. apply Ht2. exact Hnew. }
  pose proof (fun Hb => foreach_ok_inv (fun _ => True) R _ _ out out' Hrefl Htrans Hb I Hrun)
    as Hloop.
  destruct Hloop as (_ & [_ HR] & Hall).
  - intros k [i loc] t1 t2 Hk _ Hr. apply enumerate_lookup in Hk as [-> Hk].
    split; [exact I|]. eapply proj1, Hrow; eassumption.
  - split; [|exact HR]. intros loc grp Hl Hg.
    apply list_elem_of_lookup in Hl as [i Hi]. apply list_elem_of_lookup in Hg as [j Hj].
    destruct (Hall i (i, loc)) as (t1 & t2 & _ & Hr & Ht2).
    { apply enumerate_lookup. auto. }
    apply (Hrow i loc t1 t2 Hi) in Hr as [_ Hnew].
    destruct Ht2 as [Ht2 _]. apply Ht2. eapply Hnew. exact Hj.
Qed.

(** X6: a block of [predict] that returns has selected a window, trained the
    models on the validation period with it, and assigned to every pair
    of its locations and groups, in each of the three mappings, the first
    entry of what the middle, the upper and the lower model predict from
    the features fetched at the target epiweek with that window. The
    entries of all other keys are left as they were. *)
Theorem predict_block_assigns_forecasts (data : gmap key obs) (epiweek : epiweek)
    (val_period : period) (max_window : Z) (mode model_type : string)
    (locations : list location) (groups : list group) (out out' : pred_maps) :
  outcome (predict_block data epiweek val_period max_window mode model_type
                         locations groups out) = Ok out' ->
  exists opt best X Y models,
    outcome (sweep data locations groups val_period mode model_type max_window)
    = Ok (opt, best) /\
    prepare data locations groups [val_period] 0 opt 0 opt = Ok (X, Y) /\
    outcome (train_model X Y model_type) = Ok models /\
    (forall loc grp, loc ∈ locations -> grp ∈ groups ->
                     assigned data models epiweek opt out' (loc, grp)) /\
    (forall k, ~ (k.1 ∈ locations /\ k.2 ∈ groups) -> same_at out out' k).
Proof.
  intros Hrun.
  apply predict_block_ok in Hrun
    as (opt & best & X & Y & models & cur & Hsweep & Hprep & Htrain & Hcells & Hassign & _).
  exists opt, best, X, Y, models. repeat (split; [assumption|]).
  apply (assign_cells_assigns data models epiweek opt locations groups cur out out');
    [|exact Hassign].
  intros l g Hl Hg. eapply predict_cells_filled; eassumption.
Qed.

(** X7: when [predict] returns, the three mappings have the same keys, the
    pairs of a location and a group of one choice of the groupings and no
    other key; and the three scalars of a key are the forecasts of one
    such choice that has the pair: of the models trained for it on the
    prior season with the window its sweep selected. *)
Theorem predict_returns_block_forecasts (data : gmap key obs) (epiweek : epiweek)
    (location_groups : list (list location)) (groupings : list (list group))
    (max_window : Z) (mode model_type : string) (outs : pred_maps)
    (k : location * group) :
  outcome (predict data epiweek location_groups groupings max_window mode model_type)
  = Ok outs ->
  let val_period := get_period (get_start_year epiweek - 1) 40 17 in
  let bound := Z.min max_window (get_max_window epiweek) in
  ((exists locations groups, locations ∈ location_groups /\ groups ∈ groupings /\
                             k.1 ∈ locations /\ k.2 ∈ groups) -> covers outs k) /\
  (is_Some (outs.1.1 !! k) \/ is_Some (outs.1.2 !! k) \/ is_Some (outs.2 !! k) ->
   exists locations groups opt best X Y models,
     locations ∈ location_groups /\ groups ∈ groupings /\
     k.1 ∈ locations /\ k.2 ∈ groups /\
     outcome (sweep data locations groups val_period mode model_type bound)
     = Ok (opt, best) /\
     prepare data locations groups [val_period] 0 opt 0 opt = Ok (X, Y) /\
     outcome (train_model X Y model_type) = Ok models /\
     assigned data models epiweek opt outs k).
Proof.
  intros Hrun val_period bound. split.
  { intros (locations & groups & Hlocs & Hgrps & Hl & Hg). destruct k as [l g].
    eapply predict_covers; eassumption. }
  revert k. unfold predict in Hrun. fold val_period bound in Hrun.
  set (I := fun t : pred_maps => forall k : location * group,
    is_Some (t.1.1 !! k) \/ is_Some (t.1.2 !! k) \/ is_Some (t.2 !! k) ->
    exists locations groups opt best X Y models,
      locations ∈ location_groups /\ groups ∈ groupings /\
      k.1 ∈ locations /\ k.2 ∈ groups /\
      outcome (sweep data locations groups val_period mode model_type bound)
      = Ok (opt, best) /\
      prepare data locations groups [val_period] 0 opt 0 opt = Ok (X, Y) /\
      outcome (train_model X Y model_type) = Ok models /\
      assigned data models epiweek opt t k).
  change (I outs).
  assert (Hblock : forall locs grps t1 t2, locs ∈ location_groups -> grps ∈ groupings ->
    I t1 ->
    outcome (predict_block data epiweek val_period bound mode model_type locs grps t1)
    = Ok t2 -> I t2).
  { intros locs grps t1 t2 Hlocs Hgrps Ht1 Hb.
    apply predict_block_ok in Hb
      as (opt & best & X & Y & models & cur & Hsweep & Hprep & Htrain & Hcells & Hassign & _).
    destruct (assign_cells_assigns data models epiweek opt locs grps cur t1 t2)
      as [Hnew Hsame]; [|exact Hassign|].
    { intros l g Hl Hg. eapply predict_cells_filled; eassumption. }
    intros k Hk.
    destruct (decide (k.1 ∈ locs /\ k.2 ∈ grps)) as [[Hl Hg]|Hout].
    - exists locs, grps, opt, best, X, Y, models. repeat (split; [assumption|]).
      destruct k as [l g]. apply Hnew; assumption.
    - destruct (Hsame k Hout) as (Hs1 & Hs2 & Hs3).
      rewrite Hs1, Hs2, Hs3 in Hk.
      destruct (Ht1 k Hk) as (locs0 & grps0 & opt0 & best0 & X0 & Y0 & models0 & Ha & Hb
                              & Hc & Hd & He & Hf & Hg & Hh).
      exists locs0, grps0, opt0, best0, X0, Y0, models0. repeat (split; [assumption|]).
      destruct Hh as (pred & pred_u & pred_l & p & pu & pl & Hfc & Hp & Hpu & Hpl
                      & Hx & Hy & Hz).
      exists pred, pred_u, pred_l, p, pu, pl. repeat split; try assumption; congruence. }
  assert (Hinit : I (∅, ∅, ∅)).
  { intros k [Hk|[Hk|Hk]]; simpl in Hk; rewrite lookup_empty in Hk; destruct Hk as [? [=]]. }
  pose proof (fun Hb => foreach_ok_inv I (fun _ _ => True) _ _ _ outs (fun _ => Logic.I)
                          (fun _ _ _ _ _ => Logic.I) Hb Hinit Hrun) as Hloop.
  destruct Hloop as (HI & _); [|exact HI].
  intros i [lg_idx locs] s1 s2 Hi Hs1 Hrow. apply enumerate_lookup in Hi as [-> Hi].
  split; [|exact Logic.I].
  pose proof (fun Hb => foreach_ok_inv I (fun _ _ => True) _ _ _ s2 (fun _ => Logic.I)
                          (fun _ _ _ _ _ => Logic.I) Hb Hs1 Hrow) as Hloop.
  destruct Hloop as (HI & _); [|exact HI].
  intros j [gp_idx grps] t1 t2 Hj Ht1 Hb. apply enumerate_lookup in Hj as [-> Hj].
  split; [|exact Logic.I].
  eapply (Hblock locs grps t1 t2); try eassumption;
    eapply list_elem_of_lookup_2; eassumption.
Qed.

(** ** The window that the sweep selects *)

(** Binary64 comparison is transitive. *)
Lemma ltb_trans (x y z : float) :
  PrimFloat.ltb x y = true -> PrimFloat.ltb y z = true -> PrimFloat.ltb x z = true.
Proof.
  rewrite !ltb_spec. unfold SFltb, SFcompare.
  destruct (Prim2SF x) as [sx|sx| |sx mx ex], (Prim2SF y) as [sy|sy| |sy my ey],
           (Prim2SF z) as [sz|sz| |sz mz ez];
    try discriminate;
    try destruct sx; try destruct sy; try destruct sz;
    try discriminate; try reflexivity;
    change (PosDef.Pos.compare_cont Eq mx my) with (Pos.compare mx my);
    change (PosDef.Pos.compare_cont Eq my mz) with (Pos.compare my mz);
    change (PosDef.Pos.compare_cont Eq mx mz) with (Pos.compare mx mz);
    destruct (Z.compare_spec ex ey), (Z.compare_spec ey ez), (Z.compare_spec ex ez);
    try discriminate; try reflexivity; try lia;
    destruct (Pos.compare_spec mx my), (Pos.compare_spec my mz), (Pos.compare_spec mx mz);
    simpl; try discriminate; try reflexivity; lia.
Qed.

Lemma select_fold_spec (scored : list (Z * float)) (o opt : Z) (c best : float) :
  fold_left (fun sel '(window, rsq) => select_step window rsq sel) scored (o, c)
  = (opt, best) ->
  Forall (fun wr => PrimFloat.ltb best wr.2 = false) scored /\
  ((opt, best) = (o, c) \/ ((opt, best) ∈ scored /\ PrimFloat.ltb c best = true)).
Proof.
  revert o c. induction scored as [|[w r] rest IH]; intros o c Hfold; simpl in Hfold.
  - injection Hfold as <- <-. split; [constructor|]. left. reflexivity.
  - destruct (PrimFloat.ltb c r) eqn:Hcr.
    + apply IH in Hfold as [Hall [[= -> ->]|[Hin Hlt]]].
      * split; [constructor; [apply ltb_irrefl|exact Hall]|].
        right. split; [left|exact Hcr].
      * split.
        -- constructor; [|exact Hall]. simpl.
           destruct (PrimFloat.ltb best r) eqn:Hbr; [|reflexivity].
           rewrite <- (ltb_irrefl r). symmetry. eapply ltb_trans; eassumption.
        -- right. split; [right; exact Hin|]. eapply ltb_trans; eassumption.
    + apply IH in Hfold as [Hall Hsel]. split.
      * constructor; [|exact Hall]. simpl.
        destruct Hsel as [[= -> ->]|[_ Hlt]]; [exact Hcr|].
        destruct (PrimFloat.ltb best r) eqn:Hbr; [|reflexivity].
        rewrite (ltb_trans c best r Hlt Hbr) in Hcr. discriminate.
      * destruct Hsel as [Heq|[Hin Hlt]]; [left; exact Heq|].
        right. split; [right; exact Hin|exact Hlt].
Qed.

(** X8: when the sweep of [predict] returns, every candidate window from 0 to
    [max_window] was scored, and no candidate has a penalized score above
    the selected one. The selection is either the initial window 0 with
    the score 0.0, or a candidate window together with its own penalized
    score, which is then above 0.0; so the selected window is never
    negative and never above [max_window], except that it is 0 when there
    is no candidate. *)
Theorem sweep_selects_best_window (data : gmap key obs) (locations : list location)
    (groups : list group) (val_period : period) (mode model_type : string)
    (max_window opt : Z) (best : float) :
  outcome (sweep data locations groups val_period mode model_type max_window)
  = Ok (opt, best) ->
  exists scores,
    Forall2 (fun window rsq =>
               outcome (penalized_rsq data locations groups val_period mode model_type
                                      window) = Ok rsq)
            (range 0 (max_window + 1)) scores /\
    Forall (fun rsq => PrimFloat.ltb best rsq = false) scores /\
    ((opt = 0 /\ best = 0%float) \/
     (0 <= opt <= max_window /\
      outcome (penalized_rsq data locations groups val_period mode model_type opt)
      = Ok best /\
      PrimFloat.ltb 0 best = true)).
Proof.
  unfold sweep. intros Hrun. apply sweep_from in Hrun as (scores & Hall & Hsel).
  exists scores. split; [exact Hall|]. symmetry in Hsel.
  apply select_fold_spec in Hsel as [Hbest Hsel].
  pose proof (Forall2_length _ _ _ Hall) as Hlen. split.
  - apply Forall_forall. intros r Hr. apply list_elem_of_lookup in Hr as [i Hi].
    destruct (lookup_lt_is_Some_2 (range 0 (max_window + 1)) i) as [w Hw].
    { rewrite Hlen. eapply lookup_lt_Some. exact Hi. }
    rewrite Forall_forall in Hbest. apply (Hbest (w, r)).
    apply list_elem_of_lookup. exists i. apply lookup_zip_with_Some. eauto.
  - destruct Hsel as [[= -> ->]|[Hin Hlt]]; [left; auto|]. right.
    apply list_elem_of_lookup in Hin as [i Hi].
    apply lookup_zip_with_Some in Hi as (w & r & [= <- <-] & Hw & Hr).
    split; [|split; [|exact Hlt]].
    + apply list_elem_of_lookup_2, elem_of_range in Hw. lia.
    + eapply (Forall2_lookup_lr _ _ _ _ _ _ Hall); eassumption.
Qed.

(** ** The heatmap of [plot_results] *)

Lemma plot_row_labels (results : matrix) (i : nat) (js : list nat) (u : unit) :
  outcome (foreach js (fun j _ => v ← pure_call (mat_get results i j);
                                  emit (EvText j i v)) tt) = Ok u ->
  Forall2 (fun ij ev => exists v, mat_get results ij.1 ij.2 = Ok v /\
                                  ev = EvText ij.2 ij.1 v)
          ((fun j => (i, j)) <$> js)
          (trace (foreach js (fun j _ => v ← pure_call (mat_get results i j);
                                         emit (EvText j i v)) tt)).
Proof.
  induction js as [|j js IH]; intros Hrun; simpl in *; [constructor|].
  apply bind_ok_inv in Hrun as ([] & Hj & Hrest).
  rewrite trace_bind, Hj. apply bind_ok_inv in Hj as (v & Hv & _). simpl in Hv.
  rewrite trace_bind. simpl. rewrite Hv. simpl.
  constructor; [exists v; auto|]. apply IH. exact Hrest.
Qed.

Lemma plot_labels (results : matrix) (rows : list nat) (u : unit) :
  outcome (foreach rows (fun i _ =>
             foreach (seq 0 (S i)) (fun j _ => v ← pure_call (mat_get results i j);
                                               emit (EvText j i v)) tt) tt) = Ok u ->
  Forall2 (fun ij ev => exists v, mat_get results ij.1 ij.2 = Ok v /\
                                  ev = EvText ij.2 ij.1 v)
          (i ← rows; (fun j => (i, j)) <$> seq 0 (S i))
          (trace (foreach rows (fun i _ =>
             foreach (seq 0 (S i)) (fun j _ => v ← pure_call (mat_get results i j);
                                               emit (EvText j i v)) tt) tt)).
Proof.
  induction rows as [|i rows IH]; intros Hrun; [constructor|].
  change (outcome (foreach (seq 0 (S i))
                     (fun j _ => v ← pure_call (mat_get results i j); emit (EvText j i v)) tt
                   ≫= (fun s' => foreach rows (fun i _ =>
                         foreach (seq 0 (S i))
                           (fun j _ => v ← pure_call (mat_get results i j);
                                       emit (EvText j i v)) tt) s')) = Ok u) in Hrun.
  apply bind_ok_inv in Hrun as ([] & Hi & Hrest).
  change (Forall2 (fun ij ev => exists v, mat_get results ij.1 ij.2 = Ok v /\
                                          ev = EvText ij.2 ij.1 v)
            (((fun j => (i, j)) <$> seq 0 (S i))
             ++ (i ← rows; (fun j => (i, j)) <$> seq 0 (S i)))
            (trace (foreach (seq 0 (S i))
                      (fun j _ => v ← pure_call (mat_get results i j);
                                  emit (EvText j i v)) tt
                    ≫= (fun s' => foreach rows (fun i _ =>
                          foreach (seq 0 (S i))
                            (fun j _ => v ← pure_call (mat_get results i j);
                                        emit (EvText j i v)) tt) s')))).
  rewrite trace_bind, Hi. apply Forall2_app.
  - eapply plot_row_labels. exact Hi.
  - apply IH. exact Hrest.
Qed.

(** X9: when [plot_results] returns, the group has a description, which is the
    title, and the calls are: the image of the whole matrix, the axes with
    the matrix's shape, one text label for every cell on or below the
    diagonal, row by row, placed at column [j] and row [i] with the value
    of [results[i][j]], and last the file of the figure. No cell above
    the diagonal is labelled. *)
Theorem plot_results_labels_lower_triangle (path : string) (results : matrix)
    (name : string) (loc : location) (grp : group) (colormap : string) :
  outcome (plot_results path results name loc grp colormap) = Ok tt ->
  exists title labels,
    GROUP_DESCRIPTIONS !! grp = Some title /\
    trace (plot_results path results name loc grp colormap)
    = [EvImshow colormap results; EvAxes title (shape results).1 (shape results).2]
      ++ labels
      ++ [EvSavefig (path +:+ "/" +:+ loc +:+ "/" +:+ name +:+ "_results_" +:+
                     str grp +:+ ".png")] /\
    Forall2 (fun ij ev => exists v, mat_get results ij.1 ij.2 = Ok v /\
                                    ev = EvText ij.2 ij.1 v)
            (i ← seq 0 (length results); (fun j => (i, j)) <$> seq 0 (S i)) labels.
Proof.
  unfold plot_results. destruct (shape results) as [length width] eqn:Hshape.
  assert (Hlen : length = List.length results) by (unfold shape in Hshape; congruence).
  subst length. intros Hrun.
  apply bind_ok_inv in Hrun as ([] & Him & Hrun). rewrite trace_bind, Him.
  destruct (GROUP_DESCRIPTIONS !! grp) as [title|] eqn:Htitle; [|discriminate].
  exists title. simpl dict_get in *.
  apply bind_ok_inv in Hrun as (t & [= <-] & Hrun). rewrite trace_bind. simpl outcome.
  apply bind_ok_inv in Hrun as ([] & Hax & Hrun). rewrite trace_bind, Hax.
  apply bind_ok_inv in Hrun as ([] & Hlab & Hsave). rewrite trace_bind, Hlab.
  eexists. split; [reflexivity|]. split; [reflexivity|].
  apply (plot_labels results (seq 0 (List.length results)) tt). exact Hlab.
Qed.

(** ** The results file of [run_nowcast_experiment] *)

Ltac quiet :=
  repeat first
    [ apply silent_mret | apply silent_raise | apply silent_pure_call
    | apply silent_call; reflexivity
    | apply silent_fmap
    | apply silent_foreach; intros
    | apply silent_bind; [|intros]
    | match goal with
      | |- silent _ (if ?b then _ else _) => destruct b
      | |- silent _ (match ?x with _ => _ end) => destruct x
      | |- silent _ (let '(_, _) := ?x in _) => destruct x
      end ].

Lemma validate_writes_nothing (data : gmap key obs) (locations : list location)
    (groups : list group) (time_period : period)
    (lag left_window right_window backfill_window : Z) (mode model_type : string) :
  silent is_write (validate data locations groups time_period lag left_window
                            right_window backfill_window mode model_type).
Proof.
  unfold validate. apply silent_bind; [apply silent_call; reflexivity|]. intros [X Y].
  apply silent_bind; [apply train_model_silent; reflexivity|]. intros models.
  apply silent_foreach. intros e c. unfold validate_week.
  apply silent_foreach. intros [l_idx loc] c1. apply silent_foreach. intros [g_idx grp] c2.
  unfold validate_cell. destruct models as [[model_upper model] model_lower]. quiet.
Qed.

Lemma nowcast_report_writes_nothing (path : string) (data : gmap key obs)
    (locations : list location) (groups : list group) (time_period : period)
    (left_window backfill_window : Z) (mode model_type : string) :
  silent is_write (nowcast_report path data locations groups time_period left_window
                                  backfill_window mode model_type).
Proof.
  unfold nowcast_report. apply silent_bind; [apply validate_writes_nothing|]. intros c.
  apply silent_foreach. intros [l_idx loc] s1. apply silent_foreach. intros [g_idx grp] [r m].
  unfold nowcast_report_cell, emit. quiet.
Qed.

Lemma plot_results_writes_nothing (path : string) (results : matrix) (name : string)
    (loc : location) (grp : group) (colormap : string) :
  silent is_write (plot_results path results name loc grp colormap).
Proof. unfold plot_results, emit, dict_get. quiet. Qed.

Lemma h_silent_bind (p : event -> bool) {A B} (m : H A) (f : A -> H B) :
  h_silent p m -> (forall a, h_silent p (f a)) -> h_silent p (m ≫= f).
Proof.
  intros Hm Hf σ. rewrite run_bind. destruct (h_outcome (run m σ)) as [a|e]; simpl.
  - rewrite calls_app, Hm, Hf. reflexivity.
  - apply Hm.
Qed.

Lemma h_silent_ret (p : event -> bool) {A} (a : A) : h_silent p (mret a : H A).
Proof. intros σ. reflexivity. Qed.

Lemma h_silent_lift (p : event -> bool) {A} (m : W A) : silent p m -> h_silent p (lift m).
Proof. intros Hm σ. exact Hm. Qed.

Lemma h_silent_foreach (p : event -> bool) {A St} (xs : list A) (body : A -> St -> H St)
    (s : St) :
  (forall x s1, h_silent p (body x s1)) -> h_silent p (h_foreach xs body s).
Proof.
  intros Hbody. revert s. induction xs as [|x xs IH]; intros s; simpl.
  - apply h_silent_ret.
  - apply h_silent_bind; [apply Hbody|exact IH].
Qed.

Lemma h_silent_replicate (p : event -> bool) {A} (n : nat) (m : H A) :
  h_silent p m -> h_silent p (h_replicate n m).
Proof.
  intros Hm. induction n as [|n IH]; simpl; [apply h_silent_ret|].
  apply h_silent_bind; [exact Hm|]. intros x.
  apply h_silent_bind; [exact IH|]. intros xs. apply h_silent_ret.
Qed.

Lemma h_silent_deref (p : event -> bool) (r : ref) : h_silent p (deref r).
Proof. intros σ. reflexivity. Qed.

Lemma h_silent_alloc (p : event -> bool) (m : matrix) : h_silent p (alloc m).
Proof. intros σ. reflexivity. Qed.

Lemma h_silent_mat_write (p : event -> bool) (r : ref) (i j : Z) (v : option float) :
  h_silent p (mat_write r i j v).
Proof.
  intros σ. unfold mat_write. simpl. destruct v as [x|]; [|reflexivity].
  destruct (σ !! r) as [m|]; [|reflexivity]. destruct (mat_set m i j x); reflexivity.
Qed.

Lemma h_silent_np_full (p : event -> bool) (n : Z) (v : float) : h_silent p (np_full n v).
Proof.
  unfold np_full. destruct (n <? 0); [apply h_silent_lift; reflexivity|apply h_silent_alloc].
Qed.

Lemma h_silent_create (p : event -> bool) (template : ref) (length width : nat) :
  h_silent p (create_double_list_ref template length width).
Proof.
  unfold create_double_list_ref. apply h_silent_replicate, h_silent_replicate.
  unfold copy. apply h_silent_bind; [apply h_silent_deref|]. intros m. apply h_silent_alloc.
Qed.

Lemma experiment_loops_write_nothing (data : gmap key obs)
    (location_groups : list (list location)) (groupings : list (list group))
    (time_periods : list period) (max_window : Z) (mode model_type : string)
    (mse_record_mat rsq_record_mat : ref) (results : summary_map) :
  h_silent is_write
    (h_foreach time_periods
       (experiment_period data location_groups groupings max_window mode model_type
                          mse_record_mat rsq_record_mat) results).
Proof.
  apply h_silent_foreach. intros p results1. unfold experiment_period, ensure_dir.
  apply h_silent_bind; [apply h_silent_lift, silent_call; reflexivity|]. intros ?.
  apply h_silent_bind.
  { apply h_silent_foreach. intros state ?. apply h_silent_lift, silent_call. reflexivity. }
  intros ?. apply h_silent_foreach. intros locations results2.
  apply h_silent_foreach. intros groups results3. unfold experiment_block.
  apply h_silent_bind; [apply h_silent_create|]. intros mse_results.
  apply h_silent_bind; [apply h_silent_create|]. intros rsq_results.
  apply h_silent_bind.
  { unfold record_sweep. apply h_silent_foreach. intros window ?.
    apply h_silent_foreach. intros backfill ?. unfold record_report.
    apply h_silent_bind; [apply h_silent_lift, nowcast_report_writes_nothing|].
    intros [rsq mse]. apply h_silent_foreach. intros l_idx ?.
    apply h_silent_foreach. intros g_idx ?. unfold record_cell.
    repeat first [ apply h_silent_mat_write
                 | apply h_silent_lift; reflexivity
                 | apply h_silent_bind; [|intros] ]. }
  intros ?. unfold summarize. apply h_silent_foreach. intros [l_idx loc] results4.
  apply h_silent_foreach. intros [g_idx grp] results5. unfold summarize_cell.
  repeat first [ apply h_silent_deref | apply h_silent_ret
               | apply h_silent_lift, plot_results_writes_nothing
               | apply h_silent_lift; reflexivity
               | apply h_silent_bind; [|intros] ].
Qed.

(** X10: from whatever store it starts, [run_nowcast_experiment] writes the
    results file at most once, as its last call and only after all the
    loops have returned; the outcome is then that of the write. When the
    file is not written, the run has raised. *)
Theorem results_file_is_written_last (data : gmap key obs)
    (location_groups : list (list location)) (groupings : list (list group))
    (time_periods : list period) (max_window : Z) (mode model_type : string) (σ : store) :
  (exists t results,
     h_trace (run (run_nowcast_experiment data location_groups groupings time_periods
                                          max_window mode model_type) σ)
     = t ++ [EvWriteData "./nowcast/results.txt" results] /\
     calls is_write t = [] /\
     h_outcome (run (run_nowcast_experiment data location_groups groupings time_periods
                                            max_window mode model_type) σ)
     = sink (EvWriteData "./nowcast/results.txt" results)) \/
  (calls is_write
     (h_trace (run (run_nowcast_experiment data location_groups groupings time_periods
                                           max_window mode model_type) σ)) = [] /\
   is_ok (h_outcome (run (run_nowcast_experiment data location_groups groupings
                                                 time_periods max_window mode model_type) σ))
   = false).
Proof.
  unfold run_nowcast_experiment. rewrite run_bind.
  pose proof (h_silent_np_full is_write (max_window + 1) neg_infinity σ) as Hs1.
  destruct (h_outcome (run (np_full (max_window + 1) neg_infinity) σ)) as [mse_mat|e];
    [|right; split; [exact Hs1|reflexivity]].
  set (σ1 := h_store (run (np_full (max_window + 1) neg_infinity) σ)).
  rewrite run_bind.
  pose proof (h_silent_np_full is_write (max_window + 1) neg_infinity σ1) as Hs2.
  destruct (h_outcome (run (np_full (max_window + 1) neg_infinity) σ1)) as [rsq_mat|e];
    [|right; simpl; split; [rewrite calls_app, Hs1, Hs2|]; reflexivity].
  set (σ2 := h_store (run (np_full (max_window + 1) neg_infinity) σ1)).
  rewrite run_bind.
  pose proof (experiment_loops_write_nothing data location_groups groupings time_periods
                max_window mode model_type mse_mat rsq_mat ∅ σ2) as Hs3.
  destruct (h_outcome (run (h_foreach time_periods _ ∅) σ2)) as [results|e];
    [|right; simpl; split; [rewrite !calls_app, Hs1, Hs2, Hs3|]; reflexivity].
  left. simpl. eexists _, results. rewrite !app_assoc. split; [reflexivity|].
  split; [|reflexivity]. rewrite !calls_app, Hs1, Hs2, Hs3. reflexivity.
Qed.

(** ** A group without a description *)

Lemma h_bind_ok_inv {A B} (m : H A) (f : A -> H B) (σ : store) (b : B) :
  h_outcome (run (m ≫= f) σ) = Ok b ->
  exists a, h_outcome (run m σ) = Ok a /\
            h_outcome (run (f a) (h_store (run m σ))) = Ok b.
Proof.
  rewrite run_bind. destruct (h_outcome (run m σ)) as [a|e]; simpl; [eauto|discriminate].
Qed.





(** ** The trainings of the experiment's sweep *)

Lemma nowcast_report_prepares (path : string) (data : gmap key obs)
    (locations : list location) (groups : list group) (time_period : period)
    (left_window backfill_window : Z) (mode model_type : string) :
  calls is_prepare (trace (nowcast_report path data locations groups time_period
                                          left_window backfill_window mode model_type))
  = [EvPrepare locations groups (model_periods mode (get_start_year time_period.1))
               0 left_window 0 backfill_window].
Proof.
  unfold nowcast_report. rewrite calls_bind, validate_prepares.
  match goal with |- _ ++ ?rest = _ => assert (Hrest : rest = []); [|rewrite Hrest; reflexivity] end.
  destruct (outcome (validate _ _ _ _ _ _ _ _ _ _)) as [c|e]; [|reflexivity].
  apply silent_foreach. intros [l_idx loc] s1. apply silent_foreach. intros [g_idx grp] [r m].
  unfold nowcast_report_cell, emit. quiet.
Qed.

Lemma h_foreach_calls (p : event -> bool) {A St} (xs : list A) (body : A -> St -> H St)
    (g : A -> list event) (s s' : St) (σ : store) :
  (forall x s1 σ1 s2, h_outcome (run (body x s1) σ1) = Ok s2 ->
                      calls p (h_trace (run (body x s1) σ1)) = g x) ->
  h_outcome (run (h_foreach xs body s) σ) = Ok s' ->
  calls p (h_trace (run (h_foreach xs body s) σ)) = concat (g <$> xs).
Proof.
  intros Hg. revert s σ. induction xs as [|x xs IH]; intros s σ Hrun; [reflexivity|].
  change (h_foreach (x :: xs) body s)
    with (body x s ≫= (fun s' => h_foreach xs body s')) in *.
  pose proof Hrun as Hrun'.
  apply h_bind_ok_inv in Hrun' as (s1 & Hx & Hrest).
  rewrite run_bind, Hx. simpl. rewrite calls_app, (Hg x s σ s1 Hx), (IH _ _ Hrest).
  reflexivity.
Qed.

Lemma record_report_prepares (report_path : string) (data : gmap key obs)
    (locations : list location) (groups : list group) (p : period)
    (mode model_type : string) (mse_results rsq_results : list (list ref))
    (window backfill : Z) (σ : store) :
  calls is_prepare
    (h_trace (run (record_report report_path data locations groups p mode model_type
                                 mse_results rsq_results window backfill) σ))
  = [EvPrepare locations groups (model_periods mode (get_start_year p.1))
               0 window 0 backfill].
Proof.
  unfold record_report. rewrite run_bind. simpl.
  destruct (outcome (nowcast_report _ _ _ _ _ _ _ _ _)) as [[rsq mse]|e] eqn:Hrep; simpl.
  - rewrite calls_app, nowcast_report_prepares.
    match goal with |- _ ++ ?rest = _ => assert (Hrest : rest = []); [|rewrite Hrest; reflexivity] end.
    apply (h_silent_foreach is_prepare). intros l_idx ?.
    apply h_silent_foreach. intros g_idx ?. unfold record_cell.
    repeat first [ apply h_silent_mat_write
                 | apply h_silent_lift; reflexivity
                 | apply h_silent_bind; [|intros] ].
  - apply nowcast_report_prepares.
Qed.

(** X12: a sweep of the experiment that returns has prepared the training data
    once for every pair of a window from 0 to [max_window] and a backfill
    from 0 to the window, window by window, with lag 0 and right window 0
    on the training seasons of the period: one training per cell on or
    below the diagonal, and none for a cell above it. *)
Theorem record_sweep_trains_once_per_cell (report_path : string) (data : gmap key obs)
    (locations : list location) (groups : list group) (p : period)
    (max_window : Z) (mode model_type : string)
    (mse_results rsq_results : list (list ref)) (σ : store) :
  h_outcome (run (record_sweep report_path data locations groups p max_window mode
                               model_type mse_results rsq_results) σ) = Ok tt ->
  calls is_prepare
    (h_trace (run (record_sweep report_path data locations groups p max_window mode
                                model_type mse_results rsq_results) σ))
  = window ← range 0 (max_window + 1); backfill ← range 0 (window + 1);
    [EvPrepare locations groups (model_periods mode (get_start_year p.1))
               0 window 0 backfill].
Proof.
  unfold record_sweep. intros Hrun.
  assert (Hrow : forall window (s1 : unit) σ1 (s2 : unit),
    h_outcome (run (h_foreach (range 0 (window + 1)) (fun backfill _ =>
                      record_report report_path data locations groups p mode model_type
                                    mse_results rsq_results window backfill) tt) σ1)
    = Ok s2 ->
    calls is_prepare
      (h_trace (run (h_foreach (range 0 (window + 1)) (fun backfill _ =>
                       record_report report_path data locations groups p mode model_type
                                     mse_results rsq_results window backfill) tt) σ1))
    = backfill ← range 0 (window + 1);
      [EvPrepare locations groups (model_periods mode (get_start_year p.1))
                 0 window 0 backfill]).
  { intros window s1 σ1 s2 Hr.
    rewrite (h_foreach_calls is_prepare _ _
               (fun backfill =>
                  [EvPrepare locations groups (model_periods mode (get_start_year p.1))
                             0 window 0 backfill]) _ _ _
               (fun backfill _ σ' _ _ =>
                  record_report_prepares report_path data locations groups p mode
                    model_type mse_results rsq_results window backfill σ') Hr).
    apply concat_fmap_bind. }
  rewrite (h_foreach_calls is_prepare _ _
             (fun window => backfill ← range 0 (window + 1);
                [EvPrepare locations groups (model_periods mode (get_start_year p.1))
                           0 window 0 backfill]) _ _ _ Hrow Hrun).
  apply concat_fmap_bind.
Qed.

(** ** The keys of the summary *)

(** A loop over the summary whose bodies only add keys. *)
Lemma h_foreach_keys {A} (xs : list A) (body : A -> summary_map -> H summary_map)
    (new : A -> period * group -> Prop) (s s' : summary_map) (σ : store) :
  (forall x s1 σ1 s2, x ∈ xs -> h_outcome (run (body x s1) σ1) = Ok s2 ->
     forall k, is_Some (s2 !! k) <-> is_Some (s1 !! k) \/ new x k) ->
  h_outcome (run (h_foreach xs body s) σ) = Ok s' ->
  forall k, is_Some (s' !! k) <-> is_Some (s !! k) \/ exists x, x ∈ xs /\ new x k.
Proof.
  revert s σ. induction xs as [|x xs IH]; intros s σ Hbody Hrun k.
  - simpl in Hrun. injection Hrun as <-. split; [auto|].
    intros [Hk|(x & Hx & _)]; [exact Hk|]. apply elem_of_nil in Hx. destruct Hx.
  - change (h_foreach (x :: xs) body s)
      with (body x s ≫= (fun s' => h_foreach xs body s')) in Hrun.
    apply h_bind_ok_inv in Hrun as (s1 & Hx & Hrest).
    apply IH with (k := k) in Hrest.
    2:{ intros y t1 σ1 t2 Hy. apply Hbody. right. exact Hy. }
    rewrite Hrest, (Hbody x s σ s1 (list_elem_of_here _ _) Hx k). split.
    + intros [[Hk|Hnew]|(y & Hy & Hnew)]; [auto| |].
      * right. exists x. split; [left|exact Hnew].
      * right. exists y. split; [right; exact Hy|exact Hnew].
    + intros [Hk|(y & Hy & Hnew)]; [auto|].
      apply elem_of_cons in Hy as [->|Hy]; [auto|]. right. eauto.
Qed.

Lemma summarize_cell_keys (report_path : string) (p : period)
    (mse_results rsq_results : list (list ref)) (l_idx : nat) (loc : location)
    (g_idx : nat) (grp : group) (s1 s2 : summary_map) (σ : store) :
  h_outcome (run (summarize_cell report_path p mse_results rsq_results
                                 l_idx loc g_idx grp s1) σ) = Ok s2 ->
  forall k, is_Some (s2 !! k) <-> is_Some (s1 !! k) \/ k = (p, grp).
Proof.
  unfold summarize_cell. intros Hrun.
  repeat (apply h_bind_ok_inv in Hrun as (? & _ & Hrun)).
  simpl in Hrun. injection Hrun as <-. intros k.
  rewrite lookup_insert_is_Some. split.
  - intros [<-|[_ Hk]]; auto.
  - intros [Hk | ->]; [|auto]. destruct (decide ((p, grp) = k)); auto.
Qed.

Lemma summarize_keys (report_path : string) (p : period)
    (locations : list location) (groups : list group)
    (mse_results rsq_results : list (list ref)) (s s' : summary_map) (σ : store) :
  h_outcome (run (summarize report_path p locations groups mse_results rsq_results s) σ)
  = Ok s' ->
  forall k, is_Some (s' !! k) <->
            is_Some (s !! k) \/ (locations <> [] /\ k.1 = p /\ k.2 ∈ groups).
Proof.
  unfold summarize. intros Hrun k.
  assert (Hrow : forall (x : nat * string) t1 σ1 t2, x ∈ enumerate locations ->
    h_outcome (run (h_foreach (enumerate groups) (fun '(g_idx, group) =>
                      summarize_cell report_path p mse_results rsq_results
                                     x.1 x.2 g_idx group) t1) σ1) = Ok t2 ->
    forall k, is_Some (t2 !! k) <-> is_Some (t1 !! k) \/ (k.1 = p /\ k.2 ∈ groups)).
  { intros [l_idx loc] t1 σ1 t2 _ Hr k'. simpl in Hr.
    assert (Hcell : forall (y : nat * Z) u1 σ2 u2, y ∈ enumerate groups ->
      h_outcome (run (summarize_cell report_path p mse_results rsq_results
                                     l_idx loc y.1 y.2 u1) σ2) = Ok u2 ->
      forall k, is_Some (u2 !! k) <-> is_Some (u1 !! k) \/ k = (p, y.2)).
    { intros [g_idx grp] u1 σ2 u2 _ Hc. eapply summarize_cell_keys. exact Hc. }
    pose proof (h_foreach_keys (enumerate groups)
                  (fun '(g_idx, group) =>
                     summarize_cell report_path p mse_results rsq_results
                                    l_idx loc g_idx group)
                  (fun jg k => k = (p, jg.2)) t1 t2 σ1) as Hkeys.
    rewrite Hkeys; [| |exact Hr].
    - split; (intros [Hk|Hnew]; [auto|right]).
      + destruct Hnew as ([j grp] & Hin & ->). simpl. split; [reflexivity|].
        apply elem_of_enumerate in Hin. eapply list_elem_of_lookup_2. exact Hin.
      + destruct Hnew as [Hp Hin]. apply list_elem_of_lookup in Hin as [j Hj].
        exists (j, k'.2). split.
        * eapply list_elem_of_lookup_2. apply enumerate_lookup. eauto.
        * destruct k' as [a b]. simpl in *. congruence.
    - intros [g_idx grp] u1 σ2 u2 Hy Hc. apply (Hcell (g_idx, grp) u1 σ2 u2 Hy Hc). }
  pose proof (h_foreach_keys (enumerate locations)
                (fun '(l_idx, location) =>
                   h_foreach (enumerate groups) (fun '(g_idx, group) =>
                     summarize_cell report_path p mse_results rsq_results
                                    l_idx location g_idx group))
                (fun _ k => k.1 = p /\ k.2 ∈ groups) s s' σ) as Hkeys.
  rewrite Hkeys; [| |exact Hrun].
  - split; (intros [Hk|Hnew]; [auto|right]).
    + destruct Hnew as (x & Hx & Hnew). split; [|exact Hnew].
      intros ->. apply elem_of_nil in Hx. destruct Hx.
    + destruct Hnew as (Hne & Hnew). destruct locations as [|loc rest]; [congruence|].
      exists (0%nat, loc). split; [left|exact Hnew].
  - intros [l_idx loc] t1 σ1 t2 Hx Hr. apply (Hrow (l_idx, loc) t1 σ1 t2 Hx Hr).
Qed.

Lemma experiment_period_keys (data : gmap key obs)
    (location_groups : list (list location)) (groupings : list (list group))
    (max_window : Z) (mode model_type : string) (mse_record_mat rsq_record_mat : ref)
    (p : period) (s s' : summary_map) (σ : store) :
  h_outcome (run (experiment_period data location_groups groupings max_window mode
                                    model_type mse_record_mat rsq_record_mat p s) σ)
  = Ok s' ->
  forall k, is_Some (s' !! k) <->
            is_Some (s !! k) \/
            (k.1 = p /\ exists locations groups,
                          locations ∈ location_groups /\ locations <> [] /\
                          groups ∈ groupings /\ k.2 ∈ groups).
Proof.
  unfold experiment_period. intros Hrun k.
  apply h_bind_ok_inv in Hrun as (? & _ & Hrun).
  apply h_bind_ok_inv in Hrun as (? & _ & Hrun).
  assert (Hblock : forall locations groups t1 σ1 t2, groups ∈ groupings ->
    h_outcome (run (experiment_block ("./nowcast/" +:+ str_period p) data p max_window mode
                                     model_type mse_record_mat rsq_record_mat
                                     locations groups t1) σ1) = Ok t2 ->
    forall k, is_Some (t2 !! k) <->
              is_Some (t1 !! k) \/ (locations <> [] /\ k.1 = p /\ k.2 ∈ groups)).
  { intros locations groups t1 σ1 t2 _ Hb. unfold experiment_block in Hb.
    apply h_bind_ok_inv in Hb as (mse_results & _ & Hb).
    apply h_bind_ok_inv in Hb as (rsq_results & _ & Hb).
    apply h_bind_ok_inv in Hb as (? & _ & Hb).
    eapply summarize_keys. exact Hb. }
  assert (Hrow : forall locations t1 σ1 t2, locations ∈ location_groups ->
    h_outcome (run (h_foreach groupings (fun groups =>
                      experiment_block ("./nowcast/" +:+ str_period p) data p max_window
                                       mode model_type mse_record_mat rsq_record_mat
                                       locations groups) t1) σ1) = Ok t2 ->
    forall k, is_Some (t2 !! k) <->
              is_Some (t1 !! k) \/
              (locations <> [] /\ k.1 = p /\ exists groups, groups ∈ groupings /\
                                                            k.2 ∈ groups)).
  { intros locations t1 σ1 t2 _ Hr k'.
    pose proof (h_foreach_keys groupings
                  (fun groups =>
                     experiment_block ("./nowcast/" +:+ str_period p) data p max_window
                                      mode model_type mse_record_mat rsq_record_mat
                                      locations groups)
                  (fun groups k => locations <> [] /\ k.1 = p /\ k.2 ∈ groups)
                  t1 t2 σ1 (Hblock locations) Hr k') as Hkeys.
    rewrite Hkeys. split; (intros [Hk|Hnew]; [auto|right]).
    - destruct Hnew as (groups & Hin & Hne & Hp & Hg). eauto.
    - destruct Hnew as (Hne & Hp & groups & Hin & Hg). eauto. }
  pose proof (h_foreach_keys location_groups
                (fun locations =>
                   h_foreach groupings (fun groups =>
                     experiment_block ("./nowcast/" +:+ str_period p) data p max_window
                                      mode model_type mse_record_mat rsq_record_mat
                                      locations groups))
                (fun locations k =>
                   locations <> [] /\ k.1 = p /\ exists groups, groups ∈ groupings /\
                                                                k.2 ∈ groups)
                s s' _ Hrow Hrun k) as Hkeys.
  rewrite Hkeys. split; (intros [Hk|Hnew]; [auto|right]).
  - destruct Hnew as (locations & Hin & Hne & Hp & groups & Hgin & Hg).
    split; [exact Hp|]. exists locations, groups. auto.
  - destruct Hnew as (Hp & locations & groups & Hin & Hne & Hgin & Hg).
    exists locations. split; [exact Hin|]. split; [exact Hne|]. split; [exact Hp|].
    exists groups. auto.
Qed.

(** X13: when [run_nowcast_experiment] returns, its last call has written the
    summary, and the summary has an entry for exactly the pairs of a
    period of [time_periods] and a group of one of the groupings, provided
    that some choice of locations is not empty: the location is not part
    of the key. *)
Theorem summary_has_one_entry_per_period_and_group (data : gmap key obs)
    (location_groups : list (list location)) (groupings : list (list group))
    (time_periods : list period) (max_window : Z) (mode model_type : string) (σ : store) :
  h_outcome (run (run_nowcast_experiment data location_groups groupings time_periods
                                         max_window mode model_type) σ) = Ok tt ->
  exists t results,
    h_trace (run (run_nowcast_experiment data location_groups groupings time_periods
                                         max_window mode model_type) σ)
    = t ++ [EvWriteData "./nowcast/results.txt" results] /\
    forall p g,
      is_Some (results !! (p, g)) <->
      p ∈ time_periods /\
      exists locations groups, locations ∈ location_groups /\ locations <> [] /\
                               groups ∈ groupings /\ g ∈ groups.
Proof.
  unfold run_nowcast_experiment. intros Hrun. pose proof Hrun as Hok.
  apply h_bind_ok_inv in Hok as (mse_mat & Hmse & Hok).
  rewrite run_bind, Hmse.
  set (σ1 := h_store (run (np_full (max_window + 1) neg_infinity) σ)) in *.
  apply h_bind_ok_inv in Hok as (rsq_mat & Hrsq & Hok).
  rewrite run_bind, Hrsq.
  set (σ2 := h_store (run (np_full (max_window + 1) neg_infinity) σ1)) in *.
  apply h_bind_ok_inv in Hok as (results & Hloops & _).
  rewrite run_bind, Hloops. simpl. eexists _, results. rewrite !app_assoc.
  split; [reflexivity|]. intros p g.
  pose proof (h_foreach_keys time_periods
                (experiment_period data location_groups groupings max_window mode
                                   model_type mse_mat rsq_mat)
                (fun p k => k.1 = p /\ exists locations groups,
                              locations ∈ location_groups /\ locations <> [] /\
                              groups ∈ groupings /\ k.2 ∈ groups)
                ∅ results σ2) as Hkeys.
  rewrite Hkeys; [| |exact Hloops].
  - split.
    + intros [Hk|(p' & Hin & Hp & Hnew)]; [rewrite lookup_empty in Hk; destruct Hk as [? [=]]|].
      simpl in Hp. subst p'. auto.
    + intros [Hin Hnew]. right. exists p. auto.
  - intros p' t1 σ' t2 _ Hp'. eapply experiment_period_keys. exact Hp'.
Qed.

(** ** The figures of [nowcast_report] *)

Lemma foreach_calls_Forall2 (p : event -> bool) {A B St} (xs : list A)
    (body : A -> St -> W St) (sub : A -> list B) (Q : B -> event -> Prop) (s s' : St) :
  (forall x s1 s2, x ∈ xs -> outcome (body x s1) = Ok s2 ->
                   Forall2 Q (sub x) (calls p (trace (body x s1)))) ->
  outcome (foreach xs body s) = Ok s' ->
  Forall2 Q (xs ≫= sub) (calls p (trace (foreach xs body s))).
Proof.
  revert s. induction xs as [|x xs IH]; intros s Hbody Hrun; [constructor|].
  simpl in Hrun. pose proof Hrun as Hrun'.
  apply bind_ok_inv in Hrun' as (s1 & Hx & Hrest).
  change (foreach (x :: xs) body s) with (body x s ≫= (fun s' => foreach xs body s')).
  rewrite calls_bind, Hx.
  change ((x :: xs) ≫= sub) with (sub x ++ (xs ≫= sub)).
  apply Forall2_app.
  - eapply Hbody; [left|exact Hx].
  - apply IH; [|exact Hrest]. intros y t1 t2 Hy. apply Hbody. right. exact Hy.
Qed.

Lemma nowcast_report_cell_plots (path : string) (left_window backfill_window : Z)
    (c : collectors) (l_idx : nat) (loc : location) (g_idx : nat) (grp : group)
    (acc acc' : list (list (option float)) * list (list (option float))) :
  outcome (nowcast_report_cell path left_window backfill_window c
                               l_idx loc g_idx grp acc) = Ok acc' ->
  exists preds upper lower cur truth,
    grid_get (predictions c) l_idx g_idx = Ok preds /\
    grid_get (predictions_upper c) l_idx g_idx = Ok upper /\
    grid_get (predictions_lower c) l_idx g_idx = Ok lower /\
    grid_get (cur_truth c) l_idx g_idx = Ok cur /\
    grid_get (ground_truth c) l_idx g_idx = Ok truth /\
    calls is_plot (trace (nowcast_report_cell path left_window backfill_window c
                                              l_idx loc g_idx grp acc))
    = [EvPlot (path +:+ "/" +:+ loc +:+ "/" +:+ str grp +:+ "-" +:+
               str left_window +:+ "-" +:+ str backfill_window +:+ ".png")
              (length (valid_weeks c))
              ((fun epiweek => str (epiweek `mod` 100)) <$> valid_weeks c)
              [preds; upper; lower; cur; truth]].
Proof.
  destruct acc as [rsq mse]. unfold nowcast_report_cell. intros Hrun.
  apply bind_ok_inv in Hrun as (truth & Ht & Hrun). rewrite calls_bind, Ht.
  apply bind_ok_inv in Hrun as (preds & Hp & Hrun). rewrite calls_bind, Hp.
  apply bind_ok_inv in Hrun as (r & Hr & Hrun). rewrite calls_bind, Hr.
  apply bind_ok_inv in Hrun as (rsq' & Hrsq & Hrun). rewrite calls_bind, Hrsq.
  apply bind_ok_inv in Hrun as (m & Hm & Hrun). rewrite calls_bind, Hm.
  apply bind_ok_inv in Hrun as (mse' & Hmse & Hrun). rewrite calls_bind, Hmse.
  apply bind_ok_inv in Hrun as (upper & Hu & Hrun). rewrite calls_bind, Hu.
  apply bind_ok_inv in Hrun as (lower & Hlo & Hrun). rewrite calls_bind, Hlo.
  apply bind_ok_inv in Hrun as (cur & Hc & Hrun). rewrite calls_bind, Hc.
  apply bind_ok_inv in Hrun as ([] & Hplot & Hrun). rewrite calls_bind, Hplot.
  exists preds, upper, lower, cur, truth. simpl in Ht, Hp, Hu, Hlo, Hc.
  repeat (split; [assumption|]). reflexivity.
Qed.

Lemma validate_plots_nothing (data : gmap key obs) (locations : list location)
    (groups : list group) (time_period : period)
    (lag left_window right_window backfill_window : Z) (mode model_type : string) :
  silent is_plot (validate data locations groups time_period lag left_window
                           right_window backfill_window mode model_type).
Proof.
  unfold validate. apply silent_bind; [apply silent_call; reflexivity|]. intros [X Y].
  apply silent_bind; [apply train_model_silent; reflexivity|]. intros models.
  apply silent_foreach. intros e c. unfold validate_week.
  apply silent_foreach. intros [l_idx loc] c1. apply silent_foreach. intros [g_idx grp] c2.
  unfold validate_cell. destruct models as [[model_upper model] model_lower]. quiet.
Qed.

(** X14: when [nowcast_report] returns, it has plotted one figure for every
    location and group, location by location, and nothing else: the five
    series of the pair (predictions, upper and lower bound, current and
    final values) in the file [path/location/group-left-backfill.png],
    against all the epiweeks of the period, whose week numbers are the
    ticks, also when the pair has no observation in some of them. *)
Theorem nowcast_report_plots_every_pair (path : string) (data : gmap key obs)
    (locations : list location) (groups : list group) (time_period : period)
    (left_window backfill_window : Z) (mode model_type : string)
    (acc : list (list (option float)) * list (list (option float))) :
  outcome (nowcast_report path data locations groups time_period left_window
                          backfill_window mode model_type) = Ok acc ->
  exists c,
    outcome (validate data locations groups time_period 0 left_window 0 backfill_window
                      mode model_type) = Ok c /\
    Forall2 (figure path left_window backfill_window (unravel time_period) c)
            (il ← enumerate locations; jg ← enumerate groups; [(il, jg)])
            (calls is_plot (trace (nowcast_report path data locations groups time_period
                                                  left_window backfill_window mode
                                                  model_type))).
Proof.
  unfold nowcast_report. intros Hrun.
  apply bind_ok_inv in Hrun as (c & Hval & Hrun). exists c. split; [exact Hval|].
  rewrite calls_bind, Hval, validate_plots_nothing. simpl.
  pose proof (validate_visits_period _ _ _ _ _ _ _ _ _ _ _ Hval) as Hweeks.
  refine (foreach_calls_Forall2 is_plot (enumerate locations) _
            (fun il => jg ← enumerate groups; [(il, jg)]) _ _ _ _ Hrun).
  intros [l_idx loc] s1 s2 _ Hrow.
  refine (foreach_calls_Forall2 is_plot (enumerate groups) _
            (fun jg => [((l_idx, loc), jg)]) _ _ _ _ Hrow).
  intros [g_idx grp] t1 t2 _ Hcell.
  apply nowcast_report_cell_plots in Hcell
    as (preds & upper & lower & cur & truth & Hp & Hu & Hlo & Hc & Ht & ->).
  constructor; [|constructor].
  exists preds, upper, lower, cur, truth. rewrite <- Hweeks. simpl.
  repeat (split; [assumption|]). reflexivity.
Qed.

End MoreFacts.

(** * The properties on the concrete world *)

Import Toy.

(** The tag "svr" is outside the recognized set. *)
Lemma train_model_unknown_tag_witness :
  ("svr" ∉ ["lin"; "ridge"; "gbdt"; "quant_lin"; "quant_ridge"; "quant_gbdt"]) /\
  train_model (E := float) [] [] "svr" = MkW [] (Err (UnboundLocalError "model_upper")).
Proof.
  assert (Hnot : "svr" ∉ ["lin"; "ridge"; "gbdt"; "quant_lin"; "quant_ridge"; "quant_gbdt"]).
  { rewrite !not_elem_of_cons. repeat split; try discriminate. apply not_elem_of_nil. }
  split; [exact Hnot|]. apply train_model_unknown_tag. exact Hnot.
Defined.

(** [validate] on two weeks, two locations and one group. *)
Lemma validate_weeks_cover_predictions_witness :
  outcome (validate data_ab ["A"; "B"] [0] weeks 0 0 0 0 "all" "lin") = Ok validated_ab /\
  valid_weeks validated_ab = unravel weeks /\
  forall l g location group,
    ["A"; "B"] !! l = Some location -> [0] !! g = Some group ->
    exists cell,
      grid_get (predictions validated_ab) l g = Ok cell /\
      length cell = length (present_weeks data_ab location group (unravel weeks)) /\
      (length cell <= length (valid_weeks validated_ab))%nat.
Proof.
  assert (Hrun : outcome (validate data_ab ["A"; "B"] [0] weeks 0 0 0 0 "all" "lin")
                 = Ok validated_ab) by (vm_compute; reflexivity).
  split; [exact Hrun|].
  exact (validate_weeks_cover_predictions data_ab ["A"; "B"] [0] weeks 0 0 0 0 "all" "lin"
                                          validated_ab Hrun).
Defined.

(** The sweep of season 2016 selects window 0 with score 1.0; the scores -1.0
    and 0.0 leave the selection at window 0. *)
Lemma predict_selection_rule_witness :
  outcome (sweep data_season ["A"] [0] (201640, 201717) "all" "lin" 1) = Ok (0, 1%float) /\
  (exists scores,
     Forall2 (fun window rsq =>
                outcome (penalized_rsq data_season ["A"] [0] (201640, 201717) "all" "lin"
                                       window) = Ok rsq)
             (range 0 (1 + 1)) scores /\
     (0, 1%float) = select_window (zip (range 0 (1 + 1)) scores)) /\
  Forall (fun wr => PrimFloat.ltb 0 (snd wr) = false) [(0, (-1)%float); (1, 0%float)] /\
  select_window [(0, (-1)%float); (1, 0%float)] = (0, 0%float).
Proof.
  destruct (predict_selection_rule data_season ["A"] [0] (201640, 201717) "all" "lin" 1)
    as (Hsweep & _ & _ & _ & Hnone & _).
  assert (Hrun : outcome (sweep data_season ["A"] [0] (201640, 201717) "all" "lin" 1)
                 = Ok (0, 1%float)) by (vm_compute; reflexivity).
  assert (Hall : Forall (fun wr => PrimFloat.ltb 0 (snd wr) = false)
                        [(0, (-1)%float); (1, 0%float)])
    by (repeat constructor).
  split; [exact Hrun|]. split; [exact (Hsweep _ Hrun)|].
  split; [exact Hall|exact (Hnone _ Hall)].
Defined.

(** With [max_window = 1], the R-squared matrix of location "A" keeps the
    sentinel at window 0, backfill 1 and holds 1.0 at window 1, backfill 0. *)
Lemma experiment_cells_above_diagonal_stay_sentinel_witness :
  let σ' := h_store (run (run_nowcast_experiment data_ab [["A"; "B"]] [[0]] [weeks] 1
                                                 "all" "lin") []) in
  (length ([] : list (list (list float))) <= 4)%nat /\
  cellv σ' 4 0 1 = Some neg_infinity /\
  ((0 < 1)%nat -> neg_infinity = neg_infinity) /\
  cellv σ' 4 1 0 = Some 1%float /\
  (1%float <> neg_infinity -> (0 <= 1)%nat /\ Z.of_nat 1 <= 1).
Proof.
  intros σ'.
  destruct (experiment_cells_above_diagonal_stay_sentinel
              data_ab [["A"; "B"]] [[0]] [weeks] 1 "all" "lin" []) as (Hcells & _ & _).
  assert (Hlen : (length ([] : list (list (list float))) <= 4)%nat) by (simpl; lia).
  assert (Hup : cellv σ' 4 0 1 = Some neg_infinity) by (vm_compute; reflexivity).
  assert (Hlow : cellv σ' 4 1 0 = Some 1%float) by (vm_compute; reflexivity).
  split; [exact Hlen|]. split; [exact Hup|].
  split; [exact (proj1 (Hcells 4%nat 0%nat 1%nat neg_infinity Hlen Hup))|].
  split; [exact Hlow|].
  exact (proj2 (Hcells 4%nat 1%nat 0%nat 1%float Hlen Hlow)).
Defined.

(** Season 2017 starts in [FIRST_YEAR]: no training season. *)
Lemma validate_runs_on_empty_training_witness :
  model_periods "all" (get_start_year (fst weeks)) = [] /\
  (forall start_year, start_year <= FIRST_YEAR -> model_periods "all" start_year = []) /\
  exists rest,
    trace (validate data_ab ["A"; "B"] [0] weeks 0 0 0 0 "all" "lin")
    = EvPrepare ["A"; "B"] [0] [] 0 0 0 0 :: trace (train_model (E := float) [] [] "lin") ++ rest.
Proof.
  assert (Hempty : model_periods "all" (get_start_year (fst weeks)) = [])
    by (vm_compute; reflexivity).
  destruct (validate_runs_on_empty_training data_ab ["A"; "B"] [0] weeks 0 0 0 0 "all" "lin"
                                            Hempty) as (Hall & _ & Hok).
  split; [exact Hempty|]. split; [exact Hall|].
  destruct (Hok [] []) as (rest & Htrace & _); [vm_compute; reflexivity|].
  exists rest. exact Htrace.
Defined.

(** Locations "A" and "B": the entry is the maximum for "B". *)
Lemma summary_is_maximum_of_last_location_witness :
  [full1; full1] !! 0%nat = Some (replicate 1 (replicate 1 neg_infinity)) /\
  [full1; full1] !! 1%nat = Some (replicate 1 (replicate 1 neg_infinity)) /\
  h_outcome (run (experiment_block "p" data_ab weeks 0 "all" "lin" 0%nat 1%nat
                                   ["A"; "B"] [0] ∅) [full1; full1])
  = Ok {[ (weeks, 0) := 0%float ]} /\
  length ["A"; "B"] = 2%nat /\
  [0] !! 0%nat = Some 0 /\
  exists v,
    ({[ (weeks, 0) := 0%float ]} : gmap (period * group) float) !! (weeks, 0) = Some v /\
    amax (triangle_matrix 1 (reported_rsq "p" data_ab ["A"; "B"] [0] weeks "all" "lin"
                                          1 0)) = Ok v.
Proof.
  assert (Hm : [full1; full1] !! 0%nat = Some (replicate 1 (replicate 1 neg_infinity)))
    by reflexivity.
  assert (Hr : [full1; full1] !! 1%nat = Some (replicate 1 (replicate 1 neg_infinity)))
    by reflexivity.
  assert (Hrun : h_outcome (run (experiment_block "p" data_ab weeks 0 "all" "lin" 0%nat 1%nat
                                                  ["A"; "B"] [0] ∅) [full1; full1])
                 = Ok {[ (weeks, 0) := 0%float ]}) by (vm_compute; reflexivity).
  assert (Hlast : forall j, (0 < j)%nat -> [0] !! j <> Some 0).
  { intros [|j] Hj; [lia|]. simpl. rewrite lookup_nil. discriminate. }
  split; [exact Hm|]. split; [exact Hr|]. split; [exact Hrun|].
  split; [reflexivity|]. split; [reflexivity|].
  exact (summary_is_maximum_of_last_location "p" data_ab ∅ {[ (weeks, 0) := 0%float ]}
           weeks 0 "all" "lin" 0%nat 1%nat ["A"; "B"] [0] [full1; full1] 1%nat 0%nat 0
           Hm Hr Hrun eq_refl eq_refl Hlast).
Defined.

(** [predict] for the epiweek 201741 with [max_window = 2]: the calendar
    bounds the sweep to the windows 0 and 1. *)
Lemma predict_sweeps_and_retrains_witness :
  outcome (predict data_season 201741 [["A"]] [[0]] 2 "all" "lin") = Ok predicted /\
  ["A"] ∈ [["A"]] /\ [0] ∈ [[0]] /\
  exists scores opt best out,
    Forall2 (fun w rsq =>
               outcome (penalized_rsq data_season ["A"] [0] (201640, 201717) "all" "lin" w)
               = Ok rsq /\
               exists c, outcome (validate data_season ["A"] [0] (201640, 201717) 0 w 0 w
                                           "all" "lin") = Ok c /\
                         valid_weeks c = unravel (201640, 201717))
            (range 0 (1 + 1)) scores /\
    select_window (zip (range 0 (1 + 1)) scores) = (opt, best) /\
    calls is_prepare
      (trace (predict_block data_season 201741 (201640, 201717) 1 "all" "lin"
                            ["A"] [0] out))
    = ((fun w => EvPrepare ["A"] [0] [] 0 w 0 w) <$> range 0 (1 + 1))
      ++ [EvPrepare ["A"] [0] [(201640, 201717)] 0 opt 0 opt] /\
    forall l g, l ∈ ["A"] -> g ∈ [0] ->
      exists point upper lower,
        predicted.1.1 !! (l, g) = Some point /\ predicted.1.2 !! (l, g) = Some upper /\
        predicted.2 !! (l, g) = Some lower.
Proof.
  assert (Hrun : outcome (predict data_season 201741 [["A"]] [[0]] 2 "all" "lin")
                 = Ok predicted) by (vm_compute; reflexivity).
  assert (Hl : ["A"] ∈ [["A"]]) by (apply list_elem_of_here).
  assert (Hg : [0] ∈ [[0]]) by (apply list_elem_of_here).
  split; [exact Hrun|]. split; [exact Hl|]. split; [exact Hg|].
  exact (predict_sweeps_and_retrains data_season 201741 [["A"]] [[0]] 2 "all" "lin"
                                     predicted ["A"] [0] Hrun Hl Hg).
Defined.

(** Location "C" has no observation: its R-squared raises. *)
Lemma nowcast_report_metric_failure_aborts_witness :
  outcome (validate data_a ["C"; "A"] [0] weeks 0 0 0 0 "all" "lin") = Ok validated_ca /\
  grid_get (ground_truth validated_ca) 0 0 = Ok [] /\
  grid_get (predictions validated_ca) 0 0 = Ok [] /\
  is_ok (r2_score (Seq []) (Seq [])) && is_ok (mean_squared_error (Seq []) (Seq [])) = false /\
  is_ok (outcome (nowcast_report "p" data_a ["C"; "A"] [0] weeks 0 0 "all" "lin")) = false.
Proof.
  assert (Hrun : outcome (validate data_a ["C"; "A"] [0] weeks 0 0 0 0 "all" "lin")
                 = Ok validated_ca) by (vm_compute; reflexivity).
  assert (Ht : grid_get (ground_truth validated_ca) 0 0 = Ok []) by reflexivity.
  assert (Hp : grid_get (predictions validated_ca) 0 0 = Ok []) by reflexivity.
  assert (Hfail : is_ok (r2_score (Seq []) (Seq []))
                  && is_ok (mean_squared_error (Seq []) (Seq [])) = false) by reflexivity.
  split; [exact Hrun|]. split; [exact Ht|]. split; [exact Hp|]. split; [exact Hfail|].
  exact (proj1 (proj2 (nowcast_report_metric_failure_aborts
                         "p" data_a ["C"; "A"] [0] weeks 0 0 "all" "lin" validated_ca
                         0%nat 0%nat "C" 0 [] [] Hrun eq_refl eq_refl Ht Hp Hfail))).
Defined.

(** Two locations, one group: writing for the first pair leaves the
    matrices of the second pair and both templates as they were. *)
Lemma experiment_matrices_are_private_copies_witness :
  [full1; full1] !! 0%nat = Some full1 /\ [full1; full1] !! 1%nat = Some full1 /\
  forall σ2 window backfill rsq mse,
    let σ3 := h_store (run (record_cell (grid_refs 2 2 1) (grid_refs 4 2 1) window backfill
                                        rsq mse 0 0) σ2) in
    σ3 !! 3%nat = σ2 !! 3%nat /\ σ3 !! 5%nat = σ2 !! 5%nat /\
    σ3 !! 0%nat = σ2 !! 0%nat /\ σ3 !! 1%nat = σ2 !! 1%nat.
Proof.
  assert (Hm : [full1; full1] !! 0%nat = Some full1) by reflexivity.
  assert (Hr : [full1; full1] !! 1%nat = Some full1) by reflexivity.
  split; [exact Hm|]. split; [exact Hr|].
  destruct (experiment_matrices_are_private_copies
              "p" data_ab ∅ weeks 0 "all" "lin" 0%nat 1%nat ["A"; "B"] [0]
              [full1; full1] full1 full1 Hm Hr) as (_ & _ & _ & _ & _ & Hcell & _).
  intros σ2 window backfill rsq mse σ3.
  destruct (Hcell σ2 window backfill rsq mse 0%nat 0%nat) as (Hother & Htm & Htr).
  split; [|split; [|split; [exact Htm|exact Htr]]].
  - apply (Hother 1%nat 0%nat 3%nat); [discriminate|left; reflexivity].
  - apply (Hother 1%nat 0%nat 5%nat); [discriminate|right; reflexivity].
Defined.

(** The epiweek 201742 has no observation: the fetch raises and so does the
    prediction loop; for 201741 the pair is a key of the three mappings. *)
Lemma predict_fetches_every_pair_witness :
  outcome (predict data_season 201741 [["A"]] [[0]] 2 "all" "lin") = Ok predicted /\
  ["A"] ∈ [["A"]] /\ [0] ∈ [[0]] /\ "A" ∈ ["A"] /\ 0 ∈ [0] /\
  covers predicted ("A", 0) /\
  data_season !! (201742, 0, "A") = None /\
  is_ok (fetch data_season "A" 0 201742 0 0 0 0) = false /\
  is_ok (outcome (predict_cells data_season (0.9%float, 0.5%float, 0.1%float) 201742 0
                                ["A"] [0])) = false.
Proof.
  destruct (predict_fetches_every_pair data_season 201741 [["A"]] [[0]] 2 "all" "lin")
    as (Hcovers & _ & _ & _).
  destruct (predict_fetches_every_pair data_season 201742 [["A"]] [[0]] 2 "all" "lin")
    as (_ & _ & Hfail & _).
  assert (Hrun : outcome (predict data_season 201741 [["A"]] [[0]] 2 "all" "lin")
                 = Ok predicted) by (vm_compute; reflexivity).
  assert (Hl : ["A"] ∈ [["A"]]) by (apply list_elem_of_here).
  assert (Hg : [0] ∈ [[0]]) by (apply list_elem_of_here).
  assert (Ha : "A" ∈ ["A"]) by (apply list_elem_of_here).
  assert (H0 : 0 ∈ [0]) by (apply list_elem_of_here).
  assert (Hnofetch : is_ok (fetch data_season "A" 0 201742 0 0 0 0) = false)
    by (vm_compute; reflexivity).
  split; [exact Hrun|]. split; [exact Hl|]. split; [exact Hg|]. split; [exact Ha|].
  split; [exact H0|]. split; [exact (Hcovers predicted ["A"] [0] "A" 0 Hrun Hl Hg Ha H0)|].
  split; [vm_compute; reflexivity|]. split; [exact Hnofetch|].
  exact (Hfail (0.9%float, 0.5%float, 0.1%float) 0 ["A"] [0] 0%nat 0%nat "A" 0
               eq_refl eq_refl Hnofetch).
Defined.

(** ** Where the claims C5, C6 and C8 fail *)

(** C5 fails: with no training season at all, [validate] raises nothing; it
    calls [prepare] on the empty list of periods, constructs and fits the
    three estimators on the empty training set, and returns. *)
Lemma validate_has_no_empty_training_guard :
  get_start_year (fst weeks) = FIRST_YEAR /\
  model_periods "all" (get_start_year (fst weeks)) = [] /\
  outcome (validate data_ab ["A"; "B"] [0] weeks 0 0 0 0 "all" "lin") = Ok validated_ab /\
  take 7 (trace (validate data_ab ["A"; "B"] [0] weeks 0 0 0 0 "all" "lin"))
  = [EvPrepare ["A"; "B"] [0] [] 0 0 0 0;
     EvNew RegLinear 0.9%float; EvNew RegLinear 0.5%float; EvNew RegLinear 0.1%float;
     EvFit Upper [] []; EvFit Mid [] []; EvFit Lower [] []].
Proof. repeat split; vm_compute; reflexivity. Qed.

(** C6 fails: for the locations "A" and "B" the R-squared of the one
    report is 1.0 for "A" and 0.0 for "B"; the summary written at the end
    maps the period and group to 0.0, the value of the last location, not
    to the maximum 1.0 over the locations; and the entry is that number
    alone. *)
Lemma summary_is_not_maximum_over_locations :
  let r := run (run_nowcast_experiment data_ab [["A"; "B"]] [[0]] [weeks] 0 "all" "lin") [] in
  h_outcome r = Ok tt /\
  last (h_trace r)
  = Some (EvWriteData "./nowcast/results.txt" {[ (weeks, 0) := 0%float ]}) /\
  reported_rsq "./nowcast/(201740, 201741)" data_ab ["A"; "B"] [0] weeks "all" "lin"
               0 0 0 0 = 1%float /\
  reported_rsq "./nowcast/(201740, 201741)" data_ab ["A"; "B"] [0] weeks "all" "lin"
               1 0 0 0 = 0%float /\
  PrimFloat.ltb 0 1 = true.
Proof. repeat split; vm_compute; reflexivity. Qed.

(** C8 fails: location "C" has no observation, so its R-squared raises;
    [nowcast_report] then raises too, before any plot and without
    processing the pair of location "A", and the experiment stops
    without writing its summary. *)
Lemma metric_failure_aborts_the_sweep :
  r2_score (Seq []) (Seq []) = Err ValueError /\
  outcome (nowcast_report "p" data_a ["C"; "A"] [0] weeks 0 0 "all" "lin") = Err ValueError /\
  calls is_plot (trace (nowcast_report "p" data_a ["C"; "A"] [0] weeks 0 0 "all" "lin")) = [] /\
  let r := run (run_nowcast_experiment data_a [["C"; "A"]] [[0]] [weeks] 0 "all" "lin") [] in
  h_outcome r = Err ValueError /\
  h_store r !! 5%nat = Some [[neg_infinity]].
Proof. repeat split; vm_compute; reflexivity. Qed.

(** ** Further properties on the concrete world *)

(** The tag "lin": three [RegLinear] estimators, each fitted on its own. *)
Lemma train_model_fits_by_family_witness :
  outcome (train_model (E := float) [[1%float]] [1%float] "lin")
  = Ok (UPPER_QUANT, MID_QUANT, LOWER_QUANT) /\
  ("lin", RegLinear) ∈ [("lin", RegLinear); ("ridge", RegRidge); ("gbdt", RegGBDT);
                        ("quant_gbdt", QuantGBDT)] /\
  trace (train_model (E := float) [[1%float]] [1%float] "lin")
  = [EvNew RegLinear UPPER_QUANT; EvNew RegLinear MID_QUANT; EvNew RegLinear LOWER_QUANT;
     EvFit Upper [[1%float]] [1%float]; EvFit Mid [[1%float]] [1%float];
     EvFit Lower [[1%float]] [1%float]].
Proof.
  assert (Hrun : outcome (train_model (E := float) [[1%float]] [1%float] "lin")
                 = Ok (UPPER_QUANT, MID_QUANT, LOWER_QUANT)) by (vm_compute; reflexivity).
  assert (Hin : ("lin", RegLinear) ∈ [("lin", RegLinear); ("ridge", RegRidge);
                                      ("gbdt", RegGBDT); ("quant_gbdt", QuantGBDT)])
    by left.
  split; [exact Hrun|]. split; [exact Hin|].
  exact (proj1 (proj1 (train_model_fits_by_family (E := float) [[1%float]] [1%float] "lin"
                         RegLinear (UPPER_QUANT, MID_QUANT, LOWER_QUANT) Hrun) Hin)).
Defined.

(** [validate] on two weeks, two locations and one group: the cells of
    "A" and "B" hold the samples of both weeks. *)
Lemma validate_records_aligned_samples_witness :
  outcome (validate data_ab ["A"; "B"] [0] weeks 0 0 0 0 "all" "lin") = Ok validated_ab /\
  exists X Y models,
    prepare data_ab ["A"; "B"] [0] (model_periods "all" (get_start_year weeks.1)) 0 0 0 0
    = Ok (X, Y) /\
    outcome (train_model (E := float) X Y "lin") = Ok models /\
    forall l g location group,
      ["A"; "B"] !! l = Some location -> [0] !! g = Some group ->
      exists samples,
        Forall2 (fun e s => sample_of data_ab models 0 0 0 0 location group e = Some s)
                (present_weeks data_ab location group (unravel weeks)) samples /\
        grid_get (predictions validated_ab) l g = Ok (s_pred <$> samples) /\
        grid_get (predictions_lower validated_ab) l g = Ok (s_lower <$> samples) /\
        grid_get (predictions_upper validated_ab) l g = Ok (s_upper <$> samples) /\
        grid_get (cur_truth validated_ab) l g = Ok (s_cur <$> samples) /\
        grid_get (ground_truth validated_ab) l g = Ok (s_truth <$> samples).
Proof.
  assert (Hrun : outcome (validate data_ab ["A"; "B"] [0] weeks 0 0 0 0 "all" "lin")
                 = Ok validated_ab) by (vm_compute; reflexivity).
  split; [exact Hrun|].
  exact (validate_records_aligned_samples data_ab ["A"; "B"] [0] weeks 0 0 0 0 "all" "lin"
                                          validated_ab Hrun).
Defined.

(** The report of the two locations: R-squared 1 and 0, mean squared
    error 0 and 1. *)
Lemma nowcast_report_scores_every_pair_witness :
  outcome (nowcast_report "p" data_ab ["A"; "B"] [0] weeks 0 0 "all" "lin")
  = Ok ([[Some 1%float]; [Some 0%float]], [[Some 0%float]; [Some 1%float]]) /\
  exists c,
    outcome (validate data_ab ["A"; "B"] [0] weeks 0 0 0 0 "all" "lin") = Ok c /\
    forall l g location group,
      ["A"; "B"] !! l = Some location -> [0] !! g = Some group ->
      scored c ([[Some 1%float]; [Some 0%float]], [[Some 0%float]; [Some 1%float]]) l g.
Proof.
  assert (Hrun : outcome (nowcast_report "p" data_ab ["A"; "B"] [0] weeks 0 0 "all" "lin")
                 = Ok ([[Some 1%float]; [Some 0%float]], [[Some 0%float]; [Some 1%float]]))
    by (vm_compute; reflexivity).
  split; [exact Hrun|].
  exact (nowcast_report_scores_every_pair "p" data_ab ["A"; "B"] [0] weeks 0 0 "all" "lin"
                                          _ Hrun).
Defined.

(** The same report plots two figures, each against both weeks. *)
Lemma nowcast_report_plots_every_pair_witness :
  outcome (nowcast_report "p" data_ab ["A"; "B"] [0] weeks 0 0 "all" "lin")
  = Ok ([[Some 1%float]; [Some 0%float]], [[Some 0%float]; [Some 1%float]]) /\
  exists c,
    outcome (validate data_ab ["A"; "B"] [0] weeks 0 0 0 0 "all" "lin") = Ok c /\
    Forall2 (figure "p" 0 0 (unravel weeks) c)
            (il ← enumerate ["A"; "B"]; jg ← enumerate [0]; [(il, jg)])
            (calls is_plot (trace (nowcast_report "p" data_ab ["A"; "B"] [0] weeks 0 0
                                                  "all" "lin"))).
Proof.
  assert (Hrun : outcome (nowcast_report "p" data_ab ["A"; "B"] [0] weeks 0 0 "all" "lin")
                 = Ok ([[Some 1%float]; [Some 0%float]], [[Some 0%float]; [Some 1%float]]))
    by (vm_compute; reflexivity).
  split; [exact Hrun|].
  exact (nowcast_report_plots_every_pair "p" data_ab ["A"; "B"] [0] weeks 0 0 "all" "lin"
                                         _ Hrun).
Defined.

(** The block of location "A" and group 0 at the epiweek 201741. *)
Lemma predict_block_assigns_forecasts_witness :
  outcome (predict_block data_season 201741 (201640, 201717) 1 "all" "lin" ["A"] [0]
                         (∅, ∅, ∅)) = Ok predicted /\
  exists opt best X Y models,
    outcome (sweep data_season ["A"] [0] (201640, 201717) "all" "lin" 1) = Ok (opt, best) /\
    prepare data_season ["A"] [0] [(201640, 201717)] 0 opt 0 opt = Ok (X, Y) /\
    outcome (train_model (E := float) X Y "lin") = Ok models /\
    (forall loc grp, loc ∈ ["A"] -> grp ∈ [0] ->
                     assigned data_season models 201741 opt predicted (loc, grp)) /\
    (forall k, ~ (k.1 ∈ ["A"] /\ k.2 ∈ [0]) -> same_at (∅, ∅, ∅) predicted k).
Proof.
  assert (Hrun : outcome (predict_block data_season 201741 (201640, 201717) 1 "all" "lin"
                                        ["A"] [0] (∅, ∅, ∅)) = Ok predicted)
    by (vm_compute; reflexivity).
  split; [exact Hrun|].
  exact (predict_block_assigns_forecasts data_season 201741 (201640, 201717) 1 "all" "lin"
                                         ["A"] [0] (∅, ∅, ∅) predicted Hrun).
Defined.

(** [predict] for the epiweek 201741: the key ("A", 0) and its forecasts. *)
Lemma predict_returns_block_forecasts_witness :
  outcome (predict data_season 201741 [["A"]] [[0]] 2 "all" "lin") = Ok predicted /\
  let val_period := get_period (get_start_year 201741 - 1) 40 17 in
  let bound := Z.min 2 (get_max_window 201741) in
  ((exists locations groups, locations ∈ [["A"]] /\ groups ∈ [[0]] /\
                             ("A", 0).1 ∈ locations /\ ("A", 0).2 ∈ groups) ->
   covers predicted ("A", 0)) /\
  (is_Some (predicted.1.1 !! ("A", 0)) \/ is_Some (predicted.1.2 !! ("A", 0)) \/
   is_Some (predicted.2 !! ("A", 0)) ->
   exists locations groups opt best X Y models,
     locations ∈ [["A"]] /\ groups ∈ [[0]] /\
     ("A", 0).1 ∈ locations /\ ("A", 0).2 ∈ groups /\
     outcome (sweep data_season locations groups val_period "all" "lin" bound)
     = Ok (opt, best) /\
     prepare data_season locations groups [val_period] 0 opt 0 opt = Ok (X, Y) /\
     outcome (train_model (E := float) X Y "lin") = Ok models /\
     assigned data_season models 201741 opt predicted ("A", 0)).
Proof.
  assert (Hrun : outcome (predict data_season 201741 [["A"]] [[0]] 2 "all" "lin")
                 = Ok predicted) by (vm_compute; reflexivity).
  split; [exact Hrun|].
  exact (predict_returns_block_forecasts data_season 201741 [["A"]] [[0]] 2 "all" "lin"
                                         predicted ("A", 0) Hrun).
Defined.

(** The sweep of season 2016 selects window 0 with the score 1.0. *)
Lemma sweep_selects_best_window_witness :
  outcome (sweep data_season ["A"] [0] (201640, 201717) "all" "lin" 1) = Ok (0, 1%float) /\
  exists scores,
    Forall2 (fun window rsq =>
               outcome (penalized_rsq data_season ["A"] [0] (201640, 201717) "all" "lin"
                                      window) = Ok rsq)
            (range 0 (1 + 1)) scores /\
    Forall (fun rsq => PrimFloat.ltb 1 rsq = false) scores /\
    ((0 = 0 /\ 1%float = 0%float) \/
     (0 <= 0 <= 1 /\
      outcome (penalized_rsq data_season ["A"] [0] (201640, 201717) "all" "lin" 0)
      = Ok 1%float /\
      PrimFloat.ltb 0 1 = true)).
Proof.
  assert (Hrun : outcome (sweep data_season ["A"] [0] (201640, 201717) "all" "lin" 1)
                 = Ok (0, 1%float)) by (vm_compute; reflexivity).
  split; [exact Hrun|].
  exact (sweep_selects_best_window data_season ["A"] [0] (201640, 201717) "all" "lin"
                                   1 0 1%float Hrun).
Defined.

(** A two by two matrix: three labels, none for the cell above the
    diagonal. *)
Lemma plot_results_labels_lower_triangle_witness :
  outcome (plot_results "p" [[1%float; neg_infinity]; [2%float; 3%float]] "mse" "A" 0
                        "Reds") = Ok tt /\
  exists title labels,
    GROUP_DESCRIPTIONS !! 0 = Some title /\
    trace (plot_results "p" [[1%float; neg_infinity]; [2%float; 3%float]] "mse" "A" 0
                        "Reds")
    = [EvImshow "Reds" [[1%float; neg_infinity]; [2%float; 3%float]];
       EvAxes title (shape [[1%float; neg_infinity]; [2%float; 3%float]]).1
              (shape [[1%float; neg_infinity]; [2%float; 3%float]]).2]
      ++ labels
      ++ [EvSavefig ("p" +:+ "/" +:+ "A" +:+ "/" +:+ "mse" +:+ "_results_" +:+
                     str 0 +:+ ".png")] /\
    Forall2 (fun ij ev =>
               exists v, mat_get [[1%float; neg_infinity]; [2%float; 3%float]] ij.1 ij.2
                         = Ok v /\ ev = EvText ij.2 ij.1 v)
            (i ← seq 0 (length [[1%float; neg_infinity]; [2%float; 3%float]]);
             (fun j => (i, j)) <$> seq 0 (S i)) labels.
Proof.
  assert (Hrun : outcome (plot_results "p" [[1%float; neg_infinity]; [2%float; 3%float]]
                                       "mse" "A" 0 "Reds") = Ok tt)
    by (vm_compute; reflexivity).
  split; [exact Hrun|].
  exact (plot_results_labels_lower_triangle "p" [[1%float; neg_infinity]; [2%float; 3%float]]
                                            "mse" "A" 0 "Reds" Hrun).
Defined.


(** With [max_window = 1] the sweep trains three times: for the cells
    (0, 0), (1, 0) and (1, 1). *)
Lemma record_sweep_trains_once_per_cell_witness :
  h_outcome (run (record_sweep "p" data_ab ["A"; "B"] [0] weeks 1 "all" "lin"
                               [[0%nat]; [1%nat]] [[2%nat]; [3%nat]])
                 (replicate 4 [[neg_infinity; neg_infinity]; [neg_infinity; neg_infinity]]))
  = Ok tt /\
  calls is_prepare
    (h_trace (run (record_sweep "p" data_ab ["A"; "B"] [0] weeks 1 "all" "lin"
                                [[0%nat]; [1%nat]] [[2%nat]; [3%nat]])
                  (replicate 4 [[neg_infinity; neg_infinity];
                                [neg_infinity; neg_infinity]])))
  = window ← range 0 (1 + 1); backfill ← range 0 (window + 1);
    [EvPrepare ["A"; "B"] [0] (model_periods "all" (get_start_year weeks.1))
               0 window 0 backfill].
Proof.
  assert (Hrun : h_outcome (run (record_sweep "p" data_ab ["A"; "B"] [0] weeks 1 "all" "lin"
                                              [[0%nat]; [1%nat]] [[2%nat]; [3%nat]])
                                (replicate 4 [[neg_infinity; neg_infinity];
                                              [neg_infinity; neg_infinity]])) = Ok tt)
    by (vm_compute; reflexivity).
  split; [exact Hrun|].
  exact (record_sweep_trains_once_per_cell "p" data_ab ["A"; "B"] [0] weeks 1 "all" "lin"
           [[0%nat]; [1%nat]] [[2%nat]; [3%nat]] _ Hrun).
Defined.

(** One period, two locations and one group: the summary has the one
    key of the period and the group. *)
Lemma summary_has_one_entry_per_period_and_group_witness :
  h_outcome (run (run_nowcast_experiment data_ab [["A"; "B"]] [[0]] [weeks] 1
                                         "all" "lin") []) = Ok tt /\
  exists t results,
    h_trace (run (run_nowcast_experiment data_ab [["A"; "B"]] [[0]] [weeks] 1
                                         "all" "lin") [])
    = t ++ [EvWriteData "./nowcast/results.txt" results] /\
    forall p g,
      is_Some (results !! (p, g)) <->
      p ∈ [weeks] /\
      exists locations groups, locations ∈ [["A"; "B"]] /\ locations <> [] /\
                               groups ∈ [[0]] /\ g ∈ groups.
Proof.
  assert (Hrun : h_outcome (run (run_nowcast_experiment data_ab [["A"; "B"]] [[0]] [weeks] 1
                                                        "all" "lin") []) = Ok tt)
    by (vm_compute; reflexivity).
  split; [exact Hrun|].
  exact (summary_has_one_entry_per_period_and_group data_ab [["A"; "B"]] [[0]] [weeks] 1
                                                    "all" "lin" [] Hrun).
Defined.
